(** * The A2S query engine of opengsq-node

    A shallow embedding of [src/lib/buffer-reader.ts] (the [BufferReader]
    cursor) and of [src/source.ts] (the response decoders and the datagram
    handler of [Source.get]), followed by the properties proved about them.

    Octets are [Byte.byte]; a [Buffer] is the list of its octets; numbers read
    from a buffer are [Z]; offsets are [nat].  A read outside the buffer, which
    Node reports by raising a [RangeError], is [None] in the reader monad and
    the error [RangeError] in the handler. *)

From Stdlib Require Import String Ascii.
From Stdlib Require Import List ZArith NArith Bool Lia.
From Stdlib Require Import Permutation Sorted.
From Stdlib Require Import Strings.Byte.
Import ListNotations.
Local Open Scope Z_scope.

(* ================================================================= *)
(** ** Buffers *)

Definition Buffer := list byte.

(** The unsigned value of an octet. *)
Definition u8 (b : byte) : Z := Z.of_N (Byte.to_N b).

(** The value of a run of octets, least significant first. *)
Fixpoint le_value (bs : list byte) : Z :=
  match bs with
  | [] => 0
  | b :: rest => u8 b + 256 * le_value rest
  end.

Definition be_value (bs : list byte) : Z := le_value (rev bs).

(** Two's complement reading of a [bits]-wide unsigned value. *)
Definition signed (bits v : Z) : Z :=
  if v <? 2 ^ (bits - 1) then v else v - 2 ^ bits.

(** JavaScript's [ToInt32]: the operands of [&] and [>>] are wrapped to
    32 bits, signed. *)
Definition ToInt32 (v : Z) : Z := signed 32 (v mod 2 ^ 32).

(** A JavaScript string, as the sequence of its code points. *)
Definition jsstring := list Z.

(** The string of a literal of ASCII characters. *)
Definition js (s : string) : jsstring :=
  map (fun a => Z.of_N (N_of_ascii a)) (list_ascii_of_string s).

Definition REPLACEMENT_CHARACTER : Z := 0xFFFD.

(** UTF-8 decoding as [Buffer.prototype.toString('utf-8')] does it: [cp] is the
    code point under construction, [needed] the continuation octets still
    expected, [lo..hi] the range allowed for the next one.  An ill-formed
    sequence yields U+FFFD and decoding resumes at the offending octet. *)
Fixpoint utf8_go (bs : list byte) (cp : Z) (needed : nat) (lo hi : Z) : jsstring :=
  match bs with
  | [] => match needed with O => [] | S _ => [REPLACEMENT_CHARACTER] end
  | b :: rest =>
      let v := u8 b in
      let lead (pre : jsstring) : jsstring :=
        if v <=? 0x7F then pre ++ v :: utf8_go rest 0 0 0x80 0xBF
        else if (0xC2 <=? v) && (v <=? 0xDF)
          then pre ++ utf8_go rest (Z.land v 0x1F) 1 0x80 0xBF
        else if (0xE0 <=? v) && (v <=? 0xEF)
          then pre ++ utf8_go rest (Z.land v 0x0F) 2
                        (if v =? 0xE0 then 0xA0 else 0x80)
                        (if v =? 0xED then 0x9F else 0xBF)
        else if (0xF0 <=? v) && (v <=? 0xF4)
          then pre ++ utf8_go rest (Z.land v 0x07) 3
                        (if v =? 0xF0 then 0x90 else 0x80)
                        (if v =? 0xF4 then 0x8F else 0xBF)
        else pre ++ REPLACEMENT_CHARACTER :: utf8_go rest 0 0 0x80 0xBF in
      match needed with
      | O => lead []
      | S n =>
          if (lo <=? v) && (v <=? hi) then
            let cp' := Z.shiftl cp 6 + Z.land v 0x3F in
            match n with
            | O => cp' :: utf8_go rest 0 0 0x80 0xBF
            | S _ => utf8_go rest cp' n 0x80 0xBF
            end
          else lead [REPLACEMENT_CHARACTER]
      end
  end.

Definition utf8_decode (bs : list byte) : jsstring := utf8_go bs 0 0 0x80 0xBF.

(** The methods of Node's [Buffer] that the sources call. *)
Module Buf.

(** [buf[i]], [undefined] outside the buffer. *)
Definition get (buf : Buffer) (i : nat) : option byte := nth_error buf i.

(** [buf.subarray(start, end)]: both ends are clamped to the buffer. *)
Definition subarray (buf : Buffer) (start end_ : nat) : Buffer :=
  firstn (end_ - start) (skipn start buf).

(** [buf.subarray(start)]. *)
Definition subarray_from (buf : Buffer) (start : nat) : Buffer :=
  skipn start buf.

(** [buf.equals(other)]. *)
Definition equals (a b : Buffer) : bool :=
  if list_eq_dec Byte.byte_eq_dec a b then true else false.

(** [Buffer.concat(list)]. *)
Definition concat (l : list Buffer) : Buffer := List.concat l.

(** [buf.toString('utf-8', start, end)]. *)
Definition toString (buf : Buffer) (start end_ : nat) : jsstring :=
  utf8_decode (subarray buf start end_).

(** The [n] octets at [off], when they all lie inside the buffer. *)
Definition octets (n : nat) (buf : Buffer) (off : nat) : option (list byte) :=
  let bs := firstn n (skipn off buf) in
  if Nat.eqb (length bs) n then Some bs else None.

Definition readUIntLE (n : nat) (buf : Buffer) (off : nat) : option Z :=
  option_map le_value (octets n buf off).

Definition readUIntBE (n : nat) (buf : Buffer) (off : nat) : option Z :=
  option_map be_value (octets n buf off).

Definition readIntLE (n : nat) (buf : Buffer) (off : nat) : option Z :=
  option_map (signed (8 * Z.of_nat n)) (readUIntLE n buf off).

Definition readIntBE (n : nat) (buf : Buffer) (off : nat) : option Z :=
  option_map (signed (8 * Z.of_nat n)) (readUIntBE n buf off).

End Buf.

(* ================================================================= *)
(** ** lib/buffer-reader.ts *)

Record BufferReader := mkReader { buffer : Buffer; offset : nat }.

(** A method of the reader: it returns a value and the reader with its cursor
    moved, or raises a [RangeError] ([None]). *)
Definition Read (A : Type) : Type := BufferReader -> option (A * BufferReader).

Definition ret {A} (a : A) : Read A := fun r => Some (a, r).

Definition bind {A B} (m : Read A) (k : A -> Read B) : Read B :=
  fun r => match m r with
           | Some (a, r') => k a r'
           | None => None
           end.

Notation "'let*' x ':=' m 'in' k" := (bind m (fun x => k))
  (at level 10, x name, m at level 100, k at level 200).

(** A fixed-width read at the cursor, which then advances by [n]. *)
Definition advancing (n : nat) (read : Buffer -> nat -> option Z) : Read Z :=
  fun r => match read (buffer r) (offset r) with
           | Some v => Some (v, mkReader (buffer r) (offset r + n))
           | None => None
           end.

Definition byteLength (r : BufferReader) : nat := length (buffer r).

Definition readUint8 : Read Z := advancing 1 (Buf.readUIntLE 1).
Definition readInt8 : Read Z := advancing 1 (Buf.readIntLE 1).

Definition readUint16 (littleEndian : bool) : Read Z :=
  advancing 2 (if littleEndian then Buf.readUIntLE 2 else Buf.readUIntBE 2).
Definition readInt16 (littleEndian : bool) : Read Z :=
  advancing 2 (if littleEndian then Buf.readIntLE 2 else Buf.readIntBE 2).

Definition readUint32 (littleEndian : bool) : Read Z :=
  advancing 4 (if littleEndian then Buf.readUIntLE 4 else Buf.readUIntBE 4).
Definition readInt32 (littleEndian : bool) : Read Z :=
  advancing 4 (if littleEndian then Buf.readIntLE 4 else Buf.readIntBE 4).

Definition readBigUint64 (littleEndian : bool) : Read Z :=
  advancing 8 (if littleEndian then Buf.readUIntLE 8 else Buf.readUIntBE 8).
Definition readBigInt64 (littleEndian : bool) : Read Z :=
  advancing 8 (if littleEndian then Buf.readIntLE 8 else Buf.readIntBE 8).

(** Floating-point reads return the IEEE-754 bit pattern of the number. *)
Definition readFloat32 (littleEndian : bool) : Read Z :=
  advancing 4 (if littleEndian then Buf.readUIntLE 4 else Buf.readUIntBE 4).
Definition readFloat64 (littleEndian : bool) : Read Z :=
  advancing 8 (if littleEndian then Buf.readUIntLE 8 else Buf.readUIntBE 8).

(** The loop of [readString]:
    [while (buffer[offset] !== 0x00 && offset < buffer.length) offset++],
    run over the octets from the cursor on. *)
Fixpoint scan (rest : list byte) (off : nat) : nat :=
  match rest with
  | [] => off
  | b :: rest' => if Byte.eqb b x00 then off else scan rest' (S off)
  end.

Definition readString : Read jsstring :=
  fun r =>
    let start := offset r in
    let end_ := scan (skipn start (buffer r)) start in
    Some (Buf.toString (buffer r) start end_, mkReader (buffer r) (S end_)).

Definition getOffset (r : BufferReader) : nat := offset r.

Definition setOffset (off : nat) : Read unit :=
  fun r => Some (tt, mkReader (buffer r) off).

Definition skip (bytes : nat) : Read unit :=
  fun r => Some (tt, mkReader (buffer r) (offset r + bytes)).

Definition subarray (r : BufferReader) (start end_ : nat) : Buffer :=
  Buf.subarray (buffer r) start end_.

(* ================================================================= *)
(** ** interfaces/source.interface.ts *)

Module ExtraData.
Record t := mk {
  port : option Z;
  steamID : option Z;
  tvPort : option Z;
  tvName : option jsstring;
  keywords : option jsstring;
  gameID : option Z
}.
End ExtraData.

Module Mod.
Record t := mk {
  link : jsstring;
  downloadLink : jsstring;
  version : Z;
  size : Z;
  type : Z;
  dll : Z
}.
End Mod.

Module ServerInfo.
Record t := mk {
  protocol : Z;
  name : jsstring;
  map : jsstring;
  folder : jsstring;
  game : jsstring;
  players : Z;
  maxPlayers : Z;
  bots : Z;
  serverType : jsstring;
  environment : jsstring;
  visibility : Z;
  vac : Z;
  id : option Z;
  version : option jsstring;
  extraData : option ExtraData.t;
  address : option jsstring;
  mod_ : option Mod.t
}.
End ServerInfo.

Module PlayerInfo.
Record t := mk {
  index : Z;
  name : jsstring;
  score : Z;
  duration : Z;
  deaths : option Z;
  money : option Z
}.
End PlayerInfo.

(** [Record<string, string>]: the own properties of the object, in the order
    they were created. *)
Definition Rules := list (jsstring * jsstring).

Definition jsstring_eqb (a b : jsstring) : bool :=
  if list_eq_dec Z.eq_dec a b then true else false.

Fixpoint assign (key value : jsstring) (o : Rules) : Rules :=
  match o with
  | [] => [(key, value)]
  | (k, v) :: rest =>
      if jsstring_eqb k key then (k, value) :: rest
      else (k, v) :: assign key value rest
  end.

(** [rules[key] = value].  On an object literal the key [__proto__] reaches the
    prototype setter, which ignores a string. *)
Definition rules_set (key value : jsstring) (o : Rules) : Rules :=
  if jsstring_eqb key (js "__proto__") then o else assign key value o.

(** What a query resolves to. *)
Inductive response :=
| Info (info : ServerInfo.t)
| Players (players : list PlayerInfo.t)
| RulesOf (rules : Rules).

(** The errors a query raises or rejects with. *)
Inductive error :=
| RequestTimedOut
| MaxRetriesReached
| InvalidResponseHeader
| UnknownResponseType
| ChecksumMismatch (expected actual : Z)
| BunzipError
| RangeError
| NotRunning
| SocketError (code : Z).

(* ================================================================= *)
(** ** source.ts: the response decoders *)

(** [String.fromCharCode(code)]. *)
Definition fromCharCode (code : Z) : jsstring := [code].

(** [flag & mask] as a condition. *)
Definition has_bit (flag mask : Z) : bool := negb (Z.land flag mask =? 0).

Definition when_ {A} (c : bool) (m : Read A) : Read (option A) :=
  if c then (let* a := m in ret (Some a)) else ret None.

Definition parseExtraData : Read ExtraData.t :=
  let* extraDataFlag := readUint8 in
  let* port := when_ (has_bit extraDataFlag 0x80) (readUint16 true) in
  let* steamID := when_ (has_bit extraDataFlag 0x10) (readBigUint64 true) in
  let* tv := when_ (has_bit extraDataFlag 0x40)
               (let* tvPort := readUint16 true in
                let* tvName := readString in
                ret (tvPort, tvName)) in
  let* keywords := when_ (has_bit extraDataFlag 0x20) readString in
  let* gameID := when_ (has_bit extraDataFlag 0x01) (readBigUint64 true) in
  ret (ExtraData.mk port steamID (option_map fst tv) (option_map snd tv)
                    keywords gameID).

Definition parseInfoResponse : Read ServerInfo.t :=
  let* protocol := readUint8 in
  let* name := readString in
  let* map := readString in
  let* folder := readString in
  let* game := readString in
  let* id := readUint16 true in
  let* players := readUint8 in
  let* maxPlayers := readUint8 in
  let* bots := readUint8 in
  let* serverType := readUint8 in
  let* environment := readUint8 in
  let* visibility := readUint8 in
  let* vac := readUint8 in
  let* version := readString in
  fun reader =>
    (let* extraData :=
       when_ (Nat.ltb (getOffset reader) (byteLength reader)) parseExtraData in
     ret (ServerInfo.mk protocol name map folder game players maxPlayers bots
            (fromCharCode serverType) (fromCharCode environment)
            visibility vac (Some id) (Some version) extraData None None))
      reader.

Definition parseMod : Read Mod.t :=
  let* link := readString in
  let* downloadLink := readString in
  let* _ := skip 1 in
  let* version := readUint32 true in
  let* size := readUint32 true in
  let* type := readUint8 in
  let* dll := readUint8 in
  ret (Mod.mk link downloadLink version size type dll).

Definition parseInfoObsoleteResponse : Read ServerInfo.t :=
  let* address := readString in
  let* name := readString in
  let* map := readString in
  let* folder := readString in
  let* game := readString in
  let* players := readUint8 in
  let* maxPlayers := readUint8 in
  let* protocol := readUint8 in
  let* serverType := readUint8 in
  let* environment := readUint8 in
  let* visibility := readUint8 in
  let* isMod := readUint8 in
  let* mod_ := when_ (isMod =? 1) parseMod in
  let* vac := readUint8 in
  let* bots := readUint8 in
  ret (ServerInfo.mk protocol name map folder game players maxPlayers bots
         (fromCharCode serverType) (fromCharCode environment)
         visibility vac None None None (Some address) mod_).

(** The first loop of [parsePlayerResponse]. *)
Fixpoint readPlayers (count : nat) : Read (list PlayerInfo.t) :=
  match count with
  | O => ret []
  | S count' =>
      let* index := readUint8 in
      let* name := readString in
      let* score := readUint32 true in
      let* duration := readFloat32 true in
      let* rest := readPlayers count' in
      ret (PlayerInfo.mk index name score duration None None :: rest)
  end.

(** Its second loop, over the players read by the first. *)
Fixpoint readTheShip (players : list PlayerInfo.t) : Read (list PlayerInfo.t) :=
  match players with
  | [] => ret []
  | p :: rest =>
      let* deaths := readUint32 true in
      let* money := readUint32 true in
      let* rest' := readTheShip rest in
      ret (PlayerInfo.mk (PlayerInfo.index p) (PlayerInfo.name p)
             (PlayerInfo.score p) (PlayerInfo.duration p)
             (Some deaths) (Some money) :: rest')
  end.

Definition parsePlayerResponse : Read (list PlayerInfo.t) :=
  let* playerCount := readUint8 in
  let* players := readPlayers (Z.to_nat playerCount) in
  fun reader =>
    if Nat.ltb (getOffset reader) (byteLength reader)
    then readTheShip players reader
    else ret players reader.

Fixpoint readRules (count : nat) (rules : Rules) : Read Rules :=
  match count with
  | O => ret rules
  | S count' =>
      let* key := readString in
      let* value := readString in
      readRules count' (rules_set key value rules)
  end.

Definition parseRulesResponse : Read Rules :=
  let* ruleCount := readUint16 true in
  readRules (Z.to_nat ruleCount) [].

(** [parseResponse]: the discriminator at offset 4 selects the decoder. *)
Definition parseResponse (payload : Buffer) : error + response :=
  match readInt8 (mkReader payload 4) with
  | None => inl RangeError
  | Some (header, reader) =>
      let decoded {A} (wrap : A -> response) (parse : Read A) : error + response :=
        match parse reader with
        | Some (a, _) => inr (wrap a)
        | None => inl RangeError
        end in
      if header =? 0x49 then decoded Info parseInfoResponse
      else if header =? 0x6D then decoded Info parseInfoObsoleteResponse
      else if header =? 0x44 then decoded Players parsePlayerResponse
      else if header =? 0x45 then decoded RulesOf parseRulesResponse
      else inl UnknownResponseType
  end.

(* ================================================================= *)
(** ** source.ts: the state of one call of [Source.get] *)

(** The lines of the debug trace ([console.log("[DEBUG] ...")]) of [get].  The
    trace is kept whatever the [debug] option says: it is how the properties
    below observe what a handler did. *)
Inductive trace_line :=
| Send (request : Buffer)
| Recv (message : Buffer)
| PacketReload
| ObsoleteGoldSourceDetected
| BelowOrangeBoxDetected
| CompressionDetected
| TotalPackets (totalPackets : Z)
| Payload (assembledPayload : Buffer)
| PayloadDecompressed (assembledPayload : Buffer).

(** The promise returned to the caller. *)
Inductive settlement :=
| Pending
| Resolved (data : response)
| Rejected (err : error).

(** The variables that the closures of [get] share, the promise, the socket
    ([closed], and the datagrams handed to [socket.send]) and the trace.
    [packets] is the object [Record<string, Buffer>]: its keys are packet
    numbers, which JavaScript enumerates in ascending order. *)
Record state := mkState {
  retryCount : nat;
  packets : list (Z * Buffer);
  isCompressed : bool;
  crc32CheckSum : Z;
  goldSource : bool;
  orangeBox : bool;
  promise : settlement;
  closed : bool;
  sent : list Buffer;
  trace : list trace_line
}.

Definition with_retryCount (v : nat) (st : state) : state :=
  mkState v (packets st) (isCompressed st) (crc32CheckSum st) (goldSource st)
    (orangeBox st) (promise st) (closed st) (sent st) (trace st).

Definition with_packets (v : list (Z * Buffer)) (st : state) : state :=
  mkState (retryCount st) v (isCompressed st) (crc32CheckSum st) (goldSource st)
    (orangeBox st) (promise st) (closed st) (sent st) (trace st).

Definition with_isCompressed (v : bool) (st : state) : state :=
  mkState (retryCount st) (packets st) v (crc32CheckSum st) (goldSource st)
    (orangeBox st) (promise st) (closed st) (sent st) (trace st).

Definition with_crc32CheckSum (v : Z) (st : state) : state :=
  mkState (retryCount st) (packets st) (isCompressed st) v (goldSource st)
    (orangeBox st) (promise st) (closed st) (sent st) (trace st).

Definition with_goldSource (v : bool) (st : state) : state :=
  mkState (retryCount st) (packets st) (isCompressed st) (crc32CheckSum st) v
    (orangeBox st) (promise st) (closed st) (sent st) (trace st).

Definition with_orangeBox (v : bool) (st : state) : state :=
  mkState (retryCount st) (packets st) (isCompressed st) (crc32CheckSum st)
    (goldSource st) v (promise st) (closed st) (sent st) (trace st).

Definition with_promise (v : settlement) (st : state) : state :=
  mkState (retryCount st) (packets st) (isCompressed st) (crc32CheckSum st)
    (goldSource st) (orangeBox st) v (closed st) (sent st) (trace st).

Definition with_closed (v : bool) (st : state) : state :=
  mkState (retryCount st) (packets st) (isCompressed st) (crc32CheckSum st)
    (goldSource st) (orangeBox st) (promise st) v (sent st) (trace st).

Definition with_sent (v : list Buffer) (st : state) : state :=
  mkState (retryCount st) (packets st) (isCompressed st) (crc32CheckSum st)
    (goldSource st) (orangeBox st) (promise st) (closed st) v (trace st).

(** [if (this.debug) console.log(...)]. *)
Definition log (line : trace_line) (st : state) : state :=
  mkState (retryCount st) (packets st) (isCompressed st) (crc32CheckSum st)
    (goldSource st) (orangeBox st) (promise st) (closed st) (sent st)
    (trace st ++ [line]).

(** How a handler ends: it returns, or raises an error that nothing in [get]
    catches, or (in this embedding only) runs out of fuel. *)
Inductive completion :=
| Returns (st : state)
| Throws (err : error) (st : state)
| OutOfFuel.

(** [resolve(data)] and [reject(err)] settle a pending promise and do nothing
    to a settled one. *)
Definition resolve (data : response) (st : state) : state :=
  match promise st with
  | Pending => with_promise (Resolved data) st
  | _ => st
  end.

Definition reject (err : error) (st : state) : state :=
  match promise st with
  | Pending => with_promise (Rejected err) st
  | _ => st
  end.

(** [socket.close()] and [socket.send(...)]: on a socket already closed Node's
    dgram raises [ERR_SOCKET_DGRAM_NOT_RUNNING]. *)
Definition socket_close (st : state) : completion :=
  if closed st then Throws NotRunning st else Returns (with_closed true st).

Definition socket_send (request : Buffer) (st : state) : completion :=
  if closed st then Throws NotRunning st
  else Returns (with_sent (sent st ++ [request]) st).

(** The object [packets]. *)
Fixpoint packets_set (key : Z) (value : Buffer) (o : list (Z * Buffer))
  : list (Z * Buffer) :=
  match o with
  | [] => [(key, value)]
  | (k, v) :: rest =>
      if key =? k then (key, value) :: rest
      else if key <? k then (key, value) :: (k, v) :: rest
      else (k, v) :: packets_set key value rest
  end.

Definition Object_keys (o : list (Z * Buffer)) : list Z := map fst o.
Definition Object_values (o : list (Z * Buffer)) : list Buffer := map snd o.
Definition Object_entries (o : list (Z * Buffer)) : list (Z * Buffer) := o.

(** [entries.sort(([keyA], [keyB]) => Number(keyA) - Number(keyB))]. *)
Fixpoint insert_entry (e : Z * Buffer) (l : list (Z * Buffer)) : list (Z * Buffer) :=
  match l with
  | [] => [e]
  | e' :: rest =>
      if fst e <? fst e' then e :: e' :: rest else e' :: insert_entry e rest
  end.

Definition sort_entries (l : list (Z * Buffer)) : list (Z * Buffer) :=
  fold_right insert_entry [] l.

(** [for (const message of entries) onMessage(message)]. *)
Fixpoint forEach (body : Buffer -> state -> completion) (entries : list Buffer)
  (st : state) : completion :=
  match entries with
  | [] => Returns st
  | message :: rest =>
      match body message st with
      | Returns st' => forEach body rest st'
      | stopped => stopped
      end
  end.

(** [Buffer.from([...])] stores each number modulo 256. *)
Definition octet (v : Z) : byte :=
  match Byte.of_N (Z.to_N (v mod 256)) with
  | Some b => b
  | None => x00
  end.

Definition A2S_CHALLENGE_RESPONSE_HEADER : Z := 0x41.
Definition A2S_MULTI_PACKET_HEADER : Z := -2.
Definition A2S_SINGLE_PACKET_HEADER : Z := -1.
Definition firstPacketPayloadHeader : Buffer := [xff; xff; xff; xff].
Definition maxRetries : nat := 2.

(** The state in which [get] makes its first [sendRequest()]. *)
Definition fresh : state :=
  mkState 0 [] false 0 false true Pending false [] [].

(* ================================================================= *)
(** ** Instances for the closed examples *)

(** CRC-32 as the package [crc-32] computes it ([buf] returns a signed 32-bit
    number). *)
Fixpoint crc_shift (n : nat) (crc : Z) : Z :=
  match n with
  | O => crc
  | S n' =>
      crc_shift n' (Z.lxor (Z.shiftr crc 1) (if Z.odd crc then 0xEDB88320 else 0))
  end.

Definition crc32 (buf : Buffer) : Z :=
  signed 32
    (Z.lxor
       (fold_left (fun crc b => crc_shift 8 (Z.lxor crc (u8 b))) buf 0xFFFFFFFF)
       0xFFFFFFFF).

(* ================================================================= *)
(** ** Notions used by the statements about the reader *)

(** A reader that has consumed [read] and has [rest] before it. *)
Definition cursor (read rest : list byte) : BufferReader :=
  mkReader (read ++ rest) (length read).

(** A string on the wire: its octets, then the terminator. *)
Definition cstring (s : list byte) : Buffer := s ++ [x00].

Definition nonzero (b : byte) : Prop := b <> x00.

(** The octets of a current-dialect info payload naming the server
    "Test Server" on map "de_dust2" with 5 of 10 players, no bots, type 'd' and
    environment 'l'; the other fields are free. *)
Definition test_server_payload (protocol : byte) (folder game : list byte)
  (id_lo id_hi visibility vac : byte) (version : list byte) : Buffer :=
  [xff; xff; xff; xff; x49; protocol]
    ++ cstring (list_byte_of_string "Test Server")
    ++ cstring (list_byte_of_string "de_dust2")
    ++ cstring folder ++ cstring game
    ++ [id_lo; id_hi; x05; x0a; x00; x64; x6c; visibility; vac]
    ++ cstring version.


(** A fixed-width read of [n] octets whose values lie in [lo, hi): where [n]
    octets are left from the cursor on it returns one of them and moves the
    cursor by [n] over the same buffer, and elsewhere it raises. *)
Definition fixed_width (n : nat) (lo hi : Z) (m : Read Z) : Prop :=
  forall r,
    match m r with
    | Some (v, r') =>
        (offset r + n <= length (buffer r))%nat
        /\ r' = mkReader (buffer r) (offset r + n)
        /\ lo <= v < hi
    | None => (length (buffer r) < offset r + n)%nat
    end.

(** An octet of a string of ASCII characters. *)
Definition ascii_octet (b : byte) : Prop := 0 < u8 b < 128.

(** Two readers that are at the same offset of buffers of the same length
    and have the same octets from the cursor on. *)
Definition same_ahead (r1 r2 : BufferReader) : Prop :=
  offset r1 = offset r2
  /\ length (buffer r1) = length (buffer r2)
  /\ skipn (offset r1) (buffer r1) = skipn (offset r2) (buffer r2).

(** A read that looks at nothing but the octets ahead of the cursor: on two
    such readers it returns the same value, or raises on both. *)
Definition looks_ahead {A} (m : Read A) : Prop :=
  forall r1 r2,
    same_ahead r1 r2 ->
    match m r1, m r2 with
    | Some (a1, r1'), Some (a2, r2') => a1 = a2 /\ same_ahead r1' r2'
    | None, None => True
    | _, _ => False
    end.

(** The value of the own property [key] of a rules object, if it has one. *)
Definition own_property (key : jsstring) (o : Rules) : option jsstring :=
  option_map snd (find (fun kv => jsstring_eqb (fst kv) key) o).

(** A rule on the wire, its name and its value being strings with their
    terminators, and a list of rules. *)
Definition rule_octets (rule : list byte * list byte) : Buffer :=
  cstring (fst rule) ++ cstring (snd rule).

Definition rules_octets (rules : list (list byte * list byte)) : Buffer :=
  List.concat (List.map rule_octets rules).

Definition rule_decoded (rule : list byte * list byte) : jsstring * jsstring :=
  (utf8_decode (fst rule), utf8_decode (snd rule)).

(** Neither the name nor the value holds a zero octet. *)
Definition rule_on_wire (rule : list byte * list byte) : Prop :=
  Forall nonzero (fst rule) /\ Forall nonzero (snd rule).

(** The rules object once the rules have been assigned to it one after the
    other. *)
Definition rules_assigned (rules : list (list byte * list byte)) (o : Rules)
  : Rules :=
  fold_left (fun o rule => rules_set (fst (rule_decoded rule))
                             (snd (rule_decoded rule)) o)
            rules o.

(** What a rules object keeps through the assignments of the decoder: no
    name twice, and never the name [__proto__]. *)
Definition rules_kept (o : Rules) : Prop :=
  NoDup (List.map fst o) /\ ~ In (js "__proto__") (List.map fst o).

(** A player on the wire: the index, the name with its terminator, the score
    and the duration on four octets each. *)
Record wire_player := mkWirePlayer {
  wire_index : byte;
  wire_name : list byte;
  wire_score : list byte;
  wire_duration : list byte
}.

Definition player_octets (p : wire_player) : Buffer :=
  [wire_index p] ++ cstring (wire_name p) ++ wire_score p ++ wire_duration p.

Definition players_octets (players : list wire_player) : Buffer :=
  List.concat (List.map player_octets players).

Definition player_on_wire (p : wire_player) : Prop :=
  Forall nonzero (wire_name p)
  /\ length (wire_score p) = 4%nat /\ length (wire_duration p) = 4%nat.

(** What The Ship adds for a player: the deaths and the money, on four octets
    each. *)
Definition ship_octets (s : list byte * list byte) : Buffer := fst s ++ snd s.

Definition ships_octets (ship : list (list byte * list byte)) : Buffer :=
  List.concat (List.map ship_octets ship).

Definition ship_on_wire (s : list byte * list byte) : Prop :=
  length (fst s) = 4%nat /\ length (snd s) = 4%nat.

(** The player these octets stand for; the duration is the bit pattern of the
    number, as [readFloat32] is modelled. *)
Definition player_decoded (p : wire_player)
  (ship : option (list byte * list byte)) : PlayerInfo.t :=
  PlayerInfo.mk (u8 (wire_index p)) (utf8_decode (wire_name p))
    (le_value (wire_score p)) (le_value (wire_duration p))
    (option_map (fun s => le_value (fst s)) ship)
    (option_map (fun s => le_value (snd s)) ship).

Fixpoint players_decoded (players : list wire_player)
  (ship : list (list byte * list byte)) : list PlayerInfo.t :=
  match players with
  | [] => []
  | p :: players' =>
      player_decoded p (hd_error ship) :: players_decoded players' (tl ship)
  end.

(** Optional fields on the wire. *)
Definition is_some {A} (o : option A) : bool :=
  match o with Some _ => true | None => false end.

Definition optional_octets {W} (octets : W -> Buffer) (o : option W) : Buffer :=
  match o with Some w => octets w | None => [] end.

Definition holds {W} (P : W -> Prop) (o : option W) : Prop :=
  match o with Some w => P w | None => True end.

(** The optional fields of an info response, as octets: the port on two, the
    SteamID on eight, the port of SourceTV on two and its name, the
    keywords, the GameID on eight. *)
Record wire_extra := mkWireExtra {
  wire_port : option (list byte);
  wire_steamID : option (list byte);
  wire_tv : option (list byte * list byte);
  wire_keywords : option (list byte);
  wire_gameID : option (list byte)
}.

(** The bits of the flag that announce these fields. *)
Definition extra_flag (e : wire_extra) : Z :=
  (if is_some (wire_port e) then 0x80 else 0)
  + (if is_some (wire_steamID e) then 0x10 else 0)
  + (if is_some (wire_tv e) then 0x40 else 0)
  + (if is_some (wire_keywords e) then 0x20 else 0)
  + (if is_some (wire_gameID e) then 0x01 else 0).

Definition tv_octets (tv : list byte * list byte) : Buffer :=
  fst tv ++ cstring (snd tv).

Definition extra_octets (flag : byte) (e : wire_extra) : Buffer :=
  [flag]
    ++ optional_octets (fun bs => bs) (wire_port e)
    ++ optional_octets (fun bs => bs) (wire_steamID e)
    ++ optional_octets tv_octets (wire_tv e)
    ++ optional_octets cstring (wire_keywords e)
    ++ optional_octets (fun bs => bs) (wire_gameID e).

Definition extra_on_wire (e : wire_extra) : Prop :=
  holds (fun bs => length bs = 2%nat) (wire_port e)
  /\ holds (fun bs => length bs = 8%nat) (wire_steamID e)
  /\ holds (fun tv => length (fst tv) = 2%nat /\ Forall nonzero (snd tv))
           (wire_tv e)
  /\ holds (Forall nonzero) (wire_keywords e)
  /\ holds (fun bs => length bs = 8%nat) (wire_gameID e).

Definition extra_decoded (e : wire_extra) : ExtraData.t :=
  ExtraData.mk
    (option_map le_value (wire_port e))
    (option_map le_value (wire_steamID e))
    (option_map (fun tv => le_value (fst tv)) (wire_tv e))
    (option_map (fun tv => utf8_decode (snd tv)) (wire_tv e))
    (option_map utf8_decode (wire_keywords e))
    (option_map le_value (wire_gameID e)).

(** The fields that every info response of a Source server has. *)
Record wire_info := mkWireInfo {
  info_protocol : byte;
  info_name : list byte;
  info_map : list byte;
  info_folder : list byte;
  info_game : list byte;
  info_id : list byte;
  info_players : byte;
  info_maxPlayers : byte;
  info_bots : byte;
  info_serverType : byte;
  info_environment : byte;
  info_visibility : byte;
  info_vac : byte;
  info_version : list byte
}.

Definition info_octets (i : wire_info) : Buffer :=
  [info_protocol i]
    ++ cstring (info_name i) ++ cstring (info_map i)
    ++ cstring (info_folder i) ++ cstring (info_game i)
    ++ info_id i
    ++ [info_players i; info_maxPlayers i; info_bots i; info_serverType i;
        info_environment i; info_visibility i; info_vac i]
    ++ cstring (info_version i).

Definition info_on_wire (i : wire_info) : Prop :=
  Forall nonzero (info_name i) /\ Forall nonzero (info_map i)
  /\ Forall nonzero (info_folder i) /\ Forall nonzero (info_game i)
  /\ length (info_id i) = 2%nat /\ Forall nonzero (info_version i).

Definition info_decoded (i : wire_info) (extraData : option ExtraData.t)
  : ServerInfo.t :=
  ServerInfo.mk (u8 (info_protocol i))
    (utf8_decode (info_name i)) (utf8_decode (info_map i))
    (utf8_decode (info_folder i)) (utf8_decode (info_game i))
    (u8 (info_players i)) (u8 (info_maxPlayers i)) (u8 (info_bots i))
    [u8 (info_serverType i)] [u8 (info_environment i)]
    (u8 (info_visibility i)) (u8 (info_vac i))
    (Some (le_value (info_id i))) (Some (utf8_decode (info_version i)))
    extraData None None.

(** The mod of an obsolete GoldSource info response: two links, an octet
    that is skipped, the version and the size on four octets each, the type
    and the DLL octet. *)
Record wire_mod := mkWireMod {
  mod_link : list byte;
  mod_downloadLink : list byte;
  mod_null : byte;
  mod_version : list byte;
  mod_size : list byte;
  mod_type : byte;
  mod_dll : byte
}.

Definition mod_octets (m : wire_mod) : Buffer :=
  cstring (mod_link m) ++ cstring (mod_downloadLink m)
    ++ [mod_null m] ++ mod_version m ++ mod_size m ++ [mod_type m; mod_dll m].

Definition mod_on_wire (m : wire_mod) : Prop :=
  Forall nonzero (mod_link m) /\ Forall nonzero (mod_downloadLink m)
  /\ length (mod_version m) = 4%nat /\ length (mod_size m) = 4%nat.

Definition mod_decoded (m : wire_mod) : Mod.t :=
  Mod.mk (utf8_decode (mod_link m)) (utf8_decode (mod_downloadLink m))
    (le_value (mod_version m)) (le_value (mod_size m))
    (u8 (mod_type m)) (u8 (mod_dll m)).

(** An obsolete GoldSource info response. *)
Record wire_obsolete := mkWireObsolete {
  obsolete_address : list byte;
  obsolete_name : list byte;
  obsolete_map : list byte;
  obsolete_folder : list byte;
  obsolete_game : list byte;
  obsolete_players : byte;
  obsolete_maxPlayers : byte;
  obsolete_protocol : byte;
  obsolete_serverType : byte;
  obsolete_environment : byte;
  obsolete_visibility : byte;
  obsolete_isMod : byte;
  obsolete_mod : option wire_mod;
  obsolete_vac : byte;
  obsolete_bots : byte
}.

Definition obsolete_octets (o : wire_obsolete) : Buffer :=
  cstring (obsolete_address o) ++ cstring (obsolete_name o)
    ++ cstring (obsolete_map o) ++ cstring (obsolete_folder o)
    ++ cstring (obsolete_game o)
    ++ [obsolete_players o; obsolete_maxPlayers o; obsolete_protocol o;
        obsolete_serverType o; obsolete_environment o; obsolete_visibility o;
        obsolete_isMod o]
    ++ optional_octets mod_octets (obsolete_mod o)
    ++ [obsolete_vac o; obsolete_bots o].

(** The mod is there when the octet before it is 1, and only then. *)
Definition obsolete_on_wire (o : wire_obsolete) : Prop :=
  Forall nonzero (obsolete_address o) /\ Forall nonzero (obsolete_name o)
  /\ Forall nonzero (obsolete_map o) /\ Forall nonzero (obsolete_folder o)
  /\ Forall nonzero (obsolete_game o)
  /\ is_some (obsolete_mod o) = (u8 (obsolete_isMod o) =? 1)
  /\ holds mod_on_wire (obsolete_mod o).

Definition obsolete_decoded (o : wire_obsolete) : ServerInfo.t :=
  ServerInfo.mk (u8 (obsolete_protocol o))
    (utf8_decode (obsolete_name o)) (utf8_decode (obsolete_map o))
    (utf8_decode (obsolete_folder o)) (utf8_decode (obsolete_game o))
    (u8 (obsolete_players o)) (u8 (obsolete_maxPlayers o))
    (u8 (obsolete_bots o))
    [u8 (obsolete_serverType o)] [u8 (obsolete_environment o)]
    (u8 (obsolete_visibility o)) (u8 (obsolete_vac o))
    None None None (Some (utf8_decode (obsolete_address o)))
    (option_map mod_decoded (obsolete_mod o)).
(* ================================================================= *)
(** ** Datagrams for the closed examples *)

Module Sample.

(** [v] on [n] octets, least significant first. *)
Fixpoint le_octets (n : nat) (v : Z) : Buffer :=
  match n with
  | O => []
  | S n' => octet v :: le_octets n' (Z.shiftr v 8)
  end.

(** The state of a call once [get] has sent its first request. *)
Definition started (request : Buffer) : state :=
  mkState 0 [] false 0 false true Pending false [request] [Send request].

Definition info_request : Buffer :=
  [xff; xff; xff; xff; x54] ++ list_byte_of_string "Source Engine Query" ++ [x00].
Definition players_request : Buffer :=
  [xff; xff; xff; xff; x55; xff; xff; xff; xff].
Definition rules_request : Buffer :=
  [xff; xff; xff; xff; x56; xff; xff; xff; xff].

(** A challenge with the token 01 02 03 04. *)
Definition challenge : Buffer :=
  [xff; xff; xff; xff; x41; x01; x02; x03; x04].

(** A single packet with the discriminator 0x00, which no decoder takes. *)
Definition unknown : Buffer := [xff; xff; xff; xff; x00].

(** A rule list of two rules. *)
Definition rules : Buffer :=
  [xff; xff; xff; xff; x45; x02; x00]
    ++ cstring (list_byte_of_string "sv_gravity")
    ++ cstring (list_byte_of_string "800")
    ++ cstring (list_byte_of_string "mp_timelimit")
    ++ cstring (list_byte_of_string "30").

Definition rules_decoded : response :=
  RulesOf [(js "sv_gravity", js "800"); (js "mp_timelimit", js "30")].

(** A packet of a multi-packet response of a Source server, with the
    maximum-size field (1248): response 1, not compressed. *)
Definition packet (total number : byte) (payload : Buffer) : Buffer :=
  [xfe; xff; xff; xff; x01; x00; x00; x00; total; number; xe0; x04] ++ payload.

(** The rule list in three packets. *)
Definition third0 : Buffer := packet x03 x00 (firstn 12 rules).
Definition third1 : Buffer := packet x03 x01 (firstn 12 (skipn 12 rules)).
Definition third2 : Buffer := packet x03 x02 (skipn 24 rules).

(** Two packets that disagree on the total: the first declares 2 packets,
    the second 1. *)
Definition of_two : Buffer := packet x02 x00 (firstn 12 rules).
Definition of_one : Buffer := packet x01 x01 (skipn 12 rules).

(** A packet of a multi-packet response whose identifier is 0x00000041. *)
Definition response_0x41 : Buffer :=
  [xfe; xff; xff; xff; x41; x00; x00; x00; x02; x00; xe0; x04]
    ++ firstn 12 rules.

(** The rule list compressed: the 78 octets that bzip2 writes for [rules]
    (block size 9). *)
Definition rules_bz2 : Buffer :=
  [x42; x5a; x68; x39; x31; x41; x59; x26; x53; x59; xe4; x1e; x1e; x01; x00; x00;
   x13; x4f; x80; xd0; x00; x48; x40; x02; x00; x00; x00; xa2; xa6; x5d; x20; x00;
   x00; xa0; x00; x22; x9a; x68; xd3; xd4; x00; xf4; x85; x30; x9a; x68; x0d; x31;
   x3a; x5e; x94; x40; x95; x02; x2f; xe2; x75; xa2; xad; xd3; x0b; x4c; xc9; x42;
   x3b; xdc; xc5; xbe; x2e; xe4; x8a; x70; xa1; x21; xc8; x3c; x3c; x02].

(** [Bunzip.decode] of [seek-bzip] where the closed examples call it: it turns
    [rules_bz2] back into the rule list, and it raises on the other buffers
    that the examples hand to it, none of which starts with the magic "BZh"
    of a bzip2 stream. *)
Definition Bunzip_decode (stream : Buffer) : option Buffer :=
  if Buf.equals stream rules_bz2 then Some rules else None.

(** The rule list as a compressed response in one packet, with the
    maximum-size field and the given checksum. *)
Definition compressed_packet (crc : Z) : Buffer :=
  [xfe; xff; xff; xff; x01; x00; x00; x80; x01; x00; xe0; x04]
    ++ le_octets 4 (Z.of_nat (length rules)) ++ le_octets 4 crc
    ++ rules_bz2.

(** The same packet with, as its checksum, the CRC-32 of the compressed
    octets as they are sent. *)
Definition wrong_checksum : Buffer := compressed_packet (crc32 rules_bz2).

(** The rule list as a compressed response in two packets without the
    maximum-size field. *)
Definition old_first : Buffer :=
  [xfe; xff; xff; xff; x01; x00; x00; x80; x02; x00]
    ++ le_octets 4 (Z.of_nat (length rules)) ++ le_octets 4 (crc32 rules)
    ++ firstn 40 rules_bz2.
Definition old_second : Buffer :=
  [xfe; xff; xff; xff; x01; x00; x00; x80; x02; x01] ++ skipn 40 rules_bz2.

(** The rule list sent as it is in a packet that says it is compressed: the
    payload is no bzip2 stream. *)
Definition not_bzip2 : Buffer :=
  [xfe; xff; xff; xff; x01; x00; x00; x80; x01; x00; xe0; x04]
    ++ le_octets 4 (Z.of_nat (length rules)) ++ le_octets 4 (crc32 rules)
    ++ rules.

(** The rule list as a GoldSource response in three packets, of 9, 15 and 14
    octets: the second and the third start with the same octet ("_"). *)
Definition gold (packetByte : byte) (payload : Buffer) : Buffer :=
  [xfe; xff; xff; xff; x01; x00; x00; x00; packetByte] ++ payload.
Definition gold0 : Buffer := gold x03 (firstn 9 rules).
Definition gold1 : Buffer := gold x13 (firstn 15 (skipn 9 rules)).
Definition gold2 : Buffer := gold x23 (skipn 24 rules).

(** Two datagrams that the Source framing reads as packet 1 of 17 and packet
    2 of 18, and the GoldSource framing as packet 1 of 1 and packet 1 of 2. *)
Definition stray1 : Buffer := packet x11 x01 (firstn 12 (skipn 12 rules)).
Definition stray2 : Buffer := packet x12 x02 (skipn 24 rules).

(** A packet that declares itself the second of five of a compressed
    response. *)
Definition one_of_five : Buffer :=
  [xfe; xff; xff; xff; x01; x00; x00; x80; x05; x01] ++ skipn 40 rules_bz2.

(** Two packets of a GoldSource response: the second of two, then the
    first. *)
Definition gold_second : Buffer :=
  [xfe; xff; xff; xff; x01; x00; x00; x00; x12] ++ skipn 15 rules.
Definition gold_first : Buffer :=
  [xfe; xff; xff; xff; x01; x00; x00; x00; x02] ++ firstn 15 rules.

End Sample.

(* ================================================================= *)
(** ** source.ts: [Source.get] *)

Section Get.

(** The two packages [get] calls: [Bunzip.decode] of [seek-bzip], which raises
    on a stream it cannot decode ([None]), and [crc32.buf] of [crc-32]. *)
Variable Bunzip_decode : Buffer -> option Buffer.
Variable crc32_buf : Buffer -> Z.

(** The request header that [getInfo] (0x54), [getPlayers] (0x55) and
    [getRules] (0x56) pass to [get]. *)
Variable header : Z.

Definition sendRequest (challenge : option Buffer) (st : state) : completion :=
  let request := map octet [0xFF; 0xFF; 0xFF; 0xFF; header] in
  let request :=
    if header =? 0x54
    then request ++ map octet [0x53; 0x6F; 0x75; 0x72; 0x63; 0x65; 0x20; 0x45;
                               0x6E; 0x67; 0x69; 0x6E; 0x65; 0x20; 0x51; 0x75;
                               0x65; 0x72; 0x79; 0x00]
    else request in
  let request :=
    match challenge with
    | Some challenge => request ++ challenge
    | None =>
        if negb (header =? 0x54)
        then request ++ map octet [0xFF; 0xFF; 0xFF; 0xFF]
        else request
    end in
  socket_send request (log (Send request) st).

(** [resolve(parseResponse(payload)); socket.close();] *)
Definition dispatch (payload : Buffer) (st : state) : completion :=
  match parseResponse payload with
  | inl err => Throws err st
  | inr data => socket_close (resolve data st)
  end.

(** [reload], over the handler it calls back. *)
Definition reload (onMessage : Buffer -> state -> completion)
  (message : option Buffer) (st : state) : completion :=
  let st := log PacketReload st in
  let entries := Object_values (packets st) in
  let st := with_packets [] st in
  let entries :=
    match message with
    | Some message => entries ++ [message]
    | None => entries
    end in
  forEach onMessage entries st.

(** The callback of [sortedPackets]: the payload of a buffered packet, the
    bytes that follow its header. *)
Definition payloadOf (st : state) (entry : Z * Buffer) : Buffer :=
  let (id, packet) := entry in
  if goldSource st then Buf.subarray_from packet 9
  else
    let start :=
      (10 + (if orangeBox st then 2 else 0)
       + (if (id =? 0)%Z && isCompressed st then 8 else 0))%nat in
    Buf.subarray_from packet start.

(** The payloads of the buffered packets, in the order of their numbers. *)
Definition sortedPackets (st : state) : list Buffer :=
  map (payloadOf st) (sort_entries (Object_entries (packets st))).

(** The block run once all packets have been received. *)
Definition reassemble (reload : option Buffer -> state -> completion)
  (st : state) : completion :=
  let assembledPayload := Buf.concat (sortedPackets st) in
  let st := log (Payload assembledPayload) st in
  if isCompressed st then
    match Bunzip_decode assembledPayload with
    | None =>
        if negb (orangeBox st) then Throws BunzipError st
        else reload None (with_orangeBox false (log BelowOrangeBoxDetected st))
    | Some assembledPayload =>
        let st := log (PayloadDecompressed assembledPayload) st in
        let actualChecksum := crc32_buf assembledPayload in
        if negb (actualChecksum =? crc32CheckSum st)
        then Throws (ChecksumMismatch (crc32CheckSum st) actualChecksum) st
        else dispatch assembledPayload st
    end
  else dispatch assembledPayload st.

(** [packets[packetNumber] = message], then the test for completeness. *)
Definition store (reload : option Buffer -> state -> completion)
  (message : Buffer) (totalPackets packetNumber : Z) (st : state) : completion :=
  let st := if packetNumber =? 0 then log (TotalPackets totalPackets) st else st in
  let st := with_packets (packets_set packetNumber message (packets st)) st in
  if Z.of_nat (length (Object_keys (packets st))) =? totalPackets
  then reassemble reload st
  else Returns st.

(** [onMessage].  It calls itself through [reload]; [fuel] bounds the depth of
    these calls ([onMessage_fuel] below: three levels always suffice). *)
Fixpoint onMessage (fuel : nat) (message : Buffer) (st : state) : completion :=
  match fuel with
  | O => OutOfFuel
  | S fuel' =>
    let reload := reload (onMessage fuel') in
    let st := log (Recv message) st in
    match readInt32 true (mkReader message 0) with
    | None => Throws RangeError st
    | Some (header, reader) =>
      if match Buf.get (subarray reader 4 5) 0 with
         | Some b => u8 b =? A2S_CHALLENGE_RESPONSE_HEADER
         | None => false
         end
      then
        let challenge := Buf.subarray message 5 9 in
        if Nat.ltb (retryCount st) maxRetries
        then sendRequest (Some challenge) (with_retryCount (S (retryCount st)) st)
        else socket_close (reject MaxRetriesReached st)
      else if header =? A2S_SINGLE_PACKET_HEADER then
        dispatch message st
      else if header =? A2S_MULTI_PACKET_HEADER then
        match readInt32 true reader with
        | None => Throws RangeError st
        | Some (id, reader) =>
          let st :=
            with_isCompressed
              (negb (Z.land (ToInt32 id) (ToInt32 0x80000000) =? 0)) st in
          if negb (goldSource st)
             && Buf.equals (Buf.subarray message 9 (9 + 4)) firstPacketPayloadHeader
          then
            reload (Some message)
              (with_goldSource true (log ObsoleteGoldSourceDetected st))
          else if goldSource st then
            match readUint8 reader with
            | None => Throws RangeError st
            | Some (packetByte, reader) =>
              let packetNumber := Z.land (Z.shiftr packetByte 4) 0x0F in
              let totalPackets := Z.land packetByte 0x0F in
              store reload message totalPackets packetNumber st
            end
          else
            match readUint8 reader with
            | None => Throws RangeError st
            | Some (totalPackets, reader) =>
            match readUint8 reader with
            | None => Throws RangeError st
            | Some (packetNumber, reader) =>
              let start := if isCompressed st then 18%nat else 10%nat in
              if orangeBox st && (packetNumber =? 0)
                 && Buf.equals (Buf.subarray message start (start + 4))
                      firstPacketPayloadHeader
              then
                reload (Some message)
                  (with_orangeBox false (log BelowOrangeBoxDetected st))
              else
                match (if orangeBox st
                       then option_map snd (readUint16 true reader)
                       else Some reader) with
                | None => Throws RangeError st
                | Some reader =>
                  if (packetNumber =? 0) && isCompressed st then
                    let st := log CompressionDetected st in
                    match readUint32 true reader with
                    | None => Throws RangeError st
                    | Some (_, reader) =>
                    match readInt32 true reader with
                    | None => Throws RangeError st
                    | Some (checksum, reader) =>
                      store reload message totalPackets packetNumber
                        (with_crc32CheckSum checksum st)
                    end
                    end
                  else store reload message totalPackets packetNumber st
                end
            end
            end
        end
      else socket_close (reject InvalidResponseHeader st)
    end
  end.

(** The timer and the socket's ['error'] listener. *)
Definition onTimeout (st : state) : completion :=
  socket_close (reject RequestTimedOut st).

Definition onError (err : error) (st : state) : completion :=
  socket_close (reject err st).

(** [get]: the first request leaves with no challenge. *)
Definition get : completion := sendRequest None fresh.

(** What the event loop hands to the call.  A closed socket delivers nothing,
    and its ['close'] event has cleared the timer. *)
Inductive event :=
| Datagram (message : Buffer)
| TimerFired
| SocketFailed (err : error).

Definition handle (fuel : nat) (ev : event) (st : state) : completion :=
  if closed st then Returns st
  else match ev with
       | Datagram message => onMessage fuel message st
       | TimerFired => onTimeout st
       | SocketFailed err => onError err st
       end.

(** A run of events; an error raised by a handler ends it. *)
Fixpoint run (fuel : nat) (events : list event) (st : state) : completion :=
  match events with
  | [] => Returns st
  | ev :: rest =>
      match handle fuel ev st with
      | Returns st' => run fuel rest st'
      | stopped => stopped
      end
  end.


(* ================================================================= *)
(** ** Notions used by the statements about the handler *)

(** The fifth octet of a datagram is the challenge discriminator. *)
Definition is_challenge (message : Buffer) : bool :=
  match Buf.get (Buf.subarray message 4 5) 0 with
  | Some b => u8 b =? A2S_CHALLENGE_RESPONSE_HEADER
  | None => false
  end.

(** The header fields [onMessage] reads from a datagram that it buffers. *)
Record fragment := mkFragment {
  compressed : bool;
  totalPackets : Z;
  packetNumber : Z;
  checksum : option Z
}.

(** What [onMessage] takes a datagram for, under the dialect flags in force.
    A datagram too short for a read is [Truncated], with what the handler had
    assigned to [isCompressed] and whether it had logged the compression
    before the read that fails. *)
Inductive datagram :=
| Truncated (assigned : option bool) (detected : bool)
| Challenge (token : Buffer)
| SinglePacket
| InvalidHeader
| GoldSourceFirst (compressed : bool)
| BelowOrangeBoxFirst (compressed : bool)
| Fragment (f : fragment).

Definition classify (gold orange : bool) (message : Buffer) : datagram :=
  match readInt32 true (mkReader message 0) with
  | None => Truncated None false
  | Some (header, reader) =>
    if is_challenge message then Challenge (Buf.subarray message 5 9)
    else if header =? A2S_SINGLE_PACKET_HEADER then SinglePacket
    else if header =? A2S_MULTI_PACKET_HEADER then
      match readInt32 true reader with
      | None => Truncated None false
      | Some (id, reader) =>
        let compressed := negb (Z.land (ToInt32 id) (ToInt32 0x80000000) =? 0) in
        if negb gold
           && Buf.equals (Buf.subarray message 9 (9 + 4)) firstPacketPayloadHeader
        then GoldSourceFirst compressed
        else if gold then
          match readUint8 reader with
          | None => Truncated (Some compressed) false
          | Some (packetByte, _) =>
              Fragment (mkFragment compressed (Z.land packetByte 0x0F)
                          (Z.land (Z.shiftr packetByte 4) 0x0F) None)
          end
        else
          match readUint8 reader with
          | None => Truncated (Some compressed) false
          | Some (total, reader) =>
          match readUint8 reader with
          | None => Truncated (Some compressed) false
          | Some (number, reader) =>
            let start := if compressed then 18%nat else 10%nat in
            if orange && (number =? 0)
               && Buf.equals (Buf.subarray message start (start + 4))
                    firstPacketPayloadHeader
            then BelowOrangeBoxFirst compressed
            else
              match (if orange
                     then option_map snd (readUint16 true reader)
                     else Some reader) with
              | None => Truncated (Some compressed) false
              | Some reader =>
                if (number =? 0) && compressed then
                  match readUint32 true reader with
                  | None => Truncated (Some compressed) true
                  | Some (_, reader) =>
                  match readInt32 true reader with
                  | None => Truncated (Some compressed) true
                  | Some (crc, _) =>
                      Fragment (mkFragment compressed total number (Some crc))
                  end
                  end
                else Fragment (mkFragment compressed total number None)
              end
          end
          end
      end
    else InvalidHeader
  end.

(** The assignments [onMessage] makes while it reads the header of a
    fragment. *)
Definition header_read (f : fragment) (st : state) : state :=
  let st := with_isCompressed (compressed f) st in
  match checksum f with
  | Some crc => with_crc32CheckSum crc (log CompressionDetected st)
  | None => st
  end.

(** The state in which a truncated datagram leaves the call. *)
Definition cut_short (assigned : option bool) (detected : bool) (st : state)
  : state :=
  let st := match assigned with
            | Some c => with_isCompressed c st
            | None => st
            end in
  if detected then log CompressionDetected st else st.

(** The request without a token: the marker, the header and, for A2S_INFO, the
    query string. *)
Definition request_head (header : Z) : Buffer :=
  map octet [0xFF; 0xFF; 0xFF; 0xFF; header]
    ++ (if header =? 0x54
        then map octet [0x53; 0x6F; 0x75; 0x72; 0x63; 0x65; 0x20; 0x45;
                        0x6E; 0x67; 0x69; 0x6E; 0x65; 0x20; 0x51; 0x75;
                        0x65; 0x72; 0x79; 0x00]
        else []).

(** A flag that was demoted in [st0] is still demoted in [st]. *)
Definition no_promotion (st0 st : state) : Prop :=
  (goldSource st0 = true -> goldSource st = true)
  /\ (orangeBox st0 = false -> orangeBox st = false).

(** The dialect assumptions not yet demoted. *)
Definition undemoted (st : state) : nat :=
  ((if goldSource st then 0 else 1) + (if orangeBox st then 1 else 0))%nat.

(** The lines a handler added to the trace. *)
Definition extends (st0 st : state) : Prop :=
  exists lines, trace st = trace st0 ++ lines.

(** The state once [onMessage] has stored the fragment [f] read from
    [message], before it tests whether the response is complete. *)
Definition buffered (f : fragment) (message : Buffer) (st : state) : state :=
  let st := header_read f (log (Recv message) st) in
  let st := if packetNumber f =? 0 then log (TotalPackets (totalPackets f)) st
            else st in
  with_packets (packets_set (packetNumber f) message (packets st)) st.

(** The bytes [reassemble] puts together from the buffered packets. *)
Definition assembled (st : state) : Buffer := Buf.concat (sortedPackets st).

(** [Q] holds of the state a handler ends in, whether it returns or
    raises. *)
Definition ends_in (Q : state -> Prop) (c : completion) : Prop :=
  match c with
  | Returns st => Q st
  | Throws _ st => Q st
  | OutOfFuel => True
  end.

(** The trace of [st] starts with the lines [prefix]. *)
Definition traced (prefix : list trace_line) (st : state) : Prop :=
  exists lines, trace st = prefix ++ lines.

(** The handler that led from [st0] to [st] logged [line]. *)
Definition logged (line : trace_line) (st0 st : state) : Prop :=
  exists before after, trace st = trace st0 ++ before ++ line :: after.

(** The state a handler ends in, whether it returns or raises. *)
Definition final (c : completion) (st : state) : Prop :=
  c = Returns st \/ exists err, c = Throws err st.

(** A dialect flag was demoted between [st0] and [st]. *)
Definition demoted (st0 st : state) : Prop :=
  (goldSource st0 = false /\ goldSource st = true)
  \/ (orangeBox st0 = true /\ orangeBox st = false).

(** The dialect flags of [st] are [gold] and [orange]. *)
Definition flags (gold orange : bool) (st : state) : Prop :=
  goldSource st = gold /\ orangeBox st = orange.

Definition optional (message : option Buffer) : list Buffer :=
  match message with
  | Some m => [m]
  | None => []
  end.

(** Whatever the dialect flags, the packet number that [onMessage] reads from
    [message] is below [bound]. *)
Definition numbered_below (bound : Z) (message : Buffer) : Prop :=
  forall gold orange f,
    classify gold orange message = Fragment f -> packetNumber f < bound.

(** The keys of [packets] come in ascending order, as JavaScript enumerates
    them. *)
Definition ascending (o : list (Z * Buffer)) : Prop :=
  StronglySorted Z.lt (Object_keys o).

(** The buffered datagrams are numbered from 0 to below [bound]. *)
Definition within (bound : Z) (st : state) : Prop :=
  ascending (packets st)
  /\ forall k v, In (k, v) (packets st) -> 0 <= k < bound /\ numbered_below bound v.

(** The reassemblies among the lines of a trace. *)
Fixpoint reassemblies (lines : list trace_line) : nat :=
  match lines with
  | [] => 0
  | Payload _ :: rest => S (reassemblies rest)
  | _ :: rest => reassemblies rest
  end.

(** A state without its trace, and handlers that end alike but for the
    trace. *)
Definition untraced (st : state) : state :=
  mkState (retryCount st) (packets st) (isCompressed st) (crc32CheckSum st)
    (goldSource st) (orangeBox st) (promise st) (closed st) (sent st) [].

Definition same_outcome (c c' : completion) : Prop :=
  match c, c' with
  | Returns st, Returns st' => untraced st = untraced st'
  | Throws err st, Throws err' st' => err = err' /\ untraced st = untraced st'
  | OutOfFuel, OutOfFuel => True
  | _, _ => False
  end.

(** The fragment [onMessage] reads from a datagram, if it takes it for one. *)
Definition framed (gold orange : bool) (message : Buffer) : option fragment :=
  match classify gold orange message with
  | Fragment f => Some f
  | _ => None
  end.

(** The packet number of a datagram under the given framing. *)
Definition numberOf (gold orange : bool) (message : Buffer) : Z :=
  match framed gold orange message with
  | Some f => packetNumber f
  | None => -1
  end.

(** The state once the datagrams [messages] have been stored one after the
    other, none of them completing the response. *)
Fixpoint absorb (gold orange : bool) (messages : list Buffer) (st : state) : state :=
  match messages with
  | [] => st
  | m :: rest =>
      absorb gold orange rest
        (match framed gold orange m with
         | Some f => buffered f m st
         | None => st
         end)
  end.

(** [messages] are fragments of one response of [total] packets, under the
    given framing. *)
Definition fragments_of (gold orange : bool) (total : Z) (c : bool)
  (messages : list Buffer) : Prop :=
  Forall (fun m => exists f, framed gold orange m = Some f
                             /\ totalPackets f = total /\ compressed f = c)
         messages.

(** Nothing was sent since the requests [requests], and no buffered datagram
    is a challenge. *)
Definition unrequested (requests : list Buffer) (st : state) : Prop :=
  sent st = requests
  /\ forall e, In e (Object_values (packets st)) -> is_challenge e = false.

(** The payload of a packet under the framing without the maximum-size
    field: from offset 10, and from offset 18 in the first packet of a
    compressed response. *)
Definition payload_below_orange_box (entry : Z * Buffer) : Buffer :=
  Buf.subarray_from (snd entry) (if fst entry =? 0 then 18 else 10).

(** The promise is settled only once the socket is closed. *)
Definition released (st : state) : Prop :=
  promise st <> Pending -> closed st = true.

(** The first request of a call: the request head and, for a header other
    than A2S_INFO, four octets 0xFF in the place of the token. *)
Definition first_request : Buffer :=
  request_head header
    ++ (if header =? 0x54 then [] else [xff; xff; xff; xff]).

(** What the call has sent: its first request, then one request for each
    retry made, of which there are at most [maxRetries], each with at most
    four octets after the request head. *)
Definition requests_of_call (st : state) : Prop :=
  exists later,
    sent st = first_request :: later
    /\ (length later <= retryCount st)%nat
    /\ (retryCount st <= maxRetries)%nat
    /\ Forall (fun request =>
                 exists token,
                   request = request_head header ++ token
                   /\ (length token <= 4)%nat)
              later.

(** The socket is closed exactly when the promise is settled. *)
Definition closed_when_settled (st : state) : Prop :=
  closed st = true <-> promise st <> Pending.

(** The payload of a packet of a response that is not compressed: what
    follows the nine octets of the GoldSource header, or the ten of the
    Source header and the two of the maximum-size field when it is there. *)
Definition payload (gold orange : bool) (message : Buffer) : Buffer :=
  Buf.subarray_from message (if gold then 9 else if orange then 12 else 10).
(* ================================================================= *)
(** ** The reader *)

Lemma scan_unterminated (rest : list byte) (off : nat) :
  Forall nonzero rest -> scan rest off = (off + length rest)%nat.
Proof.
  revert off; induction rest as [|b rest IH]; intros off H; simpl.
  - lia.
  - inversion H as [|? ? Hb Hrest]; subst.
    destruct (Byte.eqb b x00) eqn:E.
    + apply Byte.byte_dec_bl in E. contradiction.
    + rewrite IH by assumption. lia.
Qed.

Lemma scan_terminated (s rest : list byte) (off : nat) :
  Forall nonzero s -> scan (s ++ x00 :: rest) off = (off + length s)%nat.
Proof.
  revert off; induction s as [|b s IH]; intros off H; simpl.
  - lia.
  - inversion H as [|? ? Hb Hs]; subst.
    destruct (Byte.eqb b x00) eqn:E.
    + apply Byte.byte_dec_bl in E. contradiction.
    + rewrite IH by assumption. lia.
Qed.

Lemma skipn_cursor (read rest : list byte) :
  skipn (length read) (read ++ rest) = rest.
Proof.
  rewrite skipn_app, skipn_all, Nat.sub_diag. reflexivity.
Qed.

Lemma cursor_step (read bs rest : list byte) :
  mkReader (read ++ bs ++ rest) (length read + length bs) = cursor (read ++ bs) rest.
Proof.
  unfold cursor. rewrite <- app_assoc, length_app. reflexivity.
Qed.

Lemma octets_cursor (n : nat) (read bs rest : list byte) :
  length bs = n ->
  Buf.octets n (read ++ bs ++ rest) (length read) = Some bs.
Proof.
  intros Hn. unfold Buf.octets. rewrite skipn_cursor.
  rewrite firstn_app, <- Hn, firstn_all, Nat.sub_diag. simpl.
  rewrite app_nil_r, Nat.eqb_refl. reflexivity.
Qed.

Lemma readUint8_cursor (read rest : list byte) (b : byte) :
  readUint8 (cursor read (b :: rest)) = Some (u8 b, cursor (read ++ [b]) rest).
Proof.
  unfold readUint8, advancing, Buf.readUIntLE, cursor at 1. simpl buffer. simpl offset.
  change (b :: rest) with ([b] ++ rest).
  rewrite (octets_cursor 1 read [b] rest eq_refl).
  cbn [option_map le_value]. rewrite Z.mul_0_r, Z.add_0_r.
  do 2 f_equal. exact (cursor_step read [b] rest).
Qed.

Lemma readInt8_cursor (read rest : list byte) (b : byte) :
  readInt8 (cursor read (b :: rest)) = Some (signed 8 (u8 b), cursor (read ++ [b]) rest).
Proof.
  unfold readInt8, advancing, Buf.readIntLE, Buf.readUIntLE, cursor at 1.
  simpl buffer. simpl offset.
  change (b :: rest) with ([b] ++ rest).
  rewrite (octets_cursor 1 read [b] rest eq_refl).
  cbn [option_map le_value]. rewrite Z.mul_0_r, Z.add_0_r.
  do 2 f_equal. exact (cursor_step read [b] rest).
Qed.

Lemma readUint16_cursor (read rest : list byte) (a b : byte) :
  readUint16 true (cursor read (a :: b :: rest))
  = Some (u8 a + 256 * u8 b, cursor (read ++ [a; b]) rest).
Proof.
  unfold readUint16, advancing, Buf.readUIntLE, cursor at 1.
  simpl buffer. simpl offset.
  change (a :: b :: rest) with ([a; b] ++ rest).
  rewrite (octets_cursor 2 read [a; b] rest eq_refl).
  cbn [option_map le_value]. rewrite Z.mul_0_r, Z.add_0_r.
  do 2 f_equal. exact (cursor_step read [a; b] rest).
Qed.

Lemma readString_cursor (read s rest : list byte) :
  Forall nonzero s ->
  readString (cursor read (cstring s ++ rest))
  = Some (utf8_decode s, cursor (read ++ cstring s) rest).
Proof.
  intros Hs. unfold readString, cursor at 1, cstring. simpl buffer. simpl offset.
  rewrite skipn_cursor, <- app_assoc. simpl.
  rewrite (scan_terminated s rest (length read) Hs).
  unfold Buf.toString, Buf.subarray. rewrite skipn_cursor.
  replace (length read + length s - length read)%nat with (length s) by lia.
  rewrite firstn_app, firstn_all, Nat.sub_diag. simpl. rewrite app_nil_r.
  f_equal. f_equal. unfold cursor.
  rewrite <- !app_assoc, !length_app. simpl. f_equal. lia.
Qed.

(** [readString] never raises. *)
Lemma readString_total (r : BufferReader) :
  exists s r', readString r = Some (s, r').
Proof.
  unfold readString. eauto.
Qed.

(** C10. When no octet from the cursor to the end of the buffer is zero,
    [readString] returns all the remaining octets decoded as UTF-8 and leaves
    the cursor past the end of the buffer; it raises nothing, so a string cut
    before its terminator is returned shortened. *)
Theorem readString_unterminated (r : BufferReader) :
  Forall nonzero (skipn (offset r) (buffer r)) ->
  exists r',
    readString r = Some (utf8_decode (skipn (offset r) (buffer r)), r')
    /\ buffer r' = buffer r
    /\ offset r' = S (Nat.max (offset r) (length (buffer r)))
    /\ (length (buffer r) < offset r')%nat.
Proof.
  intros H. unfold readString.
  rewrite (scan_unterminated _ (offset r) H).
  exists (mkReader (buffer r)
            (S (offset r + length (skipn (offset r) (buffer r))))).
  repeat split.
  - unfold Buf.toString, Buf.subarray.
    replace (offset r + length (skipn (offset r) (buffer r)) - offset r)%nat
      with (length (skipn (offset r) (buffer r))) by lia.
    rewrite firstn_all. reflexivity.
  - simpl. rewrite length_skipn. lia.
  - simpl. rewrite length_skipn. lia.
Qed.

Lemma parseResponse_cursor (payload : Buffer) (a b c d : byte) (rest : list byte) :
  payload = a :: b :: c :: d :: rest ->
  mkReader payload 4 = cursor [a; b; c; d] rest.
Proof. intros ->. reflexivity. Qed.

Lemma cursor_at_end (read : list byte) :
  Nat.ltb (getOffset (cursor read [])) (byteLength (cursor read [])) = false.
Proof.
  unfold getOffset, byteLength, cursor. cbn [buffer offset].
  rewrite app_nil_r. apply Nat.ltb_irrefl.
Qed.

Ltac read_step :=
  first
    [ rewrite readUint8_cursor
    | rewrite readInt8_cursor
    | rewrite readUint16_cursor
    | rewrite readString_cursor
        by (assumption
            || (vm_compute; repeat (apply Forall_cons; [discriminate|]);
                apply Forall_nil)) ];
  cbn [bind ret].

(** C9. A single current-dialect info payload (discriminator 0x49) naming the
    server "Test Server" on map "de_dust2" with 5 players of 10, no bots, type
    'd' and environment 'l' decodes, field after field in the order of the
    wire, to a result whose name is "Test Server", whose players are 5 and
    whose maxPlayers are 10. *)
Theorem parseResponse_test_server
  (protocol : byte) (folder game : list byte)
  (id_lo id_hi visibility vac : byte) (version : list byte) :
  Forall nonzero folder -> Forall nonzero game -> Forall nonzero version ->
  exists info,
    parseResponse
      (test_server_payload protocol folder game id_lo id_hi visibility vac version)
    = inr (Info info)
    /\ ServerInfo.name info = js "Test Server"
    /\ ServerInfo.players info = 5
    /\ ServerInfo.maxPlayers info = 10
    /\ ServerInfo.protocol info = u8 protocol
    /\ ServerInfo.map info = js "de_dust2"
    /\ ServerInfo.folder info = utf8_decode folder
    /\ ServerInfo.game info = utf8_decode game
    /\ ServerInfo.id info = Some (u8 id_lo + 256 * u8 id_hi)
    /\ ServerInfo.bots info = 0
    /\ ServerInfo.serverType info = js "d"
    /\ ServerInfo.environment info = js "l"
    /\ ServerInfo.visibility info = u8 visibility
    /\ ServerInfo.vac info = u8 vac
    /\ ServerInfo.version info = Some (utf8_decode version)
    /\ ServerInfo.extraData info = None.
Proof.
  intros Hfolder Hgame Hversion.
  unfold parseResponse, test_server_payload.
  rewrite <- (app_nil_r (cstring version)). cbn [app].
  rewrite (parseResponse_cursor _ xff xff xff xff _ eq_refl).
  rewrite readInt8_cursor.
  change (signed 8 (u8 x49) =? 0x49) with true. cbv iota.
  unfold parseInfoResponse.
  do 14 (unfold bind at 1; read_step).
  match goal with
  | |- context [Nat.ltb ?a ?b] =>
      replace (Nat.ltb a b) with false by (symmetry; apply cursor_at_end)
  end.
  cbn [when_ bind ret].
  eexists. split; [reflexivity|]. cbn.
  repeat split; reflexivity.
Qed.

(* ================================================================= *)
(** ** The handler, case by case *)

Lemma advancing_buffer (n : nat) (read : Buffer -> nat -> option Z)
  (r r' : BufferReader) (v : Z) :
  advancing n read r = Some (v, r') ->
  buffer r' = buffer r /\ offset r' = (offset r + n)%nat.
Proof.
  unfold advancing. destruct (read (buffer r) (offset r)); [|discriminate].
  intros E. injection E as _ <-. split; reflexivity.
Qed.

Lemma onMessage_classify (fuel : nat) (message : Buffer) (st : state) :
  onMessage (S fuel) message st
  = let again := reload (onMessage fuel) in
    let st := log (Recv message) st in
    match classify (goldSource st) (orangeBox st) message with
    | Truncated assigned detected =>
        Throws RangeError (cut_short assigned detected st)
    | Challenge token =>
        if Nat.ltb (retryCount st) maxRetries
        then sendRequest (Some token) (with_retryCount (S (retryCount st)) st)
        else socket_close (reject MaxRetriesReached st)
    | SinglePacket => dispatch message st
    | InvalidHeader => socket_close (reject InvalidResponseHeader st)
    | GoldSourceFirst c =>
        again (Some message)
          (with_goldSource true
             (log ObsoleteGoldSourceDetected (with_isCompressed c st)))
    | BelowOrangeBoxFirst c =>
        again (Some message)
          (with_orangeBox false
             (log BelowOrangeBoxDetected (with_isCompressed c st)))
    | Fragment f =>
        store again message (totalPackets f) (packetNumber f) (header_read f st)
    end.
Proof.
  destruct st as [rc pk ic crc gs ob pr cl se tr].
  cbn [onMessage]. unfold classify, is_challenge, subarray.
  destruct (readInt32 true (mkReader message 0)) as [[hd reader]|] eqn:Hhd;
    [|reflexivity].
  apply advancing_buffer in Hhd as [-> _]. cbn [buffer].
  cbn [log goldSource orangeBox isCompressed with_isCompressed buffer].
  repeat match goal with
         | |- context [match ?x with _ => _ end] => destruct x eqn:?
         end; try reflexivity.
Qed.

(** The dialect flags are not touched while a header is read. *)
Lemma header_read_flags (f : fragment) (st : state) :
  goldSource (header_read f st) = goldSource st
  /\ orangeBox (header_read f st) = orangeBox st.
Proof. unfold header_read. destruct (checksum f); split; reflexivity. Qed.

Lemma classify_Challenge (gold orange : bool) (message token : Buffer) :
  classify gold orange message = Challenge token ->
  is_challenge message = true /\ token = Buf.subarray message 5 9.
Proof.
  unfold classify.
  repeat match goal with
         | |- context [match ?x with _ => _ end] => destruct x eqn:?
         end; try discriminate.
  intros H. injection H as <-. split; reflexivity.
Qed.

Lemma classify_Fragment (gold orange : bool) (message : Buffer) (f : fragment) :
  classify gold orange message = Fragment f -> is_challenge message = false.
Proof.
  unfold classify.
  repeat match goal with
         | |- context [match ?x with _ => _ end] => destruct x eqn:?
         end; try discriminate; intros _; reflexivity.
Qed.

(** [sendRequest] logs the request and hands it to the socket. *)
Lemma sendRequest_invariant (Q : state -> Prop) :
  (forall st line, Q st -> Q (log line st)) ->
  (forall st request, Q st -> Q (with_sent (sent st ++ [request]) st)) ->
  forall challenge st, Q st -> ends_in Q (sendRequest challenge st).
Proof.
  intros Q_log Q_sent challenge st H. unfold sendRequest, socket_send.
  match goal with |- context [log ?l st] => pose proof (Q_log st l H) as Hl end.
  match goal with
  | |- context [closed ?s] => destruct (closed s); cbn [ends_in]; auto
  end.
Qed.

(* ================================================================= *)
(** ** A proof rule for invariants of the call

    [Q] is a property of the state that every assignment of [get] keeps, and
    [W] what is assumed of each datagram handled; then [Q] holds when a
    handler ends, however it ends. *)

Section Invariant.

Variable W : Buffer -> Prop.
Variable Q : state -> Prop.

Hypothesis Q_buffered :
  forall st, Q st -> Forall W (Object_values (packets st)).
Hypothesis Q_log : forall st line, Q st -> Q (log line st).
Hypothesis Q_isCompressed : forall st c, Q st -> Q (with_isCompressed c st).
Hypothesis Q_crc32CheckSum : forall st c, Q st -> Q (with_crc32CheckSum c st).
Hypothesis Q_goldSource : forall st, Q st -> Q (with_goldSource true st).
Hypothesis Q_orangeBox : forall st, Q st -> Q (with_orangeBox false st).
Hypothesis Q_emptied : forall st, Q st -> Q (with_packets [] st).
Hypothesis Q_stored :
  forall st message f,
    Q st -> W message ->
    classify (goldSource st) (orangeBox st) message = Fragment f ->
    Q (with_packets (packets_set (packetNumber f) message (packets st)) st).

(** A retransmission is made for a challenge only, and while retries are
    left. *)
Hypothesis Q_challenged :
  forall st message,
    Q st -> W message -> is_challenge message = true ->
    (retryCount st < maxRetries)%nat ->
    ends_in Q (sendRequest (Some (Buf.subarray message 5 9))
               (with_retryCount (S (retryCount st)) st)).

(** [resolve] and [reject] are always followed by [socket.close()]. *)
Hypothesis Q_resolved :
  forall st data, Q st -> ends_in Q (socket_close (resolve data st)).
Hypothesis Q_rejected :
  forall st err, Q st -> ends_in Q (socket_close (reject err st)).

Lemma dispatch_invariant (payload : Buffer) (st : state) :
  Q st -> ends_in Q (dispatch payload st).
Proof.
  intros H. unfold dispatch. destruct (parseResponse payload); cbn [ends_in]; auto.
Qed.

Lemma forEach_invariant (body : Buffer -> state -> completion)
  (entries : list Buffer) :
  (forall message st, W message -> Q st -> ends_in Q (body message st)) ->
  forall st, Forall W entries -> Q st -> ends_in Q (forEach body entries st).
Proof.
  intros Hbody. induction entries as [|m rest IH]; intros st HW HQ; cbn [forEach].
  - exact HQ.
  - inversion HW as [|? ? Hm Hrest]; subst.
    pose proof (Hbody m st Hm HQ) as Hstep.
    destruct (body m st); cbn [ends_in] in *; auto.
Qed.

Lemma reload_invariant (body : Buffer -> state -> completion)
  (message : option Buffer) (st : state) :
  (forall message st, W message -> Q st -> ends_in Q (body message st)) ->
  match message with Some m => W m | None => True end ->
  Q st -> ends_in Q (reload body message st).
Proof.
  intros Hbody Hm HQ. unfold reload.
  apply forEach_invariant; auto.
  destruct message as [m|].
  - apply Forall_app. split; [apply (Q_buffered _ (Q_log _ PacketReload HQ))|auto].
  - apply (Q_buffered _ (Q_log _ PacketReload HQ)).
Qed.

Lemma reassemble_invariant (again : option Buffer -> state -> completion)
  (st : state) :
  (forall st, Q st -> ends_in Q (again None st)) ->
  Q st -> ends_in Q (reassemble again st).
Proof.
  intros Hagain HQ. unfold reassemble.
  cbn [isCompressed log orangeBox crc32CheckSum].
  destruct (isCompressed st).
  - destruct (Bunzip_decode _) as [d|].
    + match goal with |- context [negb ?b] => destruct b end; cbn [negb ends_in].
      * apply dispatch_invariant; auto.
      * auto.
    + destruct (orangeBox st); cbn [negb ends_in].
      * apply Hagain; auto.
      * auto.
  - apply dispatch_invariant; auto.
Qed.

(** One call of the handler, given the invariant once the datagram has
    been logged and given it of the calls made through [reload]. *)
Lemma onMessage_invariant_step (fuel : nat) (message : Buffer) (st : state) :
  (forall message st, W message -> Q st -> ends_in Q (onMessage fuel message st)) ->
  W message -> Q (log (Recv message) st) ->
  ends_in Q (onMessage (S fuel) message st).
Proof.
  intros IH HW Hst.
  rewrite onMessage_classify. cbv zeta.
  cbn [goldSource orangeBox log].
  destruct (classify (goldSource st) (orangeBox st) message) as
    [assigned detected|token| | |c|c|f] eqn:Hclass.
  - unfold cut_short. cbn [ends_in]. destruct assigned, detected; auto.
  - destruct (classify_Challenge _ _ _ _ Hclass) as [Hch ->].
    destruct (Nat.ltb _ _) eqn:Hretry; auto.
    apply Q_challenged; auto. apply Nat.ltb_lt. exact Hretry.
  - apply dispatch_invariant; auto.
  - auto.
  - apply reload_invariant; auto.
  - apply reload_invariant; auto.
  - assert (Hhr : Q (header_read f (log (Recv message) st))).
    { unfold header_read. destruct (checksum f); auto. }
    unfold store.
    set (st1 := if packetNumber f =? 0 then _ else _).
    assert (Hst1 : Q st1) by (subst st1; destruct (packetNumber f =? 0); auto).
    assert (Hflags : goldSource st1 = goldSource st /\ orangeBox st1 = orangeBox st).
    { subst st1. destruct (header_read_flags f (log (Recv message) st)) as [Hg Ho].
      destruct (packetNumber f =? 0); cbn [log goldSource orangeBox];
        rewrite Hg, Ho; split; reflexivity. }
    destruct Hflags as [Hg Ho].
    assert (Hstored :
      Q (with_packets (packets_set (packetNumber f) message (packets st1)) st1)).
    { apply Q_stored; auto. rewrite Hg, Ho. exact Hclass. }
    destruct (_ =? totalPackets f).
    + apply reassemble_invariant; auto.
      intros st' HQ'. apply reload_invariant; auto.
    + exact Hstored.
Qed.

Lemma onMessage_invariant (fuel : nat) :
  forall message st, W message -> Q st -> ends_in Q (onMessage fuel message st).
Proof.
  induction fuel as [|fuel IH]; intros message st HW HQ; [exact I|].
  apply onMessage_invariant_step; auto.
Qed.

End Invariant.

(* ================================================================= *)
(** ** Dialect flags and termination *)

Lemma onMessage_no_promotion (fuel : nat) (message : Buffer) (st0 st : state) :
  no_promotion st0 st ->
  ends_in (no_promotion st0) (onMessage fuel message st).
Proof.
  intros H.
  apply (onMessage_invariant (fun _ => True) (no_promotion st0)); auto;
    try (intros; assumption).
  - intros s _. induction (Object_values (packets s)); constructor; auto.
  - intros s [Hg Ho]. split; auto.
  - intros s [Hg Ho]. split; auto.
  - intros s m Hs _ _ _.
    apply (sendRequest_invariant (no_promotion st0)); auto.
  - intros s d Hs. unfold socket_close, resolve.
    destruct (promise s); cbn [closed with_promise]; destruct (closed s); exact Hs.
  - intros s e Hs. unfold socket_close, reject.
    destruct (promise s); cbn [closed with_promise]; destruct (closed s); exact Hs.
Qed.

Lemma no_promotion_refl (st : state) : no_promotion st st.
Proof. split; auto. Qed.

Lemma no_promotion_undemoted (st0 st : state) :
  no_promotion st0 st -> (undemoted st <= undemoted st0)%nat.
Proof.
  intros [Hg Ho]. unfold undemoted.
  destruct (goldSource st0), (orangeBox st0), (goldSource st), (orangeBox st);
    simpl; try lia; try (specialize (Hg eq_refl); discriminate);
    try (specialize (Ho eq_refl); discriminate).
Qed.

Lemma classify_GoldSourceFirst (gold orange : bool) (message : Buffer) (c : bool) :
  classify gold orange message = GoldSourceFirst c -> gold = false.
Proof.
  unfold classify. destruct gold; [|reflexivity]. cbn [negb andb].
  repeat match goal with
         | |- context [match ?x with _ => _ end] => destruct x
         end; discriminate.
Qed.

Lemma classify_BelowOrangeBoxFirst (gold orange : bool) (message : Buffer) (c : bool) :
  classify gold orange message = BelowOrangeBoxFirst c -> orange = true.
Proof.
  unfold classify. destruct orange; [reflexivity|]. cbn [negb andb].
  repeat match goal with
         | |- context [match ?x with _ => _ end] => destruct x
         end; discriminate.
Qed.

Lemma socket_close_fuel (st : state) : socket_close st <> OutOfFuel.
Proof. unfold socket_close. destruct (closed st); discriminate. Qed.

Lemma sendRequest_fuel (challenge : option Buffer) (st : state) :
  sendRequest challenge st <> OutOfFuel.
Proof.
  unfold sendRequest, socket_send.
  match goal with |- context [closed ?s] => destruct (closed s) end; discriminate.
Qed.

Lemma dispatch_fuel (payload : Buffer) (st : state) : dispatch payload st <> OutOfFuel.
Proof.
  unfold dispatch. destruct (parseResponse payload);
    [discriminate|apply socket_close_fuel].
Qed.

Lemma forEach_fuel (body : Buffer -> state -> completion) (bound : nat)
  (entries : list Buffer) :
  (forall message st, (undemoted st <= bound)%nat ->
     body message st <> OutOfFuel
     /\ ends_in (fun st' => undemoted st' <= bound)%nat (body message st)) ->
  forall st, (undemoted st <= bound)%nat -> forEach body entries st <> OutOfFuel.
Proof.
  intros Hbody. induction entries as [|m rest IH]; intros st Hst; cbn [forEach].
  - discriminate.
  - destruct (Hbody m st Hst) as [Hfuel Hends].
    destruct (body m st); cbn [ends_in] in *; auto; discriminate.
Qed.

(** Each call of [onMessage] through [reload] follows a demotion, and there
    are two flags to demote: [onMessage] returns or raises whenever its fuel
    exceeds the number of flags still to demote, so with fuel 3 always. *)
Lemma onMessage_fuel (fuel : nat) :
  forall message st,
    (undemoted st < fuel)%nat -> onMessage fuel message st <> OutOfFuel.
Proof.
  induction fuel as [|fuel IH]; intros message st Hfuel; [lia|].
  assert (Hagain : forall msg st',
             (undemoted st' < undemoted st)%nat ->
             reload (onMessage fuel) msg st' <> OutOfFuel).
  { intros msg st' Hlt. unfold reload.
    apply (forEach_fuel _ (undemoted st')); [|cbn; unfold undemoted; cbn; lia].
    intros m s Hs. split.
    - apply IH. lia.
    - pose proof (onMessage_no_promotion fuel m s s (no_promotion_refl s)) as Hp.
      destruct (onMessage fuel m s); cbn [ends_in] in *; auto;
        apply no_promotion_undemoted in Hp; lia. }
  rewrite onMessage_classify. cbv zeta. cbn [goldSource orangeBox log].
  destruct (classify (goldSource st) (orangeBox st) message) as
    [assigned detected|token| | |c|c|f] eqn:Hclass.
  - discriminate.
  - destruct (Nat.ltb _ _); [apply sendRequest_fuel|apply socket_close_fuel].
  - apply dispatch_fuel.
  - apply socket_close_fuel.
  - apply Hagain. apply classify_GoldSourceFirst in Hclass.
    unfold undemoted. cbn. rewrite Hclass. destruct (orangeBox st); simpl; lia.
  - apply Hagain. apply classify_BelowOrangeBoxFirst in Hclass.
    unfold undemoted. cbn. rewrite Hclass. destruct (goldSource st); simpl; lia.
  - unfold store.
    match goal with |- context [if ?b then reassemble _ _ else _] => destruct b end;
      [|discriminate].
    unfold reassemble.
    match goal with |- context [if isCompressed ?s then _ else _] =>
      destruct (isCompressed s) end; [|apply dispatch_fuel].
    destruct (Bunzip_decode _).
    + match goal with |- context [if negb ?b then _ else _] => destruct b end;
        cbn [negb]; [apply dispatch_fuel|discriminate].
    + match goal with |- context [if negb (orangeBox ?s) then _ else _] =>
        destruct (orangeBox s) eqn:Ho end; cbn [negb]; [|discriminate].
      apply Hagain.
      destruct (header_read_flags f (log (Recv message) st)) as [Hg' Ho'].
      revert Ho. destruct (packetNumber f =? 0);
        cbn [with_packets log orangeBox goldSource]; rewrite ?Ho'; cbn [log orangeBox];
        intros Ho; unfold undemoted; cbn; rewrite Hg', Ho; cbn [log goldSource];
        destruct (goldSource st); simpl; lia.
Qed.

(* ================================================================= *)
(** ** Challenges *)

Lemma classify_challenge (gold orange : bool) (message : Buffer) :
  is_challenge message = true ->
  classify gold orange message = Challenge (Buf.subarray message 5 9).
Proof.
  intros H. unfold classify. rewrite H.
  destruct message as [|a [|b [|c [|d [|e rest]]]]]; try discriminate H.
  reflexivity.
Qed.

Lemma sendRequest_open (challenge : Buffer) (st : state) :
  closed st = false ->
  sendRequest (Some challenge) st
  = Returns (with_sent (sent st ++ [request_head header ++ challenge])
               (log (Send (request_head header ++ challenge)) st)).
Proof.
  intros Hopen. unfold sendRequest, socket_send, request_head.
  cbn [log closed]. rewrite Hopen.
  destruct (header =? 0x54); rewrite ?app_nil_r; reflexivity.
Qed.

(** [resolve] and [reject] assign the promise and nothing else. *)
Lemma reject_fields (err : error) (st : state) :
  retryCount (reject err st) = retryCount st
  /\ packets (reject err st) = packets st
  /\ isCompressed (reject err st) = isCompressed st
  /\ crc32CheckSum (reject err st) = crc32CheckSum st
  /\ goldSource (reject err st) = goldSource st
  /\ orangeBox (reject err st) = orangeBox st
  /\ closed (reject err st) = closed st
  /\ sent (reject err st) = sent st
  /\ trace (reject err st) = trace st.
Proof. unfold reject. destruct (promise st); repeat split. Qed.

Lemma resolve_fields (data : response) (st : state) :
  retryCount (resolve data st) = retryCount st
  /\ packets (resolve data st) = packets st
  /\ isCompressed (resolve data st) = isCompressed st
  /\ crc32CheckSum (resolve data st) = crc32CheckSum st
  /\ goldSource (resolve data st) = goldSource st
  /\ orangeBox (resolve data st) = orangeBox st
  /\ closed (resolve data st) = closed st
  /\ sent (resolve data st) = sent st
  /\ trace (resolve data st) = trace st.
Proof. unfold resolve. destruct (promise st); repeat split. Qed.

(** One challenge: a retransmission while fewer than [maxRetries] were made,
    the failure otherwise. *)
Lemma challenge_step (fuel : nat) (message : Buffer) (st : state) :
  is_challenge message = true ->
  closed st = false ->
  let token := Buf.subarray message 5 9 in
  ((9 <= length message)%nat -> length token = 4%nat)
  /\ ((retryCount st < maxRetries)%nat ->
      exists st',
        onMessage (S fuel) message st = Returns st'
        /\ sent st' = sent st ++ [request_head header ++ token]
        /\ retryCount st' = S (retryCount st)
        /\ promise st' = promise st
        /\ closed st' = false
        /\ packets st' = packets st)
  /\ ((maxRetries <= retryCount st)%nat ->
      exists st',
        onMessage (S fuel) message st = Returns st'
        /\ sent st' = sent st
        /\ retryCount st' = retryCount st
        /\ promise st' = promise (reject MaxRetriesReached st)
        /\ closed st' = true).
Proof.
  intros Hch Hopen token. split; [|split].
  - intros Hlen. subst token. unfold Buf.subarray.
    rewrite length_firstn, length_skipn. lia.
  - intros Hlt. rewrite onMessage_classify. cbv zeta.
    cbn [goldSource orangeBox log retryCount].
    rewrite (classify_challenge _ _ _ Hch).
    apply Nat.ltb_lt in Hlt. rewrite Hlt.
    rewrite sendRequest_open by exact Hopen.
    eexists. split; [reflexivity|]. repeat split. exact Hopen.
  - intros Hge. rewrite onMessage_classify. cbv zeta.
    cbn [goldSource orangeBox log retryCount].
    rewrite (classify_challenge _ _ _ Hch).
    apply Nat.ltb_ge in Hge. rewrite Hge.
    unfold socket_close.
    destruct (reject_fields MaxRetriesReached (log (Recv message) st))
      as (Hr & _ & _ & _ & _ & _ & Hc & Hs & _).
    rewrite Hc. cbn [closed log]. rewrite Hopen.
    eexists. split; [reflexivity|].
    cbn [sent retryCount promise closed with_closed].
    rewrite Hs, Hr. repeat split.
    unfold reject. cbn [promise log]. destruct (promise st); reflexivity.
Qed.

(** Three challenges in a row, from the start of a call: two retransmissions,
    then the failure. *)
Lemma three_challenges (fuel : nat) (c1 c2 c3 : Buffer) :
  is_challenge c1 = true -> is_challenge c2 = true -> is_challenge c3 = true ->
  exists st0 st,
    get = Returns st0
    /\ run (S fuel) [Datagram c1; Datagram c2; Datagram c3] st0 = Returns st
    /\ sent st = sent st0 ++ [request_head header ++ Buf.subarray c1 5 9;
                              request_head header ++ Buf.subarray c2 5 9]
    /\ promise st = Rejected MaxRetriesReached
    /\ closed st = true.
Proof.
  intros H1 H2 H3.
  assert (Hget : exists st0, get = Returns st0 /\ retryCount st0 = 0%nat
                             /\ closed st0 = false /\ promise st0 = Pending).
  { unfold get, sendRequest, socket_send. cbn [closed fresh log].
    eexists. split; [reflexivity|]. repeat split. }
  destruct Hget as (st0 & Hget & Hrc0 & Hcl0 & Hp0).
  destruct (challenge_step fuel c1 st0 H1 Hcl0) as (_ & Hs1 & _).
  destruct Hs1 as (st1 & E1 & Hsent1 & Hrc1 & Hp1 & Hcl1 & _);
    [rewrite Hrc0; unfold maxRetries; lia|].
  destruct (challenge_step fuel c2 st1 H2 Hcl1) as (_ & Hs2 & _).
  destruct Hs2 as (st2 & E2 & Hsent2 & Hrc2 & Hp2 & Hcl2 & _);
    [rewrite Hrc1, Hrc0; unfold maxRetries; lia|].
  destruct (challenge_step fuel c3 st2 H3 Hcl2) as (_ & _ & Hs3).
  destruct Hs3 as (st3 & E3 & Hsent3 & Hrc3 & Hp3 & Hcl3);
    [rewrite Hrc2, Hrc1, Hrc0; unfold maxRetries; lia|].
  exists st0, st3. split; [exact Hget|]. split.
  - cbn [run]. unfold handle at 1. rewrite Hcl0, E1.
    unfold handle at 1. rewrite Hcl1, E2.
    unfold handle at 1. rewrite Hcl2, E3. reflexivity.
  - split; [|split].
    + rewrite Hsent3, Hsent2, Hsent1, <- app_assoc. reflexivity.
    + rewrite Hp3. unfold reject. rewrite Hp2, Hp1, Hp0. reflexivity.
    + exact Hcl3.
Qed.

(** C3. A challenge datagram reaches a call whose socket is open and whose
    promise is pending.  While fewer than two retransmissions have been made,
    the handler retransmits the request once, followed by the four octets
    that come after the discriminator, and the promise stays pending; once
    two retransmissions have been made, it sends nothing, rejects the promise
    with the retry-exhausted error and closes the socket.  A call that
    receives three challenges in a row thus makes two retransmissions, one
    for each of the first two challenges, and fails at the third. *)
Theorem challenge_retransmission (fuel : nat) :
  (forall message st,
     is_challenge message = true ->
     closed st = false ->
     promise st = Pending ->
     let token := Buf.subarray message 5 9 in
     ((9 <= length message)%nat -> length token = 4%nat)
     /\ ((retryCount st < maxRetries)%nat ->
         exists st',
           onMessage (S fuel) message st = Returns st'
           /\ sent st' = sent st ++ [request_head header ++ token]
           /\ retryCount st' = S (retryCount st)
           /\ promise st' = Pending
           /\ closed st' = false
           /\ packets st' = packets st)
     /\ ((maxRetries <= retryCount st)%nat ->
         exists st',
           onMessage (S fuel) message st = Returns st'
           /\ sent st' = sent st
           /\ retryCount st' = retryCount st
           /\ promise st' = Rejected MaxRetriesReached
           /\ closed st' = true))
  /\ (forall c1 c2 c3,
        is_challenge c1 = true -> is_challenge c2 = true ->
        is_challenge c3 = true ->
        exists st0 st,
          get = Returns st0
          /\ run (S fuel) [Datagram c1; Datagram c2; Datagram c3] st0 = Returns st
          /\ sent st = sent st0 ++ [request_head header ++ Buf.subarray c1 5 9;
                                    request_head header ++ Buf.subarray c2 5 9]
          /\ promise st = Rejected MaxRetriesReached
          /\ closed st = true).
Proof.
  split.
  - intros message st Hch Hopen Hpending token.
    destruct (challenge_step fuel message st Hch Hopen) as (Hlen & Hretry & Hfail).
    split; [exact Hlen|]. split.
    + intros Hlt. destruct (Hretry Hlt) as (st' & E & Hs & Hr & Hp & Hc & Hpk).
      exists st'. rewrite Hp, Hpending. repeat split; assumption.
    + intros Hge. destruct (Hfail Hge) as (st' & E & Hs & Hr & Hp & Hc).
      exists st'. rewrite Hp. unfold reject. rewrite Hpending.
      repeat split; assumption.
  - exact (three_challenges fuel).
Qed.

(* ================================================================= *)
(** ** Fragments and reassembly *)

Lemma onMessage_fragment (fuel : nat) (message : Buffer) (st : state) (f : fragment) :
  classify (goldSource st) (orangeBox st) message = Fragment f ->
  onMessage (S fuel) message st
  = if Z.of_nat (length (Object_keys (packets (buffered f message st))))
       =? totalPackets f
    then reassemble (reload (onMessage fuel)) (buffered f message st)
    else Returns (buffered f message st).
Proof.
  intros H. rewrite onMessage_classify. cbv zeta.
  cbn [goldSource orangeBox log]. rewrite H. reflexivity.
Qed.

Lemma buffered_fields (f : fragment) (message : Buffer) (st : state) :
  retryCount (buffered f message st) = retryCount st
  /\ isCompressed (buffered f message st) = compressed f
  /\ goldSource (buffered f message st) = goldSource st
  /\ orangeBox (buffered f message st) = orangeBox st
  /\ promise (buffered f message st) = promise st
  /\ closed (buffered f message st) = closed st
  /\ sent (buffered f message st) = sent st
  /\ packets (buffered f message st)
     = packets_set (packetNumber f) message (packets st)
  /\ crc32CheckSum (buffered f message st)
     = match checksum f with Some crc => crc | None => crc32CheckSum st end.
Proof.
  unfold buffered, header_read.
  destruct (checksum f), (packetNumber f =? 0); repeat split.
Qed.

(** When the datagram that completes a compressed response is stored and
    the assembled bytes decompress, the CRC-32 of the decompressed bytes is
    what is compared with the retained checksum: if they differ the handler
    raises the checksum-mismatch error and the promise is left as it was, with
    no result; if they agree the decompressed bytes go to the decoder.  The
    checksum of the bytes as received plays no part. *)
Lemma checksum_mismatch (fuel : nat) (message : Buffer) (st : state)
  (f : fragment) (decompressed : Buffer) :
  classify (goldSource st) (orangeBox st) message = Fragment f ->
  Z.of_nat (length (Object_keys (packets (buffered f message st))))
    = totalPackets f ->
  compressed f = true ->
  Bunzip_decode (assembled (buffered f message st)) = Some decompressed ->
  let retained := crc32CheckSum (buffered f message st) in
  (crc32_buf decompressed <> retained ->
   exists st',
     onMessage (S fuel) message st
     = Throws (ChecksumMismatch retained (crc32_buf decompressed)) st'
     /\ promise st' = promise st
     /\ closed st' = closed st
     /\ sent st' = sent st)
  /\ (crc32_buf decompressed = retained ->
      onMessage (S fuel) message st
      = dispatch decompressed
          (log (PayloadDecompressed decompressed)
             (log (Payload (assembled (buffered f message st)))
                (buffered f message st)))).
Proof.
  intros Hclass Hcount Hcomp Hdec retained.
  rewrite (onMessage_fragment fuel message st f Hclass).
  rewrite Hcount, Z.eqb_refl. unfold reassemble.
  destruct (buffered_fields f message st)
    as (_ & Hic & _ & _ & Hp & Hcl & Hs & _ & _).
  cbn [isCompressed log crc32CheckSum]. rewrite Hic, Hcomp.
  fold (assembled (buffered f message st)). rewrite Hdec.
  fold retained. split.
  - intros Hne. apply Z.eqb_neq in Hne. rewrite Hne. cbn [negb].
    eexists. split; [reflexivity|]. cbn [promise closed sent log].
    repeat split; assumption.
  - intros Heq. apply Z.eqb_eq in Heq. rewrite Heq. reflexivity.
Qed.

(* ================================================================= *)
(** ** The trace *)

Lemma traced_log (prefix : list trace_line) (st : state) (line : trace_line) :
  traced prefix st -> traced prefix (log line st).
Proof.
  intros [lines H]. exists (lines ++ [line]). cbn [trace log].
  rewrite H, app_assoc. reflexivity.
Qed.

Lemma traced_settle (prefix : list trace_line) :
  (forall st data, traced prefix st ->
     ends_in (traced prefix) (socket_close (resolve data st)))
  /\ (forall st err, traced prefix st ->
        ends_in (traced prefix) (socket_close (reject err st))).
Proof.
  split; intros st x H; unfold socket_close.
  - destruct (resolve_fields x st) as (_ & _ & _ & _ & _ & _ & Hc & _ & Ht).
    rewrite Hc. destruct (closed st); cbn [ends_in]; unfold traced;
      cbn [trace with_closed]; rewrite Ht; exact H.
  - destruct (reject_fields x st) as (_ & _ & _ & _ & _ & _ & Hc & _ & Ht).
    rewrite Hc. destruct (closed st); cbn [ends_in]; unfold traced;
      cbn [trace with_closed]; rewrite Ht; exact H.
Qed.

Lemma Forall_True {A} (l : list A) : Forall (fun _ => True) l.
Proof. induction l; constructor; auto. Qed.

(** A handler only adds lines to the trace. *)
Lemma onMessage_traced (prefix : list trace_line) (fuel : nat)
  (message : Buffer) (st : state) :
  traced prefix st -> ends_in (traced prefix) (onMessage fuel message st).
Proof.
  intros H.
  apply (onMessage_invariant (fun _ => True) (traced prefix)); auto;
    try (intros; assumption);
    try apply traced_settle.
  - intros; apply Forall_True.
  - intros; apply traced_log; assumption.
  - intros s m Hs _ _ _.
    apply (sendRequest_invariant (traced prefix)); auto.
    intros; apply traced_log; assumption.
Qed.

(** It starts by logging the datagram it was given. *)
Lemma onMessage_traced_Recv (fuel : nat) (message : Buffer) (st : state) :
  ends_in (traced (trace st ++ [Recv message])) (onMessage (S fuel) message st).
Proof.
  apply (onMessage_invariant_step (fun _ => True) (traced (trace st ++ [Recv message])));
    auto; try (intros; assumption); try apply traced_settle.
  - intros; apply Forall_True.
  - intros; apply traced_log; assumption.
  - intros s m Hs _ _ _.
    apply (sendRequest_invariant (traced (trace st ++ [Recv message]))); auto.
    intros; apply traced_log; assumption.
  - intros m s _ Hs. apply onMessage_traced. exact Hs.
  - exists []. cbn [trace log]. rewrite app_nil_r. reflexivity.
Qed.

Lemma logged_traced (line : trace_line) (before : list trace_line) (st0 st : state) :
  traced (trace st0 ++ before ++ [line]) st -> logged line st0 st.
Proof.
  intros [lines H]. exists before, lines. rewrite H.
  rewrite <- !app_assoc. reflexivity.
Qed.

Lemma logged_later (line : trace_line) (st0 st1 st : state) :
  logged line st1 st -> traced (trace st0) st1 -> logged line st0 st.
Proof.
  intros (before & after & H) [lines H1].
  exists (lines ++ before), after. rewrite H, H1, <- !app_assoc. reflexivity.
Qed.

Lemma logged_earlier (line : trace_line) (st0 st1 st : state) :
  logged line st0 st1 -> traced (trace st1) st -> logged line st0 st.
Proof.
  intros (before & after & H) [lines H1].
  exists before, (after ++ lines). rewrite H1, H, <- !app_assoc. reflexivity.
Qed.

(** [forEach] over the handler: when it returns, every entry was handed to
    [onMessage]. *)
Lemma forEach_Recv (fuel : nat) (entries : list Buffer) :
  forall st st',
    forEach (onMessage fuel) entries st = Returns st' ->
    traced (trace st) st'
    /\ forall e, In e entries -> logged (Recv e) st st'.
Proof.
  induction entries as [|m rest IH]; intros st st' H; cbn [forEach] in H.
  - injection H as <-. split; [exists []; rewrite app_nil_r; reflexivity|].
    intros e [].
  - destruct fuel as [|fuel]; [discriminate H|].
    pose proof (onMessage_traced_Recv fuel m st) as Hm.
    destruct (onMessage (S fuel) m st) as [st1| |] eqn:E; try discriminate H.
    cbn [ends_in] in Hm. destruct (IH st1 st' H) as [Ht Hin].
    assert (Hst1 : traced (trace st) st1).
    { destruct Hm as [lines Hl]. exists (Recv m :: lines).
      rewrite Hl, <- app_assoc. reflexivity. }
    split.
    + destruct Ht as [l1 H1], Hst1 as [l0 H0]. exists (l0 ++ l1).
      rewrite H1, H0, app_assoc. reflexivity.
    + intros e [<-|He].
      * apply (logged_earlier _ st st1 st'); [|exact Ht].
        apply (logged_traced (Recv m) []). exact Hm.
      * apply (logged_later _ st st1 st'); [apply Hin; exact He|exact Hst1].
Qed.

(** [reload] hands every buffered datagram, and the one it was given, to
    [onMessage] again. *)
Lemma reload_Recv (fuel : nat) (message : option Buffer) (st st' : state) :
  reload (onMessage fuel) message st = Returns st' ->
  logged PacketReload st st'
  /\ forall e,
       In e (Object_values (packets st) ++ optional message) ->
       logged (Recv e) st st'.
Proof.
  unfold reload. intros H.
  apply forEach_Recv in H. destruct H as [Ht Hin].
  assert (Hst : traced (trace st) (with_packets [] (log PacketReload st))).
  { exists [PacketReload]. reflexivity. }
  split.
  - apply (logged_earlier _ st (with_packets [] (log PacketReload st)) st');
      [|exact Ht].
    exists [], []. reflexivity.
  - intros e He.
    apply (logged_later _ st (with_packets [] (log PacketReload st)) st');
      [|exact Hst].
    apply Hin. cbn [packets log].
    destruct message; cbn [optional] in He; rewrite ?app_nil_r in He; exact He.
Qed.

(* ================================================================= *)
(** ** Demotion of the dialect flags *)

Lemma ends_in_final (Q : state -> Prop) (c : completion) (st : state) :
  ends_in Q c -> final c st -> Q st.
Proof.
  intros H [->|[err ->]]; exact H.
Qed.

Lemma flags_settle (gold orange : bool) :
  (forall st data, flags gold orange st ->
     ends_in (flags gold orange) (socket_close (resolve data st)))
  /\ (forall st err, flags gold orange st ->
        ends_in (flags gold orange) (socket_close (reject err st))).
Proof.
  split; intros st x H; unfold socket_close.
  - destruct (resolve_fields x st) as (_ & _ & _ & _ & Hg & Ho & Hc & _ & _).
    rewrite Hc. destruct (closed st); cbn [ends_in]; unfold flags;
      cbn [goldSource orangeBox with_closed]; rewrite Hg, Ho; exact H.
  - destruct (reject_fields x st) as (_ & _ & _ & _ & Hg & Ho & Hc & _ & _).
    rewrite Hc. destruct (closed st); cbn [ends_in]; unfold flags;
      cbn [goldSource orangeBox with_closed]; rewrite Hg, Ho; exact H.
Qed.

Lemma sendRequest_flags (gold orange : bool) (challenge : option Buffer) (st : state) :
  flags gold orange st -> ends_in (flags gold orange) (sendRequest challenge st).
Proof.
  intros H. apply (sendRequest_invariant (flags gold orange)); auto.
Qed.

Lemma dispatch_flags (gold orange : bool) (payload : Buffer) (st : state) :
  flags gold orange st -> ends_in (flags gold orange) (dispatch payload st).
Proof.
  intros H. apply dispatch_invariant; auto. apply flags_settle.
Qed.

Lemma flags_not_demoted (st st' : state) :
  flags (goldSource st) (orangeBox st) st' -> ~ demoted st st'.
Proof.
  intros [Hg Ho] [[H1 H2]|[H1 H2]]; congruence.
Qed.

Lemma packets_set_others (key : Z) (value : Buffer) (o : list (Z * Buffer))
  (k : Z) (v : Buffer) :
  In (k, v) o -> k <> key -> In (k, v) (packets_set key value o).
Proof.
  induction o as [|[k0 v0] rest IH]; intros Hin Hne; [destruct Hin|].
  cbn [packets_set].
  destruct (key =? k0) eqn:E1; [|destruct (key <? k0) eqn:E2].
  - apply Z.eqb_eq in E1. subst k0. destruct Hin as [Heq|Hin].
    + injection Heq as -> ->. contradiction.
    + right. exact Hin.
  - right. exact Hin.
  - destruct Hin as [Heq|Hin]; [left; exact Heq|right; apply IH; assumption].
Qed.

(** A handler that returns after a demotion has handed again to [onMessage]
    every datagram that was buffered when it started, but the one that the
    datagram it was called with replaces. *)
Lemma demotion_redelivers (fuel : nat) (message : Buffer) (st st' : state) :
  onMessage fuel message st = Returns st' ->
  demoted st st' ->
  logged PacketReload st st'
  /\ forall k e,
       In (k, e) (packets st) ->
       (forall f, classify (goldSource st) (orangeBox st) message = Fragment f ->
                  packetNumber f <> k) ->
       logged (Recv e) st st'.
Proof.
  destruct fuel as [|fuel]; [discriminate|].
  intros H Hdem.
  assert (Hsame : forall c,
             ends_in (flags (goldSource st) (orangeBox st)) c ->
             c = Returns st' -> False).
  { intros c Hc ->. exact (flags_not_demoted st st' Hc Hdem). }
  assert (Hfl : forall line, flags (goldSource st) (orangeBox st) (log line st))
    by (split; reflexivity).
  assert (Hagain : forall msg stX,
             packets stX = packets st ->
             traced (trace st) stX ->
             reload (onMessage fuel) msg stX = Returns st' ->
             logged PacketReload st st'
             /\ forall k e, In (k, e) (packets st) -> logged (Recv e) st st').
  { intros msg stX Hpk Htr Hrl. destruct (reload_Recv fuel msg stX st' Hrl) as [Hr Hall].
    split.
    - exact (logged_later _ st stX st' Hr Htr).
    - intros k e Hin. apply (logged_later _ st stX st'); [|exact Htr].
      apply Hall. apply in_or_app. left. rewrite Hpk.
      unfold Object_values. change e with (snd (k, e)). apply in_map. exact Hin. }
  rewrite onMessage_classify in H. cbv zeta in H.
  cbn [goldSource orangeBox log] in H.
  destruct (classify (goldSource st) (orangeBox st) message) as
    [assigned detected|token| | |c|c|f] eqn:Hclass.
  - discriminate H.
  - exfalso. revert H. apply Hsame.
    destruct (Nat.ltb _ _).
    + apply sendRequest_flags. split; reflexivity.
    + apply flags_settle. apply Hfl.
  - exfalso. revert H. apply Hsame. apply dispatch_flags. apply Hfl.
  - exfalso. revert H. apply Hsame. apply flags_settle. apply Hfl.
  - apply Hagain in H; [| reflexivity |].
    + destruct H as [Hr Hall]. split; [exact Hr|].
      intros k e Hin _. exact (Hall k e Hin).
    + exists [Recv message; ObsoleteGoldSourceDetected].
      cbn [trace with_goldSource log with_isCompressed].
      rewrite <- app_assoc. reflexivity.
  - apply Hagain in H; [| reflexivity |].
    + destruct H as [Hr Hall]. split; [exact Hr|].
      intros k e Hin _. exact (Hall k e Hin).
    + exists [Recv message; BelowOrangeBoxDetected].
      cbn [trace with_orangeBox log with_isCompressed].
      rewrite <- app_assoc. reflexivity.
  - fold (store (reload (onMessage fuel)) message (totalPackets f) (packetNumber f)
            (header_read f (log (Recv message) st))) in H.
    change (store (reload (onMessage fuel)) message (totalPackets f)
              (packetNumber f) (header_read f (log (Recv message) st)))
      with (if Z.of_nat (length (Object_keys (packets (buffered f message st))))
               =? totalPackets f
            then reassemble (reload (onMessage fuel)) (buffered f message st)
            else Returns (buffered f message st)) in H.
    destruct (buffered_fields f message st)
      as (_ & _ & Hg & Ho & _ & _ & _ & Hpk & _).
    assert (Hbf : flags (goldSource st) (orangeBox st) (buffered f message st))
      by (split; assumption).
    destruct (_ =? totalPackets f).
    2:{ exfalso. revert H. apply Hsame. exact Hbf. }
    unfold reassemble in H. cbn [isCompressed log orangeBox crc32CheckSum] in H.
    assert (Hbl : forall line1 line2,
               flags (goldSource st) (orangeBox st)
                 (log line2 (log line1 (buffered f message st))))
      by (intros; exact Hbf).
    destruct (isCompressed (buffered f message st)).
    2:{ exfalso. revert H. apply Hsame. apply dispatch_flags. exact Hbf. }
    destruct (Bunzip_decode _) as [d|].
    { exfalso. revert H. apply Hsame.
      match goal with |- context [negb ?b] => destruct b end; cbn [negb].
      - apply dispatch_flags. apply Hbl.
      - exact Hbf. }
    destruct (orangeBox (buffered f message st)); cbn [negb] in H; [|discriminate H].
    apply reload_Recv in H. destruct H as [Hr Hall].
    match type of Hr with logged _ ?s _ => set (stX := s) in * end.
    assert (Htr : traced (trace st) stX).
    { subst stX. unfold traced, buffered, header_read. cbn [trace with_orangeBox log].
      destruct (checksum f), (packetNumber f =? 0);
        cbn [trace with_packets log with_crc32CheckSum with_isCompressed];
        rewrite <- ?app_assoc; eexists; reflexivity. }
    split; [exact (logged_later _ st stX st' Hr Htr)|].
    intros k e Hin Hne.
    apply (logged_later _ st stX st'); [|exact Htr].
    apply Hall. cbn [optional]. rewrite app_nil_r.
    subst stX. cbn [packets with_orangeBox log]. rewrite Hpk.
    unfold Object_values. change e with (snd (k, e)). apply in_map.
    apply packets_set_others; [exact Hin|].
    intros Heq. exact (Hne f eq_refl (eq_sym Heq)).
Qed.

Lemma no_promotion_settle (st0 : state) :
  (forall st data, no_promotion st0 st ->
     ends_in (no_promotion st0) (socket_close (resolve data st)))
  /\ (forall st err, no_promotion st0 st ->
        ends_in (no_promotion st0) (socket_close (reject err st))).
Proof.
  split; intros s x Hs; unfold socket_close, resolve, reject;
    destruct (promise s); cbn [closed with_promise]; destruct (closed s); exact Hs.
Qed.

Lemma handle_no_promotion (fuel : nat) (ev : event) (st0 st : state) :
  no_promotion st0 st -> ends_in (no_promotion st0) (handle fuel ev st).
Proof.
  intros H. unfold handle. destruct (closed st) eqn:Hc; [exact H|].
  destruct ev as [message| |err].
  - apply onMessage_no_promotion. exact H.
  - apply no_promotion_settle. exact H.
  - apply no_promotion_settle. exact H.
Qed.

Lemma run_no_promotion (fuel : nat) (events : list event) :
  forall st0 st, no_promotion st0 st -> ends_in (no_promotion st0) (run fuel events st).
Proof.
  induction events as [|ev rest IH]; intros st0 st H; cbn [run]; [exact H|].
  pose proof (handle_no_promotion fuel ev st0 st H) as Hev.
  destruct (handle fuel ev st); cbn [ends_in] in *; auto.
Qed.

(** Whatever events a call receives, a dialect flag that is demoted stays
    demoted: no handler turns [goldSource] off again or [orangeBox] on again.
    And a handler that demotes a flag and returns has gone through [reload],
    which has handed to [onMessage] again every datagram buffered at that
    moment, not only the one just received.  (A handler that raises has
    stopped at the datagram that made it raise.) *)
Lemma dialect_demotion :
  (forall fuel events st, ends_in (no_promotion st) (run fuel events st))
  /\ (forall fuel message st st',
        onMessage fuel message st = Returns st' ->
        demoted st st' ->
        logged PacketReload st st'
        /\ forall k e,
             In (k, e) (packets st) ->
             (forall f, classify (goldSource st) (orangeBox st) message = Fragment f ->
                        packetNumber f <> k) ->
             logged (Recv e) st st')
  /\ (forall fuel message st st',
        reload (onMessage fuel) message st = Returns st' ->
        forall e,
          In e (Object_values (packets st) ++ optional message) ->
          logged (Recv e) st st').
Proof.
  split; [|split].
  - intros fuel events st. apply run_no_promotion. apply no_promotion_refl.
  - exact demotion_redelivers.
  - intros fuel message st st' H. exact (proj2 (reload_Recv fuel message st st' H)).
Qed.

(* ================================================================= *)
(** ** The buffered packets *)

Lemma packets_set_In (key : Z) (value : Buffer) (o : list (Z * Buffer))
  (k : Z) (v : Buffer) :
  In (k, v) (packets_set key value o) -> (k, v) = (key, value) \/ In (k, v) o.
Proof.
  induction o as [|[k0 v0] rest IH]; cbn [packets_set].
  - intros [H|[]]. left. symmetry. exact H.
  - destruct (key =? k0); [|destruct (key <? k0)].
    + intros [H|H]; [left; symmetry; exact H|right; right; exact H].
    + intros [H|H]; [left; symmetry; exact H|right; exact H].
    + intros [H|H]; [right; left; exact H|].
      destruct (IH H) as [H'|H']; [left; exact H'|right; right; exact H'].
Qed.

Lemma packets_set_keys (key : Z) (value : Buffer) (o : list (Z * Buffer)) (k : Z) :
  In k (Object_keys (packets_set key value o)) -> k = key \/ In k (Object_keys o).
Proof.
  unfold Object_keys. intros H. apply in_map_iff in H.
  destruct H as ([k' v'] & Hk & Hin). cbn in Hk. subst k'.
  apply packets_set_In in Hin. destruct Hin as [Heq|Hin].
  - left. congruence.
  - right. apply in_map_iff. exists (k, v'). split; [reflexivity|exact Hin].
Qed.

Lemma packets_set_ascending (key : Z) (value : Buffer) (o : list (Z * Buffer)) :
  ascending o -> ascending (packets_set key value o).
Proof.
  unfold ascending. induction o as [|[k0 v0] rest IH]; intros H; cbn [packets_set].
  - cbn. constructor; constructor.
  - cbn [Object_keys map fst] in H. apply StronglySorted_inv in H.
    destruct H as [Hrest Hall].
    destruct (key =? k0) eqn:E1; [|destruct (key <? k0) eqn:E2].
    + apply Z.eqb_eq in E1. subst k0. cbn. constructor; assumption.
    + apply Z.ltb_lt in E2. cbn. constructor.
      * constructor; assumption.
      * constructor; [exact E2|].
        eapply Forall_impl; [|exact Hall]. intros a Ha. cbn in Ha. lia.
    + apply Z.eqb_neq in E1. apply Z.ltb_ge in E2.
      cbn [Object_keys map fst]. constructor.
      * apply IH. exact Hrest.
      * apply Forall_forall. intros k Hk.
        apply packets_set_keys in Hk. destruct Hk as [->|Hk]; [lia|].
        rewrite Forall_forall in Hall. apply Hall. exact Hk.
Qed.

(** Keys in ascending order from [lo] to below [hi] are at most [hi - lo]. *)
Lemma ascending_length (keys : list Z) :
  StronglySorted Z.lt keys ->
  forall lo hi, Forall (fun k => lo <= k < hi) keys ->
  Z.of_nat (length keys) <= Z.max 0 (hi - lo).
Proof.
  induction keys as [|k rest IH]; intros Hs lo hi Hr; cbn [length].
  - lia.
  - apply StronglySorted_inv in Hs. destruct Hs as [Hs Hall].
    inversion Hr as [|? ? Hk Hrest]; subst.
    assert (Hrest' : Forall (fun k' => k + 1 <= k' < hi) rest).
    { rewrite Forall_forall in *. intros x Hx.
      specialize (Hall x Hx). specialize (Hrest x Hx). lia. }
    specialize (IH Hs (k + 1) hi Hrest'). lia.
Qed.

Lemma within_length (bound : Z) (st : state) :
  within bound st ->
  Z.of_nat (length (Object_keys (packets st))) <= Z.max 0 bound.
Proof.
  intros [Hasc Hin].
  pose proof (ascending_length _ Hasc 0 bound) as H.
  rewrite Z.sub_0_r in H. apply H.
  apply Forall_forall. intros k Hk. unfold Object_keys in Hk.
  apply in_map_iff in Hk. destruct Hk as ([k' v] & Heq & Hkv). cbn in Heq. subst k'.
  apply (Hin k v Hkv).
Qed.

Lemma u8_range (b : byte) : 0 <= u8 b < 256.
Proof.
  unfold u8. pose proof (Byte.to_N_bounded b). lia.
Qed.

Lemma readUint8_range (r r' : BufferReader) (v : Z) :
  readUint8 r = Some (v, r') -> 0 <= v < 256.
Proof.
  unfold readUint8, advancing, Buf.readUIntLE, Buf.octets.
  destruct (firstn 1 (skipn (offset r) (buffer r))) as [|b [|? ?]] eqn:E;
    cbn; try discriminate.
  intros H. injection H as <- _. pose proof (u8_range b). lia.
Qed.

(** The packet number read from a datagram is not negative. *)
Lemma packetNumber_nonneg (gold orange : bool) (message : Buffer) (f : fragment) :
  classify gold orange message = Fragment f -> 0 <= packetNumber f.
Proof.
  unfold classify.
  repeat match goal with
         | |- context [match ?x with _ => _ end] => destruct x eqn:?
         end; try discriminate;
    intros H; injection H as <-; cbn [packetNumber];
    try (apply Z.land_nonneg; right; lia);
    match goal with
    | H : readUint8 _ = Some (?v, _) |- 0 <= ?v =>
        apply readUint8_range in H; lia
    end.
Qed.

Lemma within_settle (bound : Z) :
  (forall st data, within bound st ->
     ends_in (within bound) (socket_close (resolve data st)))
  /\ (forall st err, within bound st ->
        ends_in (within bound) (socket_close (reject err st))).
Proof.
  split; intros s x Hs; unfold socket_close, resolve, reject;
    destruct (promise s); cbn [closed with_promise]; destruct (closed s); exact Hs.
Qed.

Lemma within_stored (bound : Z) (st : state) (message : Buffer) (f : fragment) :
  within bound st -> numbered_below bound message ->
  classify (goldSource st) (orangeBox st) message = Fragment f ->
  within bound
    (with_packets (packets_set (packetNumber f) message (packets st)) st).
Proof.
  intros [Hasc Hin] Hm Hclass. split; cbn [packets with_packets].
  - apply packets_set_ascending. exact Hasc.
  - intros k v Hkv. apply packets_set_In in Hkv. destruct Hkv as [Heq|Hkv].
    + injection Heq as -> ->. split; [|exact Hm]. split.
      * exact (packetNumber_nonneg _ _ _ _ Hclass).
      * exact (Hm _ _ _ Hclass).
    + exact (Hin k v Hkv).
Qed.

(** The handler keeps the buffered packet numbers below the bound. *)
Lemma onMessage_within (bound : Z) (fuel : nat) (message : Buffer) (st : state) :
  numbered_below bound message -> within bound st ->
  ends_in (within bound) (onMessage fuel message st).
Proof.
  intros Hm Hst.
  apply (onMessage_invariant (numbered_below bound) (within bound)); auto;
    try (intros; assumption); try apply within_settle.
  - intros s [_ Hin]. apply Forall_forall. intros v Hv.
    unfold Object_values in Hv. apply in_map_iff in Hv.
    destruct Hv as ([k v'] & Heq & Hkv). cbn in Heq. subst v'.
    apply (Hin k v Hkv).
  - intros s _. split; [constructor|intros k v []].
  - intros s m f. apply within_stored.
  - intros s m Hs _ _ _.
    apply (sendRequest_invariant (within bound)); auto.
Qed.

Lemma run_within (bound : Z) (fuel : nat) (events : list event) :
  forall st,
    (forall m, In (Datagram m) events -> numbered_below bound m) ->
    within bound st ->
    ends_in (within bound) (run fuel events st).
Proof.
  induction events as [|ev rest IH]; intros st Hev Hst; cbn [run]; [exact Hst|].
  assert (Hstep : ends_in (within bound) (handle fuel ev st)).
  { unfold handle. destruct (closed st); [exact Hst|].
    destruct ev as [m| |err].
    - apply onMessage_within; [|exact Hst]. apply Hev. left. reflexivity.
    - apply within_settle. exact Hst.
    - apply within_settle. exact Hst. }
  destruct (handle fuel ev st); cbn [ends_in] in *; auto.
  apply IH; [|exact Hstep]. intros m Hm. apply Hev. right. exact Hm.
Qed.

Lemma socket_close_trace (st st' : state) :
  final (socket_close st) st' -> trace st' = trace st.
Proof.
  unfold socket_close. destruct (closed st); intros [H|[err H]];
    try discriminate H; injection H; intros; subst; reflexivity.
Qed.

Lemma dispatch_trace (payload : Buffer) (st st' : state) :
  final (dispatch payload st) st' -> trace st' = trace st.
Proof.
  unfold dispatch. destruct (parseResponse payload) as [err|data].
  - intros [H|[err' H]]; try discriminate H. injection H as _ <-. reflexivity.
  - intros H. apply socket_close_trace in H. rewrite H.
    apply (resolve_fields data st).
Qed.

Lemma dispatch_final (payload : Buffer) (st : state) :
  exists st', final (dispatch payload st) st'.
Proof.
  unfold dispatch, socket_close, final.
  destruct (parseResponse payload); [eauto|].
  destruct (closed _); eauto.
Qed.

Lemma reassemblies_app (l1 l2 : list trace_line) :
  reassemblies (l1 ++ l2) = (reassemblies l1 + reassemblies l2)%nat.
Proof.
  induction l1 as [|line rest IH]; [reflexivity|].
  destruct line; cbn [app reassemblies]; rewrite IH; reflexivity.
Qed.

Lemma buffered_trace (f : fragment) (message : Buffer) (st : state) :
  exists lines,
    trace (buffered f message st) = trace st ++ lines /\ reassemblies lines = 0%nat.
Proof.
  unfold buffered, header_read.
  destruct (checksum f), (packetNumber f =? 0);
    cbn [trace with_packets log with_crc32CheckSum with_isCompressed];
    rewrite <- ?app_assoc; eexists; (split; [reflexivity|reflexivity]).
Qed.

(** What the datagram that is stored does to the trace: no reassembly while
    the count of buffered packets differs from the total it declares, and one
    reassembly when they are equal, unless decompression fails while
    [orangeBox] is set. *)
Lemma fragment_reassemblies (fuel : nat) (message : Buffer) (st : state) (f : fragment) :
  classify (goldSource st) (orangeBox st) message = Fragment f ->
  let count := Z.of_nat (length (Object_keys (packets (buffered f message st)))) in
  (count <> totalPackets f ->
   onMessage (S fuel) message st = Returns (buffered f message st)
   /\ exists lines,
        trace (buffered f message st) = trace st ++ lines
        /\ reassemblies lines = 0%nat)
  /\ (count = totalPackets f ->
      (compressed f = true -> orangeBox st = true ->
       Bunzip_decode (assembled (buffered f message st)) <> None) ->
      exists st' lines,
        final (onMessage (S fuel) message st) st'
        /\ trace st' = trace st ++ lines
        /\ reassemblies lines = 1%nat).
Proof.
  intros Hclass count.
  rewrite (onMessage_fragment fuel message st f Hclass). fold count.
  destruct (buffered_trace f message st) as (lines & Hlines & Hzero).
  destruct (buffered_fields f message st)
    as (_ & Hic & _ & Ho & _ & _ & _ & _ & _).
  split.
  - intros Hne. apply Z.eqb_neq in Hne. rewrite Hne.
    split; [reflexivity|]. exists lines. split; assumption.
  - intros Heq Hdec. rewrite Heq, Z.eqb_refl. unfold reassemble.
    cbn [isCompressed log orangeBox crc32CheckSum].
    fold (assembled (buffered f message st)).
    set (p := assembled (buffered f message st)) in *.
    assert (Hone : forall st1 more,
               trace st1 = trace (buffered f message st) ++ Payload p :: more ->
               reassemblies more = 0%nat ->
               exists lines',
                 trace st1 = trace st ++ lines' /\ reassemblies lines' = 1%nat).
    { intros st1 more Ht Hm. exists (lines ++ Payload p :: more).
      rewrite Ht, Hlines, <- app_assoc. split; [reflexivity|].
      rewrite reassemblies_app. cbn [reassemblies]. lia. }
    assert (Hdisp : forall payload st1 more,
               trace st1 = trace (buffered f message st) ++ Payload p :: more ->
               reassemblies more = 0%nat ->
               exists st' lines',
                 final (dispatch payload st1) st'
                 /\ trace st' = trace st ++ lines' /\ reassemblies lines' = 1%nat).
    { intros payload st1 more Ht Hm.
      destruct (dispatch_final payload st1) as [st' Hf].
      destruct (Hone st1 more Ht Hm) as (lines' & Hl & Hr).
      exists st', lines'. split; [exact Hf|]. split; [|exact Hr].
      rewrite (dispatch_trace _ _ _ Hf). exact Hl. }
    rewrite Hic. destruct (compressed f) eqn:Hc.
    + rewrite Ho. destruct (Bunzip_decode p) as [d|] eqn:Hd.
      * match goal with |- context [negb ?b] => destruct b end; cbn [negb].
        -- apply (Hdisp d _ [PayloadDecompressed d]); [|reflexivity].
           cbn [trace log]. rewrite <- app_assoc. reflexivity.
        -- destruct (Hone (log (PayloadDecompressed d)
                             (log (Payload p) (buffered f message st)))
                       [PayloadDecompressed d]) as (lines' & Hl & Hr);
             [cbn [trace log]; rewrite <- app_assoc; reflexivity|reflexivity|].
           eexists; exists lines'. split; [right; eexists; reflexivity|].
           split; assumption.
      * destruct (orangeBox st) eqn:Hob; cbn [negb].
        -- exfalso. exact (Hdec eq_refl eq_refl eq_refl).
        -- destruct (Hone (log (Payload p) (buffered f message st)) [])
             as (lines' & Hl & Hr); [reflexivity|reflexivity|].
           eexists; exists lines'. split; [right; eexists; reflexivity|].
           split; assumption.
    + apply (Hdisp p _ []); reflexivity.
Qed.

Lemma get_returns :
  exists st0,
    get = Returns st0
    /\ retryCount st0 = 0%nat /\ packets st0 = [] /\ isCompressed st0 = false
    /\ goldSource st0 = false /\ orangeBox st0 = true
    /\ promise st0 = Pending /\ closed st0 = false.
Proof.
  unfold get, sendRequest, socket_send. cbn [closed fresh log].
  eexists. split; [reflexivity|]. repeat split.
Qed.

(** C7, as the code has it.  While every datagram received declares, under
    either framing, a packet number below [bound], the call never buffers
    more than [bound] packet numbers.  The count of buffered numbers is
    compared with the total declared by the datagram just stored.  While
    they differ nothing is reassembled and the handler returns.  When they
    are equal the handler reassembles, and it does so exactly once unless
    decompression fails while [orangeBox] is still set.  In that last case,
    after the one reassembly that failed, the handler clears [orangeBox],
    empties the buffer and hands the datagrams that were buffered to
    [onMessage] again, one after the other, each to be stored and counted
    afresh. *)
Theorem buffered_count (bound : Z) (fuel : nat) :
  0 <= bound ->
  (forall events st0 st',
     get = Returns st0 ->
     (forall m, In (Datagram m) events -> numbered_below bound m) ->
     final (run fuel events st0) st' ->
     Z.of_nat (length (Object_keys (packets st'))) <= bound)
  /\ (forall message st f,
        classify (goldSource st) (orangeBox st) message = Fragment f ->
        let count :=
          Z.of_nat (length (Object_keys (packets (buffered f message st)))) in
        (count <> totalPackets f ->
         onMessage (S fuel) message st = Returns (buffered f message st)
         /\ exists lines,
              trace (buffered f message st) = trace st ++ lines
              /\ reassemblies lines = 0%nat)
        /\ (count = totalPackets f ->
            (compressed f = true -> orangeBox st = true ->
             Bunzip_decode (assembled (buffered f message st)) <> None) ->
            exists st' lines,
              final (onMessage (S fuel) message st) st'
              /\ trace st' = trace st ++ lines
              /\ reassemblies lines = 1%nat)
        /\ (count = totalPackets f ->
            compressed f = true -> orangeBox st = true ->
            Bunzip_decode (assembled (buffered f message st)) = None ->
            exists st1 lines,
              onMessage (S fuel) message st
              = forEach (onMessage fuel)
                  (Object_values (packets (buffered f message st))) st1
              /\ packets st1 = []
              /\ orangeBox st1 = false
              /\ goldSource st1 = goldSource st
              /\ trace st1 = trace st ++ lines
              /\ reassemblies lines = 1%nat)).
Proof.
  intros Hbound. split.
  - intros events st0 st' Hget Hev Hfinal.
    destruct get_returns as (st0' & Hget' & _ & Hpk & _).
    rewrite Hget in Hget'. injection Hget' as <-.
    assert (Hst0 : within bound st0).
    { split; rewrite Hpk; [constructor|intros k v []]. }
    pose proof (run_within bound fuel events st0 Hev Hst0) as Hrun.
    pose proof (ends_in_final _ _ _ Hrun Hfinal) as Hw.
    apply within_length in Hw. lia.
  - intros message st f Hclass count.
    destruct (fragment_reassemblies fuel message st f Hclass) as [Hdiff Hsame].
    split; [exact Hdiff|]. split; [exact Hsame|].
    intros Heq Hcomp Hob Hdec.
    rewrite (onMessage_fragment fuel message st f Hclass).
    fold count. rewrite Heq, Z.eqb_refl. unfold reassemble.
    destruct (buffered_fields f message st)
      as (_ & Hic & Hg & Ho & _ & _ & _ & _ & _).
    destruct (buffered_trace f message st) as (lines & Hlines & Hzero).
    cbn [isCompressed log orangeBox]. rewrite Hic, Hcomp.
    fold (assembled (buffered f message st)). rewrite Hdec, Ho, Hob.
    cbn [negb]. unfold reload. cbn [packets log with_orangeBox].
    eexists.
    exists (lines ++ [Payload (assembled (buffered f message st));
                      BelowOrangeBoxDetected; PacketReload]).
    split; [reflexivity|].
    cbn [packets orangeBox goldSource trace with_packets with_orangeBox log].
    split; [reflexivity|]. split; [reflexivity|]. split; [exact Hg|]. split.
    + rewrite Hlines, <- !app_assoc. reflexivity.
    + rewrite reassemblies_app, Hzero. reflexivity.
Qed.

(* ================================================================= *)
(** ** The trace decides nothing *)

Ltac same_fields H :=
  match type of H with
  | untraced ?a = untraced ?b =>
      destruct a, b; cbn in H; injection H; intros; subst
  end.

Lemma same_outcome_refl (c : completion) : same_outcome c c.
Proof. destruct c; cbn; auto. Qed.

Lemma same_outcome_trans (a b c : completion) :
  same_outcome a b -> same_outcome b c -> same_outcome a c.
Proof.
  destruct a, b, c; cbn; try tauto; try congruence.
  intros [-> ->] [-> ->]. auto.
Qed.

Lemma untraced_log (st st' : state) (line line' : trace_line) :
  untraced st = untraced st' -> untraced (log line st) = untraced (log line' st').
Proof. intros H. same_fields H. reflexivity. Qed.

Lemma socket_close_untraced (st st' : state) :
  untraced st = untraced st' ->
  same_outcome (socket_close st) (socket_close st').
Proof.
  intros H. same_fields H. unfold socket_close. cbn [closed].
  match goal with |- context [if ?b then _ else _] => destruct b end; cbn; auto.
Qed.

Lemma resolve_untraced (data : response) (st st' : state) :
  untraced st = untraced st' ->
  untraced (resolve data st) = untraced (resolve data st').
Proof.
  intros H. same_fields H. unfold resolve. cbn [promise].
  match goal with |- context [match ?p with _ => _ end] => destruct p end;
    reflexivity.
Qed.

Lemma reject_untraced (err : error) (st st' : state) :
  untraced st = untraced st' ->
  untraced (reject err st) = untraced (reject err st').
Proof.
  intros H. same_fields H. unfold reject. cbn [promise].
  match goal with |- context [match ?p with _ => _ end] => destruct p end;
    reflexivity.
Qed.

Lemma sendRequest_untraced (challenge : option Buffer) (st st' : state) :
  untraced st = untraced st' ->
  same_outcome (sendRequest challenge st) (sendRequest challenge st').
Proof.
  intros H. same_fields H. unfold sendRequest, socket_send. cbn [closed log].
  match goal with |- context [if ?b then _ else _] => destruct b end; cbn; auto.
Qed.

Lemma dispatch_untraced (payload : Buffer) (st st' : state) :
  untraced st = untraced st' ->
  same_outcome (dispatch payload st) (dispatch payload st').
Proof.
  intros H. unfold dispatch. destruct (parseResponse payload) as [err|data].
  - cbn. auto.
  - apply socket_close_untraced. apply resolve_untraced. exact H.
Qed.

Lemma forEach_untraced (body : Buffer -> state -> completion) (entries : list Buffer) :
  (forall m st st', untraced st = untraced st' -> same_outcome (body m st) (body m st')) ->
  forall st st',
    untraced st = untraced st' ->
    same_outcome (forEach body entries st) (forEach body entries st').
Proof.
  intros Hbody. induction entries as [|m rest IH]; intros st st' H; cbn [forEach].
  - exact H.
  - specialize (Hbody m st st' H).
    destruct (body m st), (body m st'); cbn in Hbody; try contradiction; cbn; auto.
Qed.

Lemma reload_untraced (body : Buffer -> state -> completion)
  (message : option Buffer) (st st' : state) :
  (forall m st st', untraced st = untraced st' -> same_outcome (body m st) (body m st')) ->
  untraced st = untraced st' ->
  same_outcome (reload body message st) (reload body message st').
Proof.
  intros Hbody H. unfold reload.
  assert (Hpk : packets st = packets st') by (same_fields H; reflexivity).
  cbn [packets log]. rewrite Hpk.
  apply forEach_untraced; [exact Hbody|].
  same_fields H. reflexivity.
Qed.

Lemma sortedPackets_untraced (st st' : state) :
  untraced st = untraced st' -> sortedPackets st = sortedPackets st'.
Proof. intros H. same_fields H. reflexivity. Qed.

Lemma reassemble_untraced (again again' : option Buffer -> state -> completion)
  (st st' : state) :
  (forall st st', untraced st = untraced st' ->
     same_outcome (again None st) (again' None st')) ->
  untraced st = untraced st' ->
  same_outcome (reassemble again st) (reassemble again' st').
Proof.
  intros Hagain H. unfold reassemble.
  rewrite (sortedPackets_untraced st st' H).
  set (p := Buf.concat (sortedPackets st')).
  cbn [isCompressed log orangeBox crc32CheckSum].
  assert (Hf : isCompressed st = isCompressed st'
               /\ orangeBox st = orangeBox st'
               /\ crc32CheckSum st = crc32CheckSum st')
    by (same_fields H; repeat split).
  destruct Hf as (-> & -> & ->).
  destruct (isCompressed st').
  - destruct (Bunzip_decode p) as [d|].
    + destruct (negb _).
      * cbn. split; [reflexivity|]. do 2 apply untraced_log. exact H.
      * apply dispatch_untraced. do 2 apply untraced_log. exact H.
    + destruct (orangeBox st'); cbn [negb].
      * apply Hagain. same_fields H. reflexivity.
      * cbn. split; [reflexivity|]. apply untraced_log. exact H.
  - apply dispatch_untraced. apply untraced_log. exact H.
Qed.

(** Two states that differ in their traces only are handled alike. *)
Lemma onMessage_untraced (fuel : nat) :
  forall message st st',
    untraced st = untraced st' ->
    same_outcome (onMessage fuel message st) (onMessage fuel message st').
Proof.
  induction fuel as [|fuel IH]; intros message st st' H; [exact I|].
  rewrite !onMessage_classify. cbv zeta. cbn [goldSource orangeBox log retryCount].
  assert (Hf : goldSource st = goldSource st' /\ orangeBox st = orangeBox st'
               /\ retryCount st = retryCount st')
    by (same_fields H; repeat split).
  destruct Hf as (-> & -> & ->).
  assert (Hl : untraced (log (Recv message) st) = untraced (log (Recv message) st'))
    by (apply untraced_log; exact H).
  destruct (classify (goldSource st') (orangeBox st') message) as
    [assigned detected|token| | |c|c|f].
  - cbn. split; [reflexivity|]. same_fields H. destruct assigned, detected; reflexivity.
  - destruct (Nat.ltb _ _).
    + apply sendRequest_untraced. same_fields H. reflexivity.
    + apply socket_close_untraced. apply reject_untraced. exact Hl.
  - apply dispatch_untraced. exact Hl.
  - apply socket_close_untraced. apply reject_untraced. exact Hl.
  - apply reload_untraced; [exact (IH)|]. same_fields H. reflexivity.
  - apply reload_untraced; [exact (IH)|]. same_fields H. reflexivity.
  - unfold store.
    set (s1 := with_packets _ _). set (s1' := with_packets _ _).
    assert (Hs : untraced s1 = untraced s1').
    { subst s1 s1'. same_fields H. unfold header_read.
      destruct (checksum f), (packetNumber f =? 0); reflexivity. }
    assert (Hpk : packets s1 = packets s1') by (same_fields Hs; reflexivity).
    rewrite Hpk. destruct (_ =? totalPackets f).
    + apply reassemble_untraced; [|exact Hs].
      intros a b Hab. apply reload_untraced; [exact IH|exact Hab].
    + exact Hs.
Qed.

(* ================================================================= *)
(** ** Storing the fragments of a response *)

Lemma framed_classify (gold orange : bool) (message : Buffer) (f : fragment) :
  framed gold orange message = Some f <-> classify gold orange message = Fragment f.
Proof.
  unfold framed. destruct (classify gold orange message); split; intros H;
    try discriminate H; injection H as ->; reflexivity.
Qed.

Lemma packets_set_length_le (key : Z) (value : Buffer) (o : list (Z * Buffer)) :
  (length (packets_set key value o) <= S (length o))%nat.
Proof.
  induction o as [|[k v] rest IH]; cbn [packets_set length]; [lia|].
  destruct (key =? k); [|destruct (key <? k)]; cbn [length]; lia.
Qed.

Lemma packets_set_length_new (key : Z) (value : Buffer) (o : list (Z * Buffer)) :
  ~ In key (Object_keys o) ->
  length (packets_set key value o) = S (length o).
Proof.
  induction o as [|[k v] rest IH]; cbn [packets_set length Object_keys map fst];
    intros Hnew; [reflexivity|].
  destruct (key =? k) eqn:E; [|destruct (key <? k)]; cbn [length].
  - apply Z.eqb_eq in E. exfalso. apply Hnew. left. symmetry. exact E.
  - reflexivity.
  - rewrite IH; [reflexivity|]. intros Hin. apply Hnew. right. exact Hin.
Qed.

Lemma packets_set_keys_In (key : Z) (value : Buffer) (o : list (Z * Buffer)) (k : Z) :
  In k (Object_keys (packets_set key value o)) <-> k = key \/ In k (Object_keys o).
Proof.
  split; [apply packets_set_keys|].
  induction o as [|[k0 v0] rest IH]; cbn [packets_set Object_keys map fst].
  - intros [->|[]]. left. reflexivity.
  - destruct (key =? k0) eqn:E; [|destruct (key <? k0)];
      cbn [Object_keys map fst In].
    + apply Z.eqb_eq in E. subst k0. intros [->|[->|H]]; auto.
    + intros [->|[->|H]]; auto.
    + intros [->|[->|H]]; auto.
Qed.

(** Two packets with different numbers may be stored in either order. *)
Lemma packets_set_comm (k1 k2 : Z) (v1 v2 : Buffer) (o : list (Z * Buffer)) :
  k1 <> k2 ->
  packets_set k1 v1 (packets_set k2 v2 o) = packets_set k2 v2 (packets_set k1 v1 o).
Proof.
  intros Hne. induction o as [|[k v] rest IH]; cbn [packets_set].
  - destruct (Z.eqb_spec k1 k2), (Z.eqb_spec k2 k1),
      (Z.ltb_spec k1 k2), (Z.ltb_spec k2 k1); try lia; reflexivity.
  - destruct (Z.eqb_spec k2 k), (Z.ltb_spec k2 k),
      (Z.eqb_spec k1 k), (Z.ltb_spec k1 k); cbn [packets_set];
      repeat match goal with
             | |- context [Z.eqb ?a ?b] => destruct (Z.eqb_spec a b)
             | |- context [Z.ltb ?a ?b] => destruct (Z.ltb_spec a b)
             end; try lia; try reflexivity; try (subst; reflexivity).
    rewrite IH. reflexivity.
Qed.

Lemma absorb_app (gold orange : bool) (l1 l2 : list Buffer) (st : state) :
  absorb gold orange (l1 ++ l2) st = absorb gold orange l2 (absorb gold orange l1 st).
Proof.
  revert st. induction l1 as [|m rest IH]; intros st; cbn [absorb app];
    [reflexivity|apply IH].
Qed.

Lemma absorb_fields (gold orange : bool) (messages : list Buffer) :
  forall st,
    retryCount (absorb gold orange messages st) = retryCount st
    /\ goldSource (absorb gold orange messages st) = goldSource st
    /\ orangeBox (absorb gold orange messages st) = orangeBox st
    /\ promise (absorb gold orange messages st) = promise st
    /\ closed (absorb gold orange messages st) = closed st
    /\ sent (absorb gold orange messages st) = sent st
    /\ (length (packets (absorb gold orange messages st))
        <= length (packets st) + length messages)%nat.
Proof.
  induction messages as [|m rest IH]; intros st; cbn [absorb length].
  - repeat split. lia.
  - destruct (framed gold orange m) as [f|].
    + destruct (IH (buffered f m st)) as (H1 & H2 & H3 & H4 & H5 & H6 & H7).
      destruct (buffered_fields f m st) as (B1 & _ & B2 & B3 & B4 & B5 & B6 & B7 & _).
      rewrite H1, H2, H3, H4, H5, H6, B1, B2, B3, B4, B5, B6.
      repeat split. rewrite B7 in H7.
      pose proof (packets_set_length_le (packetNumber f) m (packets st)). lia.
    + destruct (IH st) as (H1 & H2 & H3 & H4 & H5 & H6 & H7).
      repeat split; try assumption. lia.
Qed.

Lemma forEach_app (body : Buffer -> state -> completion) (l1 l2 : list Buffer)
  (st : state) :
  forEach body (l1 ++ l2) st
  = match forEach body l1 st with
    | Returns st' => forEach body l2 st'
    | stopped => stopped
    end.
Proof.
  revert st. induction l1 as [|m rest IH]; intros st; cbn [forEach app];
    [reflexivity|].
  destruct (body m st); [apply IH|reflexivity|reflexivity].
Qed.

(** While fewer packets than the total are buffered, the handler stores each
    fragment and returns. *)
Lemma forEach_absorb (fuel : nat) (gold orange : bool) (total : Z) (c : bool)
  (messages : list Buffer) :
  forall st,
    flags gold orange st ->
    fragments_of gold orange total c messages ->
    Z.of_nat (length (packets st) + length messages) < total ->
    forEach (onMessage (S fuel)) messages st
    = Returns (absorb gold orange messages st).
Proof.
  induction messages as [|m rest IH]; intros st [Hg Ho] Hfr Hlen;
    cbn [forEach absorb]; [reflexivity|].
  apply Forall_cons_iff in Hfr. destruct Hfr as [(f & Hf & Ht & Hc) Hrest].
  rewrite Hf.
  assert (Hclass : classify (goldSource st) (orangeBox st) m = Fragment f)
    by (rewrite Hg, Ho; apply framed_classify; exact Hf).
  rewrite (onMessage_fragment fuel m st f Hclass).
  destruct (buffered_fields f m st) as (_ & _ & B2 & B3 & _ & _ & _ & B7 & _).
  assert (Hcount : Z.of_nat (length (Object_keys (packets (buffered f m st))))
                   <> totalPackets f).
  { unfold Object_keys. rewrite length_map, B7.
    pose proof (packets_set_length_le (packetNumber f) m (packets st)).
    cbn [length] in Hlen. lia. }
  apply Z.eqb_neq in Hcount. rewrite Hcount.
  apply IH; [split; congruence|exact Hrest|].
  rewrite B7. pose proof (packets_set_length_le (packetNumber f) m (packets st)).
  cbn [length] in Hlen. lia.
Qed.

(** The fragment that brings the count to the total is stored, and the
    response reassembled. *)
Lemma forEach_complete (fuel : nat) (gold orange : bool) (total : Z) (c : bool)
  (init : list Buffer) (last : Buffer) (st : state) :
  flags gold orange st ->
  fragments_of gold orange total c (init ++ [last]) ->
  Z.of_nat (length (packets st) + length init) < total ->
  Z.of_nat (length (packets (absorb gold orange (init ++ [last]) st))) = total ->
  forEach (onMessage (S fuel)) (init ++ [last]) st
  = reassemble (reload (onMessage fuel)) (absorb gold orange (init ++ [last]) st).
Proof.
  intros Hfl Hfr Hlen Hcount.
  apply Forall_app in Hfr. destruct Hfr as [Hinit Hlast].
  rewrite forEach_app, (forEach_absorb fuel gold orange total c init st Hfl Hinit Hlen).
  apply Forall_cons_iff in Hlast. destruct Hlast as [(f & Hf & Ht & Hc) _].
  cbn [forEach]. rewrite absorb_app in *. cbn [absorb] in *. rewrite Hf in *.
  destruct (absorb_fields gold orange init st) as (_ & A2 & A3 & _).
  destruct Hfl as [Hg Ho].
  assert (Hclass : classify (goldSource (absorb gold orange init st))
                     (orangeBox (absorb gold orange init st)) last = Fragment f)
    by (rewrite A2, A3, Hg, Ho; apply framed_classify; exact Hf).
  rewrite (onMessage_fragment fuel last _ f Hclass).
  unfold Object_keys. rewrite length_map, Hcount, Ht, Z.eqb_refl.
  destruct (reassemble _ _); reflexivity.
Qed.

Lemma run_app (fuel : nat) (l1 l2 : list event) (st : state) :
  run fuel (l1 ++ l2) st
  = match run fuel l1 st with
    | Returns st' => run fuel l2 st'
    | stopped => stopped
    end.
Proof.
  revert st. induction l1 as [|ev rest IH]; intros st; cbn [run app];
    [reflexivity|].
  destruct (handle fuel ev st); [apply IH|reflexivity|reflexivity].
Qed.

(** On an open socket the datagrams of a response reach the handler one
    after the other. *)
Lemma run_forEach (fuel : nat) (gold orange : bool) (total : Z) (c : bool)
  (init : list Buffer) (last : Buffer) :
  forall st,
    closed st = false ->
    flags gold orange st ->
    fragments_of gold orange total c init ->
    Z.of_nat (length (packets st) + length init) < total ->
    run (S fuel) (map Datagram (init ++ [last])) st
    = forEach (onMessage (S fuel)) (init ++ [last]) st.
Proof.
  induction init as [|m rest IH]; intros st Hopen Hfl Hfr Hlen;
    cbn [map app run forEach]; unfold handle at 1; rewrite Hopen.
  - destruct (onMessage (S fuel) last st); reflexivity.
  - apply Forall_cons_iff in Hfr. destruct Hfr as [Hm Hrest].
    assert (Hone : fragments_of gold orange total c [m])
      by (constructor; [exact Hm|constructor]).
    assert (Hlen1 : Z.of_nat (length (packets st) + length [m]) < total)
      by (cbn [length] in *; lia).
    pose proof (forEach_absorb fuel gold orange total c [m] st Hfl Hone Hlen1) as E.
    cbn [forEach] in E.
    destruct (onMessage (S fuel) m st) as [st1| |]; try discriminate E.
    injection E as ->.
    destruct (absorb_fields gold orange [m] st) as (_ & A2 & A3 & _ & A5 & _ & A7).
    destruct Hfl as [Hg Ho].
    apply IH;
      change (match framed gold orange m with
              | Some f => buffered f m st
              | None => st
              end) with (absorb gold orange [m] st).
    + rewrite A5. exact Hopen.
    + split; congruence.
    + exact Hrest.
    + cbn [length] in *. lia.
Qed.

Lemma classify_checksum (gold orange : bool) (message : Buffer) (f : fragment) :
  classify gold orange message = Fragment f ->
  checksum f <> None -> packetNumber f = 0.
Proof.
  unfold classify.
  repeat match goal with
         | |- context [match ?x with _ => _ end] => destruct x eqn:?
         end; try discriminate;
    intros H; injection H as <-; cbn [checksum packetNumber]; intros Hc;
    try (exfalso; apply Hc; reflexivity).
  all: match goal with
       | H : (?n =? 0) && _ = true |- ?n = 0 =>
           apply andb_true_iff in H; destruct H as [H _];
           apply Z.eqb_eq in H; exact H
       end.
Qed.

Lemma buffered_untraced (f : fragment) (message : Buffer) (st st' : state) :
  untraced st = untraced st' ->
  untraced (buffered f message st) = untraced (buffered f message st').
Proof.
  intros H. same_fields H. unfold buffered, header_read.
  destruct (checksum f), (packetNumber f =? 0); reflexivity.
Qed.

Lemma absorb_untraced (gold orange : bool) (messages : list Buffer) :
  forall st st',
    untraced st = untraced st' ->
    untraced (absorb gold orange messages st)
    = untraced (absorb gold orange messages st').
Proof.
  induction messages as [|m rest IH]; intros st st' H; cbn [absorb]; [exact H|].
  apply IH. destruct (framed gold orange m); [apply buffered_untraced|]; exact H.
Qed.

(** Two fragments of one response with different numbers may be stored in
    either order: the states differ in their traces only. *)
Lemma buffered_comm (gold orange : bool) (x y : Buffer) (fx fy : fragment)
  (st : state) :
  framed gold orange x = Some fx -> framed gold orange y = Some fy ->
  packetNumber fx <> packetNumber fy ->
  compressed fx = compressed fy ->
  untraced (buffered fx x (buffered fy y st))
  = untraced (buffered fy y (buffered fx x st)).
Proof.
  intros Hx Hy Hne Hc.
  apply framed_classify in Hx, Hy.
  pose proof (classify_checksum _ _ _ _ Hx) as Cx.
  pose proof (classify_checksum _ _ _ _ Hy) as Cy.
  destruct st. unfold buffered, header_read. rewrite Hc.
  destruct (checksum fx) as [cx|], (checksum fy) as [cy|].
  - exfalso. apply Hne. rewrite Cx, Cy by discriminate. reflexivity.
  - destruct (packetNumber fx =? 0), (packetNumber fy =? 0); cbn;
      rewrite (packets_set_comm _ _ _ _ _ Hne); reflexivity.
  - destruct (packetNumber fx =? 0), (packetNumber fy =? 0); cbn;
      rewrite (packets_set_comm _ _ _ _ _ Hne); reflexivity.
  - destruct (packetNumber fx =? 0), (packetNumber fy =? 0); cbn;
      rewrite (packets_set_comm _ _ _ _ _ Hne); reflexivity.
Qed.

Lemma numberOf_framed (gold orange : bool) (message : Buffer) (f : fragment) :
  framed gold orange message = Some f -> numberOf gold orange message = packetNumber f.
Proof. unfold numberOf. intros ->. reflexivity. Qed.

(** The order in which the fragments of a response arrive decides nothing
    but the trace. *)
Lemma absorb_Permutation (gold orange : bool) (total : Z) (c : bool)
  (messages messages' : list Buffer) :
  Permutation messages messages' ->
  fragments_of gold orange total c messages ->
  NoDup (map (numberOf gold orange) messages) ->
  forall st st',
    untraced st = untraced st' ->
    untraced (absorb gold orange messages st)
    = untraced (absorb gold orange messages' st').
Proof.
  induction 1 as [|x l l' Hp IH|x y l|l l' l'' Hp1 IH1 Hp2 IH2];
    intros Hfr Hnd st st' H.
  - exact H.
  - cbn [absorb]. apply Forall_cons_iff in Hfr. destruct Hfr as [_ Hfr].
    cbn [map] in Hnd. apply NoDup_cons_iff in Hnd. destruct Hnd as [_ Hnd].
    apply IH; [exact Hfr|exact Hnd|].
    destruct (framed gold orange x); [apply buffered_untraced|]; exact H.
  - cbn [absorb].
    apply Forall_cons_iff in Hfr. destruct Hfr as [(fy & Hy & _ & Hcy) Hfr].
    apply Forall_cons_iff in Hfr. destruct Hfr as [(fx & Hx & _ & Hcx) Hfr].
    cbn [map] in Hnd. apply NoDup_cons_iff in Hnd. destruct Hnd as [Hnot _].
    rewrite Hx, Hy. apply absorb_untraced.
    rewrite <- (buffered_comm gold orange x y fx fy st' Hx Hy).
    + do 2 apply buffered_untraced. exact H.
    + intros Heq. apply Hnot. left.
      rewrite (numberOf_framed _ _ _ _ Hx), (numberOf_framed _ _ _ _ Hy).
      exact Heq.
    + congruence.
  - assert (Hfr' : fragments_of gold orange total c l').
    { unfold fragments_of. eapply Permutation_Forall; eassumption. }
    assert (Hnd' : NoDup (map (numberOf gold orange) l')).
    { eapply Permutation_NoDup; [|exact Hnd]. apply Permutation_map. exact Hp1. }
    rewrite (IH1 Hfr Hnd st st' H). apply IH2; [exact Hfr'|exact Hnd'|reflexivity].
Qed.

Lemma packets_set_In_new (key : Z) (value : Buffer) (o : list (Z * Buffer)) :
  In (key, value) (packets_set key value o).
Proof.
  induction o as [|[k v] rest IH]; cbn [packets_set]; [left; reflexivity|].
  destruct (key =? k); [|destruct (key <? k)];
    [left; reflexivity|left; reflexivity|right; exact IH].
Qed.

Lemma absorb_ascending (gold orange : bool) (messages : list Buffer) :
  forall st, ascending (packets st) ->
             ascending (packets (absorb gold orange messages st)).
Proof.
  induction messages as [|m rest IH]; intros st H; cbn [absorb]; [exact H|].
  apply IH. destruct (framed gold orange m) as [f|]; [|exact H].
  destruct (buffered_fields f m st) as (_ & _ & _ & _ & _ & _ & _ & B7 & _).
  rewrite B7. apply packets_set_ascending. exact H.
Qed.

Lemma absorb_In (gold orange : bool) (messages : list Buffer) :
  forall st k v,
    In (k, v) (packets (absorb gold orange messages st)) ->
    In (k, v) (packets st) \/ (In v messages /\ k = numberOf gold orange v).
Proof.
  induction messages as [|m rest IH]; intros st k v H; cbn [absorb] in H;
    [left; exact H|].
  apply IH in H. destruct H as [H|[H1 H2]].
  - destruct (framed gold orange m) as [f|] eqn:Hf; [|left; exact H].
    destruct (buffered_fields f m st) as (_ & _ & _ & _ & _ & _ & _ & B7 & _).
    rewrite B7 in H. apply packets_set_In in H. destruct H as [Heq|H].
    + injection Heq as -> ->. right. split; [left; reflexivity|].
      symmetry. apply numberOf_framed. exact Hf.
    + left. exact H.
  - right. split; [right; exact H1|exact H2].
Qed.

Lemma absorb_keeps (gold orange : bool) (messages : list Buffer) :
  forall st k v,
    In (k, v) (packets st) ->
    ~ In k (map (numberOf gold orange) messages) ->
    In (k, v) (packets (absorb gold orange messages st)).
Proof.
  induction messages as [|m rest IH]; intros st k v H Hk; cbn [absorb];
    [exact H|].
  cbn [map] in Hk. apply IH; [|intros Hin; apply Hk; right; exact Hin].
  destruct (framed gold orange m) as [f|] eqn:Hf; [|exact H].
  destruct (buffered_fields f m st) as (_ & _ & _ & _ & _ & _ & _ & B7 & _).
  rewrite B7. apply packets_set_others; [exact H|].
  intros Heq. apply Hk. left. rewrite (numberOf_framed _ _ _ _ Hf). congruence.
Qed.

Lemma absorb_stores (gold orange : bool) (total : Z) (c : bool)
  (messages : list Buffer) :
  fragments_of gold orange total c messages ->
  NoDup (map (numberOf gold orange) messages) ->
  forall st v,
    In v messages ->
    In (numberOf gold orange v, v) (packets (absorb gold orange messages st)).
Proof.
  induction messages as [|m rest IH]; intros Hfr Hnd st v Hv; [destruct Hv|].
  apply Forall_cons_iff in Hfr. destruct Hfr as [(f & Hf & _) Hfr].
  cbn [map] in Hnd. apply NoDup_cons_iff in Hnd. destruct Hnd as [Hnot Hnd].
  cbn [absorb]. rewrite Hf. destruct Hv as [->|Hv].
  - apply absorb_keeps; [|exact Hnot].
    destruct (buffered_fields f v st) as (_ & _ & _ & _ & _ & _ & _ & B7 & _).
    rewrite B7, (numberOf_framed _ _ _ _ Hf). apply packets_set_In_new.
  - apply IH; assumption.
Qed.

Lemma absorb_length (gold orange : bool) (total : Z) (c : bool)
  (messages : list Buffer) :
  fragments_of gold orange total c messages ->
  NoDup (map (numberOf gold orange) messages) ->
  forall st,
    (forall k, In k (Object_keys (packets st)) ->
               ~ In k (map (numberOf gold orange) messages)) ->
    length (packets (absorb gold orange messages st))
    = (length (packets st) + length messages)%nat.
Proof.
  induction messages as [|m rest IH]; intros Hfr Hnd st Hold; cbn [absorb length];
    [lia|].
  apply Forall_cons_iff in Hfr. destruct Hfr as [(f & Hf & _) Hfr].
  cbn [map] in Hnd. apply NoDup_cons_iff in Hnd. destruct Hnd as [Hnot Hnd].
  rewrite Hf.
  destruct (buffered_fields f m st) as (_ & _ & _ & _ & _ & _ & _ & B7 & _).
  rewrite (IH Hfr Hnd).
  - rewrite B7, packets_set_length_new; [lia|].
    intros Hin. apply (Hold _ Hin). left.
    apply numberOf_framed. exact Hf.
  - intros k Hk. rewrite B7 in Hk. apply packets_set_keys_In in Hk.
    destruct Hk as [->|Hk].
    + rewrite <- (numberOf_framed _ _ _ _ Hf). exact Hnot.
    + intros Hin. apply (Hold _ Hk). right. exact Hin.
Qed.

(** Sorting entries whose keys ascend leaves them as they are. *)
Lemma sort_entries_ascending (o : list (Z * Buffer)) :
  ascending o -> sort_entries o = o.
Proof.
  unfold ascending, sort_entries.
  induction o as [|[k v] rest IH]; intros H; cbn [fold_right]; [reflexivity|].
  cbn [Object_keys map fst] in H. apply StronglySorted_inv in H.
  destruct H as [Hrest Hall]. rewrite (IH Hrest).
  destruct rest as [|[k' v'] rest']; [reflexivity|].
  cbn [insert_entry fst]. cbn [Object_keys map fst] in Hall.
  apply Forall_cons_iff in Hall. destruct Hall as [Hlt _].
  apply Z.ltb_lt in Hlt. rewrite Hlt. reflexivity.
Qed.

Lemma assembled_ascending (st : state) :
  ascending (packets st) ->
  assembled st = Buf.concat (map (payloadOf st) (packets st)).
Proof.
  intros H. unfold assembled, sortedPackets, Object_entries.
  rewrite (sort_entries_ascending _ H). reflexivity.
Qed.

(** Let the datagrams of a response of [total] packets, which the handler
    reads as packets under the dialect flags in force and which are numbered
    without repetition, reach a call whose buffer is empty, in one order or
    in another.  Either way the last of them is stored and the response
    reassembled from the same buffer: the packets in ascending order of their
    numbers, whose payloads are concatenated in that order.  The assembled
    bytes are the same, and so is the way the call ends, trace apart.  (The
    first packet of a GoldSource response is not read as a packet while
    [goldSource] is unset, nor are its other packets read with their own
    numbers.) *)
Lemma reassembly_order_independent (fuel : nat) (st : state) (total : Z)
  (c : bool) (messages messages' : list Buffer) :
  closed st = false ->
  packets st = [] ->
  fragments_of (goldSource st) (orangeBox st) total c messages ->
  NoDup (map (numberOf (goldSource st) (orangeBox st)) messages) ->
  Z.of_nat (length messages) = total ->
  0 < total ->
  Permutation messages messages' ->
  exists st1 st1',
    run (S fuel) (map Datagram messages) st
    = reassemble (reload (onMessage fuel)) st1
    /\ run (S fuel) (map Datagram messages') st
       = reassemble (reload (onMessage fuel)) st1'
    /\ untraced st1 = untraced st1'
    /\ ascending (packets st1)
    /\ (forall k v,
          In (k, v) (packets st1)
          <-> In v messages /\ k = numberOf (goldSource st) (orangeBox st) v)
    /\ assembled st1 = Buf.concat (map (payloadOf st1) (packets st1))
    /\ assembled st1' = assembled st1
    /\ same_outcome (run (S fuel) (map Datagram messages) st)
                    (run (S fuel) (map Datagram messages') st).
Proof.
  intros Hopen Hempty Hfr Hnd Hlen Hpos Hperm.
  set (gold := goldSource st) in *. set (orange := orangeBox st) in *.
  assert (Hfl : flags gold orange st) by (split; reflexivity).
  assert (Hfr' : fragments_of gold orange total c messages')
    by (unfold fragments_of; eapply Permutation_Forall; eassumption).
  assert (Hnd' : NoDup (map (numberOf gold orange) messages'))
    by (eapply Permutation_NoDup; [apply Permutation_map; exact Hperm|exact Hnd]).
  assert (Hlen' : Z.of_nat (length messages') = total)
    by (rewrite <- (Permutation_length Hperm); exact Hlen).
  assert (Hrun : forall ms,
             fragments_of gold orange total c ms ->
             NoDup (map (numberOf gold orange) ms) ->
             Z.of_nat (length ms) = total ->
             run (S fuel) (map Datagram ms) st
             = reassemble (reload (onMessage fuel)) (absorb gold orange ms st)).
  { intros ms Hf Hn Hl.
    destruct (exists_last (l := ms)) as (init & last & ->).
    { intros ->. cbn in Hl. lia. }
    rewrite length_app in Hl. cbn [length] in Hl.
    assert (Hinit : fragments_of gold orange total c init)
      by (apply Forall_app in Hf; tauto).
    rewrite (run_forEach fuel gold orange total c init last st Hopen Hfl Hinit)
      by (rewrite Hempty; cbn [length]; lia).
    apply (forEach_complete fuel gold orange total c init last st Hfl Hf).
    - rewrite Hempty. cbn [length]. lia.
    - rewrite (absorb_length gold orange total c _ Hf Hn).
      + rewrite Hempty, length_app. cbn [length]. lia.
      + rewrite Hempty. intros k []. }
  exists (absorb gold orange messages st), (absorb gold orange messages' st).
  assert (Hun : untraced (absorb gold orange messages st)
                = untraced (absorb gold orange messages' st))
    by (apply (absorb_Permutation gold orange total c); auto).
  assert (Hasc : ascending (packets (absorb gold orange messages st)))
    by (apply absorb_ascending; rewrite Hempty; constructor).
  rewrite (Hrun messages Hfr Hnd Hlen), (Hrun messages' Hfr' Hnd' Hlen').
  repeat split.
  - exact Hun.
  - exact Hasc.
  - apply absorb_In in H. rewrite Hempty in H. destruct H as [[]|[H _]]. exact H.
  - apply absorb_In in H. rewrite Hempty in H. destruct H as [[]|[_ H]]. exact H.
  - intros [Hv ->]. apply (absorb_stores gold orange total c); assumption.
  - apply assembled_ascending. exact Hasc.
  - unfold assembled. rewrite (sortedPackets_untraced _ _ Hun). reflexivity.
  - apply reassemble_untraced; [|exact Hun].
    intros a b Hab. apply reload_untraced; [|exact Hab].
    intros m s s' Hs. apply onMessage_untraced. exact Hs.
Qed.

(* ================================================================= *)
(** ** Requests *)

Lemma unrequested_settle (requests : list Buffer) :
  (forall st data, unrequested requests st ->
     ends_in (unrequested requests) (socket_close (resolve data st)))
  /\ (forall st err, unrequested requests st ->
        ends_in (unrequested requests) (socket_close (reject err st))).
Proof.
  split; intros s x Hs; unfold socket_close, resolve, reject;
    destruct (promise s); cbn [closed with_promise]; destruct (closed s); exact Hs.
Qed.

(** A handler that is given no challenge sends nothing, and no challenge is
    ever buffered. *)
Lemma onMessage_unrequested (requests : list Buffer) (fuel : nat)
  (message : Buffer) (st : state) :
  is_challenge message = false ->
  unrequested requests st ->
  ends_in (unrequested requests) (onMessage fuel message st).
Proof.
  intros Hm Hst.
  apply (onMessage_invariant (fun m => is_challenge m = false)
           (unrequested requests)); auto;
    try (intros; assumption); try apply unrequested_settle.
  - intros s [_ Hin]. apply Forall_forall. exact Hin.
  - intros s [Hs _]. split; [exact Hs|intros e []].
  - intros s m f [Hs Hin] Hmsg _. split; [exact Hs|].
    cbn [packets with_packets]. intros e He. unfold Object_values in He.
    apply in_map_iff in He. destruct He as ([k v] & Heq & Hkv). cbn in Heq. subst v.
    apply packets_set_In in Hkv. destruct Hkv as [Heq|Hkv].
    + injection Heq as _ ->. exact Hmsg.
    + apply Hin. unfold Object_values. change e with (snd (k, e)).
      apply in_map. exact Hkv.
  - intros s m _ Hmsg Hch _. rewrite Hch in Hmsg. discriminate Hmsg.
Qed.

(* ================================================================= *)
(** ** Processing the buffered packets again *)

Lemma packets_set_append (key : Z) (value : Buffer) (o : list (Z * Buffer)) :
  Forall (fun k => k < key) (Object_keys o) ->
  packets_set key value o = o ++ [(key, value)].
Proof.
  induction o as [|[k v] rest IH]; intros H; cbn [packets_set app]; [reflexivity|].
  cbn [Object_keys map fst] in H. apply Forall_cons_iff in H. destruct H as [Hk H].
  destruct (Z.eqb_spec key k); [lia|]. destruct (Z.ltb_spec key k); [lia|].
  rewrite (IH H). reflexivity.
Qed.

Lemma ascending_app_last (o : list (Z * Buffer)) (k : Z) (v : Buffer)
  (rest : list (Z * Buffer)) :
  ascending (o ++ (k, v) :: rest) -> Forall (fun k' => k' < k) (Object_keys o).
Proof.
  unfold ascending, Object_keys. induction o as [|[k0 v0] o' IH]; intros H;
    cbn [map app fst] in *; [constructor|].
  apply StronglySorted_inv in H. destruct H as [Hs Hall]. constructor.
  - rewrite Forall_forall in Hall. apply Hall. rewrite map_app. apply in_or_app.
    right. left. reflexivity.
  - apply IH. exact Hs.
Qed.

(** Stored again one after the other in the order of their numbers, the
    buffered packets make up the same buffer. *)
Lemma absorb_rebuild (gold orange : bool) (later : list (Z * Buffer)) :
  forall earlier st,
    packets st = earlier ->
    ascending (earlier ++ later) ->
    (forall k e, In (k, e) later ->
       exists f, framed gold orange e = Some f /\ packetNumber f = k) ->
    packets (absorb gold orange (Object_values later) st) = earlier ++ later.
Proof.
  induction later as [|[k e] rest IH]; intros earlier st Hpk Hasc Hfr;
    cbn [Object_values map snd absorb].
  - rewrite app_nil_r. exact Hpk.
  - destruct (Hfr k e (or_introl eq_refl)) as (f & Hf & Hk). rewrite Hf.
    rewrite (IH (earlier ++ [(k, e)])).
    + rewrite <- app_assoc. reflexivity.
    + destruct (buffered_fields f e st) as (_ & _ & _ & _ & _ & _ & _ & B7 & _).
      rewrite B7, Hpk, Hk. apply packets_set_append.
      apply (ascending_app_last earlier k e rest). exact Hasc.
    + rewrite <- app_assoc. exact Hasc.
    + intros k' e' Hin. apply Hfr. right. exact Hin.
Qed.

Lemma absorb_isCompressed (gold orange : bool) (total : Z) (c : bool)
  (messages : list Buffer) :
  fragments_of gold orange total c messages ->
  messages <> [] ->
  forall st, isCompressed (absorb gold orange messages st) = c.
Proof.
  induction messages as [|m rest IH]; intros Hfr Hne st; [contradiction|].
  apply Forall_cons_iff in Hfr. destruct Hfr as [(f & Hf & _ & Hc) Hfr].
  cbn [absorb]. rewrite Hf.
  destruct rest as [|m' rest'].
  - cbn [absorb]. destruct (buffered_fields f m st) as (_ & B & _). congruence.
  - apply IH; [exact Hfr|discriminate].
Qed.

Lemma absorb_crc32CheckSum (gold orange : bool) (messages : list Buffer) :
  Forall (fun m => forall f, framed gold orange m = Some f -> checksum f = None)
         messages ->
  forall st,
    crc32CheckSum (absorb gold orange messages st) = crc32CheckSum st.
Proof.
  induction messages as [|m rest IH]; intros H st; cbn [absorb]; [reflexivity|].
  apply Forall_cons_iff in H. destruct H as [Hm H].
  rewrite (IH H). destruct (framed gold orange m) as [f|] eqn:Hf; [|reflexivity].
  destruct (buffered_fields f m st) as (_ & _ & _ & _ & _ & _ & _ & _ & B9).
  rewrite B9, (Hm f eq_refl). reflexivity.
Qed.

(** Only the packet numbered 0 carries a checksum, and under the framing of
    Source servers the first packet of a compressed response always does. *)
Lemma classify_first_checksum (orange : bool) (message : Buffer) (f : fragment) :
  classify false orange message = Fragment f ->
  packetNumber f = 0 -> compressed f = true -> checksum f <> None.
Proof.
  unfold classify. cbn [negb andb].
  repeat match goal with
         | |- context [match ?x with _ => _ end] => destruct x eqn:?
         end; try discriminate;
    intros H; injection H as <-; cbn [checksum packetNumber compressed];
    intros Hn Hc; try discriminate.
  all: match goal with
       | H : (?n =? 0) && ?c = false |- _ =>
           rewrite Hn, Hc in H; discriminate H
       end.
Qed.

Lemma reload_no_promotion (fuel : nat) (message : option Buffer) (st0 st : state) :
  no_promotion st0 st ->
  ends_in (no_promotion st0) (reload (onMessage fuel) message st).
Proof.
  intros H.
  apply (reload_invariant (fun _ => True) (no_promotion st0)); auto.
  - intros; apply Forall_True.
  - intros m s _ Hs. apply onMessage_no_promotion. exact Hs.
  - destruct message; exact I.
Qed.

Lemma reload_unrequested (requests : list Buffer) (fuel : nat) (st : state) :
  unrequested requests st ->
  ends_in (unrequested requests) (reload (onMessage fuel) None st).
Proof.
  intros H.
  apply (reload_invariant (fun m => is_challenge m = false) (unrequested requests));
    auto.
  - intros s [_ Hin]. apply Forall_forall. exact Hin.
  - intros s [Hs _]. split; [exact Hs|intros e []].
  - intros m s Hm Hs. apply onMessage_unrequested; assumption.
Qed.

(** The head of a buffer in ascending order whose numbers are not negative
    is its packet 0, if it has one. *)
Lemma ascending_first (o : list (Z * Buffer)) (e0 : Buffer) :
  ascending o ->
  (forall k e, In (k, e) o -> 0 <= k) ->
  In (0, e0) o ->
  exists rest,
    o = (0, e0) :: rest /\ forall k e, In (k, e) rest -> k <> 0.
Proof.
  unfold ascending. destruct o as [|[k v] rest]; intros Hasc Hpos Hin;
    [destruct Hin|].
  cbn [Object_keys map fst] in Hasc. apply StronglySorted_inv in Hasc.
  destruct Hasc as [_ Hall]. rewrite Forall_forall in Hall.
  assert (Hrest : forall k' e, In (k', e) rest -> k < k').
  { intros k' e He. apply Hall. unfold Object_keys.
    change k' with (fst (k', e)). apply in_map. exact He. }
  pose proof (Hpos k v (or_introl eq_refl)) as Hk.
  destruct Hin as [Heq|Hin].
  - injection Heq as -> ->. exists rest. split; [reflexivity|].
    intros k' e He. specialize (Hrest k' e He). lia.
  - specialize (Hrest 0 e0 Hin). lia.
Qed.

(** The buffered packets, processed again after [orangeBox] was demoted,
    decompress and pass the checksum: the call resolves. *)
Lemma reload_resolves (fuel : nat) (st : state) (total : Z)
  (e0 : Buffer) (f0 : fragment) (crc : Z) (decompressed : Buffer) (data : response) :
  goldSource st = false -> orangeBox st = false ->
  closed st = false -> promise st = Pending ->
  ascending (packets st) ->
  Z.of_nat (length (packets st)) = total ->
  (forall k e, In (k, e) (packets st) ->
     exists f', classify false false e = Fragment f' /\ packetNumber f' = k
                /\ totalPackets f' = total /\ compressed f' = true) ->
  In (0, e0) (packets st) ->
  classify false false e0 = Fragment f0 -> checksum f0 = Some crc ->
  Bunzip_decode (Buf.concat (map payload_below_orange_box (packets st)))
    = Some decompressed ->
  crc32_buf decompressed = crc ->
  parseResponse decompressed = inr data ->
  exists st',
    reload (onMessage (S fuel)) None st = Returns st'
    /\ promise st' = Resolved data /\ closed st' = true
    /\ sent st' = sent st /\ orangeBox st' = false.
Proof.
  intros Hg Ho Hopen Hpend Hasc Hlen Hfr H0 Hc0 Hcrc Hdec Hsum Hparse.
  unfold reload. cbn [packets log].
  set (P := packets st) in *.
  set (stY := with_packets [] (log PacketReload st)).
  assert (HflY : flags false false stY) by (split; cbn; assumption).
  assert (Hfrs : fragments_of false false total true (Object_values P)).
  { apply Forall_forall. intros e He. unfold Object_values in He.
    apply in_map_iff in He. destruct He as ([k e'] & Heq & Hin). cbn in Heq. subst e'.
    destruct (Hfr k e Hin) as (f' & Hf' & _ & Ht & Hc).
    exists f'. split; [apply framed_classify; exact Hf'|split; assumption]. }
  assert (Hkeys : forall k e, In (k, e) P ->
             exists f', framed false false e = Some f' /\ packetNumber f' = k).
  { intros k e Hin. destruct (Hfr k e Hin) as (f' & Hf' & Hk & _).
    exists f'. split; [apply framed_classify; exact Hf'|exact Hk]. }
  assert (Hreb : packets (absorb false false (Object_values P) stY) = P).
  { apply (absorb_rebuild false false P [] stY); [reflexivity|exact Hasc|exact Hkeys]. }
  assert (Hne : Object_values P <> []).
  { destruct P; [destruct H0|discriminate]. }
  destruct (exists_last Hne) as (init & last & Hsplit).
  assert (Hvlen : length (Object_values P) = length P)
    by (unfold Object_values; apply length_map).
  assert (Hilen : length P = S (length init)).
  { rewrite <- Hvlen, Hsplit, length_app. cbn [length]. lia. }
  rewrite Hsplit in *.
  rewrite (forEach_complete fuel false false total true init last stY HflY Hfrs).
  2:{ cbn [packets stY with_packets length]. lia. }
  2:{ rewrite Hreb. lia. }
  set (st2 := absorb false false (init ++ [last]) stY) in *.
  destruct (absorb_fields false false (init ++ [last]) stY)
    as (_ & A2 & A3 & A4 & A5 & A6 & _). fold st2 in A2, A3, A4, A5, A6.
  assert (Hic : isCompressed st2 = true)
    by (apply (absorb_isCompressed false false total true); [exact Hfrs|];
        destruct init; discriminate).
  assert (Hassembled : Buf.concat (sortedPackets st2)
                       = Buf.concat (map payload_below_orange_box P)).
  { fold (assembled st2). rewrite assembled_ascending by (rewrite Hreb; exact Hasc).
    rewrite Hreb. f_equal. apply map_ext. intros [k e].
    unfold payloadOf, payload_below_orange_box.
    rewrite A2, A3, Hic. cbn [fst snd goldSource orangeBox stY log with_packets].
    rewrite Hg, Ho. destruct (k =? 0); reflexivity. }
  assert (Hretained : crc32CheckSum st2 = crc).
  { assert (Hpos : forall k e, In (k, e) P -> 0 <= k).
    { intros k e Hin. destruct (Hfr k e Hin) as (f' & Hf' & <- & _).
      exact (packetNumber_nonneg _ _ _ _ Hf'). }
    destruct (ascending_first P e0 Hasc Hpos H0) as (rest & HP & Hrest).
    subst st2. rewrite <- Hsplit, HP. cbn [Object_values map snd absorb].
    rewrite (proj2 (framed_classify false false e0 f0) Hc0).
    rewrite absorb_crc32CheckSum.
    - destruct (buffered_fields f0 e0 stY) as (_ & _ & _ & _ & _ & _ & _ & _ & B9).
      rewrite B9, Hcrc. reflexivity.
    - apply Forall_forall. intros e He f' Hf'.
      unfold Object_values in He. apply in_map_iff in He.
      destruct He as ([k e'] & Heq & Hin). cbn in Heq. subst e'.
      destruct (Hfr k e) as (f'' & Hf'' & Hk & _); [rewrite HP; right; exact Hin|].
      apply framed_classify in Hf'. rewrite Hf' in Hf''. injection Hf'' as <-.
      destruct (checksum f') eqn:Hck; [|reflexivity].
      exfalso. apply (Hrest k e Hin). rewrite <- Hk.
      apply (classify_checksum _ _ _ _ Hf'). rewrite Hck. discriminate. }
  unfold reassemble. cbn [isCompressed log crc32CheckSum orangeBox].
  rewrite Hic, Hassembled, Hdec, Hretained, Hsum, Z.eqb_refl. cbn [negb].
  unfold dispatch. rewrite Hparse. unfold socket_close.
  match goal with |- context [resolve data ?s] => set (st3 := s) end.
  destruct (resolve_fields data st3) as (_ & _ & _ & _ & _ & R6 & R7 & R8 & _).
  rewrite R7. cbn [closed st3 log]. rewrite A5. cbn [closed stY with_packets log].
  rewrite Hopen. eexists. split; [reflexivity|].
  cbn [promise closed sent orangeBox with_closed]. rewrite R6, R8.
  cbn [sent orangeBox st3 log]. rewrite A3, A6. cbn [sent orangeBox stY with_packets log].
  repeat split; try assumption.
  unfold resolve. cbn [promise st3 log]. rewrite A4.
  cbn [promise stY with_packets log]. rewrite Hpend. reflexivity.
Qed.

(** The datagram that completes a compressed response has been stored
    and the assembled bytes do not decompress.  If [orangeBox] is still set,
    the handler demotes it and hands every buffered packet to [onMessage]
    again, sending nothing; if, read without the maximum-size field, the
    packets decompress to bytes that pass the checksum and decode, the call
    resolves with the decoded result.  If [orangeBox] was already demoted,
    the handler raises the error of the decompressor, which settles nothing. *)
Lemma decompression_fallback (fuel : nat) (message : Buffer) (st : state)
  (f : fragment) :
  classify (goldSource st) (orangeBox st) message = Fragment f ->
  Z.of_nat (length (Object_keys (packets (buffered f message st))))
    = totalPackets f ->
  compressed f = true ->
  Bunzip_decode (assembled (buffered f message st)) = None ->
  (forall e, In e (Object_values (packets st)) -> is_challenge e = false) ->
  (orangeBox st = true ->
   (forall st',
      final (onMessage (S fuel) message st) st' ->
      orangeBox st' = false /\ sent st' = sent st)
   /\ (forall st',
         onMessage (S fuel) message st = Returns st' ->
         logged PacketReload st st'
         /\ forall e,
              In e (Object_values (packets (buffered f message st))) ->
              logged (Recv e) st st')
   /\ (goldSource st = false -> closed st = false -> promise st = Pending ->
       ascending (packets (buffered f message st)) ->
       (forall k e,
          In (k, e) (packets (buffered f message st)) ->
          exists f',
            classify false false e = Fragment f' /\ packetNumber f' = k
            /\ totalPackets f' = totalPackets f /\ compressed f' = true) ->
       forall e0 f0 crc decompressed data,
         In (0, e0) (packets (buffered f message st)) ->
         classify false false e0 = Fragment f0 ->
         checksum f0 = Some crc ->
         Bunzip_decode
           (Buf.concat
              (map payload_below_orange_box (packets (buffered f message st))))
         = Some decompressed ->
         crc32_buf decompressed = crc ->
         parseResponse decompressed = inr data ->
         exists st',
           onMessage (S (S fuel)) message st = Returns st'
           /\ promise st' = Resolved data /\ closed st' = true
           /\ sent st' = sent st /\ orangeBox st' = false))
  /\ (orangeBox st = false ->
      exists st',
        onMessage (S fuel) message st = Throws BunzipError st'
        /\ promise st' = promise st /\ closed st' = closed st
        /\ sent st' = sent st).
Proof.
  intros Hclass Hcount Hcomp Hdec Hbuf.
  set (st1 := buffered f message st) in *.
  destruct (buffered_fields f message st)
    as (_ & B2 & B3 & B4 & B5 & B6 & B7 & B8 & _). fold st1 in B2, B3, B4, B5, B6, B7, B8.
  assert (Hstep : forall n,
             onMessage (S n) message st
             = if negb (orangeBox st) then Throws BunzipError (log (Payload (assembled st1)) st1)
               else reload (onMessage n) None
                      (with_orangeBox false
                         (log BelowOrangeBoxDetected (log (Payload (assembled st1)) st1)))).
  { intros n. rewrite (onMessage_fragment n message st f Hclass). fold st1.
    rewrite Hcount, Z.eqb_refl. unfold reassemble.
    cbn [isCompressed log orangeBox]. rewrite B2, Hcomp.
    fold (assembled st1). rewrite Hdec, B4. reflexivity. }
  set (stX := with_orangeBox false
                (log BelowOrangeBoxDetected (log (Payload (assembled st1)) st1))) in *.
  assert (HtrX : traced (trace st) stX).
  { destruct (buffered_trace f message st) as (lines & Hl & _). fold st1 in Hl.
    exists (lines ++ [Payload (assembled st1); BelowOrangeBoxDetected]).
    cbn [trace stX with_orangeBox log]. rewrite Hl, <- !app_assoc. reflexivity. }
  split.
  - intros Hob. rewrite Hob in Hstep. cbn [negb] in Hstep. split; [|split].
    + intros st' Hfinal. rewrite Hstep in Hfinal. split.
      * assert (Hp : no_promotion stX stX) by apply no_promotion_refl.
        pose proof (reload_no_promotion fuel None stX stX Hp) as Hr.
        apply (ends_in_final _ _ _ Hr Hfinal). reflexivity.
      * assert (Hu : unrequested (sent st) stX).
        { split; [exact B7|]. cbn [packets stX with_orangeBox log]. rewrite B8.
          intros e He. unfold Object_values in He. apply in_map_iff in He.
          destruct He as ([k v] & Heq & Hkv). cbn in Heq. subst v.
          apply packets_set_In in Hkv. destruct Hkv as [Heq|Hkv].
          - injection Heq as _ ->. exact (classify_Fragment _ _ _ _ Hclass).
          - apply Hbuf. unfold Object_values. change e with (snd (k, e)).
            apply in_map. exact Hkv. }
        pose proof (reload_unrequested (sent st) fuel stX Hu) as Hr.
        exact (proj1 (ends_in_final _ _ _ Hr Hfinal)).
    + intros st' Hret. rewrite Hstep in Hret.
      destruct (reload_Recv fuel None stX st' Hret) as [Hr Hall]. split.
      * exact (logged_later _ st stX st' Hr HtrX).
      * intros e He. apply (logged_later _ st stX st'); [|exact HtrX].
        apply Hall. cbn [optional]. rewrite app_nil_r. exact He.
    + intros Hg Hopen Hpend Hasc Hfr e0 f0 crc d data H0 Hc0 Hcrc Hd Hsum Hparse.
      rewrite (Hstep (S fuel)).
      destruct (reload_resolves fuel stX (totalPackets f) e0 f0 crc d data)
        as (st' & Hrun & Hp & Hc & Hs & Ho); try assumption;
        try (cbn [goldSource orangeBox closed promise packets stX with_orangeBox log];
             congruence).
      * cbn [packets stX with_orangeBox log]. rewrite <- Hcount.
        unfold Object_keys. rewrite length_map. reflexivity.
      * exists st'. repeat split; try assumption.
        rewrite Hs. exact B7.
  - intros Hob. rewrite Hstep, Hob. cbn [negb].
    eexists. split; [reflexivity|]. cbn [promise closed sent log].
    repeat split; assumption.
Qed.

(* ================================================================= *)
(** ** The socket *)

Lemma released_settle :
  (forall st data, released st -> ends_in released (socket_close (resolve data st)))
  /\ (forall st err, released st -> ends_in released (socket_close (reject err st))).
Proof.
  split; intros st x H; unfold socket_close.
  - destruct (resolve_fields x st) as (_ & _ & _ & _ & _ & _ & Hc & _).
    rewrite Hc. destruct (closed st) eqn:E; cbn [ends_in]; intros _.
    + exact Hc.
    + reflexivity.
  - destruct (reject_fields x st) as (_ & _ & _ & _ & _ & _ & Hc & _).
    rewrite Hc. destruct (closed st) eqn:E; cbn [ends_in]; intros _.
    + exact Hc.
    + reflexivity.
Qed.

Lemma onMessage_released (fuel : nat) (message : Buffer) (st : state) :
  released st -> ends_in released (onMessage fuel message st).
Proof.
  intros H.
  apply (onMessage_invariant (fun _ => True) released); auto;
    try (intros; assumption); try apply released_settle.
  - intros; apply Forall_True.
  - intros s m Hs _ _ _. apply (sendRequest_invariant released); auto.
Qed.

(** Whenever a handler has settled the promise, by [resolve] or by [reject],
    the socket is closed: throughout a call, a settled promise comes with a
    closed socket.  (An error raised by a handler settles nothing.) *)
Lemma run_released (fuel : nat) (events : list event) :
  forall st, released st -> ends_in released (run fuel events st).
Proof.
  induction events as [|ev rest IH]; intros st H; cbn [run]; [exact H|].
  assert (Hstep : ends_in released (handle fuel ev st)).
  { unfold handle. destruct (closed st); [exact H|].
    destruct ev as [m| |err].
    - apply onMessage_released. exact H.
    - apply released_settle. exact H.
    - apply released_settle. exact H. }
  destruct (handle fuel ev st); cbn [ends_in] in *; auto.
Qed.

(** With fuel 3 the handler never runs out of fuel. *)
Lemma onMessage_total (message : Buffer) (st : state) :
  onMessage 3 message st <> OutOfFuel.
Proof.
  apply onMessage_fuel. unfold undemoted.
  destruct (goldSource st), (orangeBox st); cbn; lia.
Qed.

Lemma run_total (events : list event) :
  forall st, run 3 events st <> OutOfFuel.
Proof.
  induction events as [|ev rest IH]; intros st; cbn [run]; [discriminate|].
  assert (Hstep : handle 3 ev st <> OutOfFuel).
  { unfold handle. destruct (closed st); [discriminate|].
    destruct ev as [m| |err];
      [apply onMessage_total|apply socket_close_fuel|apply socket_close_fuel]. }
  destruct (handle 3 ev st); [apply IH|discriminate|contradiction].
Qed.


(* ================================================================= *)
(** ** The reader: widths, ranges and byte order *)

Lemma le_value_range (bs : list byte) :
  0 <= le_value bs < 256 ^ Z.of_nat (length bs).
Proof.
  induction bs as [|b bs IH].
  - cbn. lia.
  - cbn [le_value length]. rewrite Nat2Z.inj_succ, Z.pow_succ_r by lia.
    pose proof (u8_range b). lia.
Qed.

Lemma be_value_range (bs : list byte) :
  0 <= be_value bs < 256 ^ Z.of_nat (length bs).
Proof.
  unfold be_value. rewrite <- (length_rev bs). apply le_value_range.
Qed.

Lemma signed_range (bits v : Z) :
  0 < bits -> 0 <= v < 2 ^ bits ->
  - 2 ^ (bits - 1) <= signed bits v < 2 ^ (bits - 1).
Proof.
  intros Hbits Hv. unfold signed.
  assert (H2 : 2 ^ bits = 2 * 2 ^ (bits - 1)).
  { rewrite <- Z.pow_succ_r by lia. f_equal. lia. }
  destruct (v <? 2 ^ (bits - 1)) eqn:E.
  - apply Z.ltb_lt in E. lia.
  - apply Z.ltb_ge in E. lia.
Qed.

Lemma octets_Some (n : nat) (buf : Buffer) (off : nat) (bs : list byte) :
  Buf.octets n buf off = Some bs ->
  length bs = n /\ (n = 0%nat \/ (off + n <= length buf)%nat)
  /\ bs = firstn n (skipn off buf).
Proof.
  unfold Buf.octets. destruct (Nat.eqb _ n) eqn:E; [|discriminate].
  intros H. injection H as <-. apply Nat.eqb_eq in E.
  split; [exact E|]. split; [|reflexivity].
  rewrite length_firstn, length_skipn in E. lia.
Qed.

Lemma octets_None (n : nat) (buf : Buffer) (off : nat) :
  Buf.octets n buf off = None -> (length buf < off + n)%nat.
Proof.
  unfold Buf.octets. destruct (Nat.eqb _ n) eqn:E; [discriminate|].
  intros _. apply Nat.eqb_neq in E.
  rewrite length_firstn, length_skipn in E. lia.
Qed.

Lemma advancing_fixed_width (n : nat) (lo hi : Z) (value : list byte -> Z) :
  (0 < n)%nat ->
  (forall bs, length bs = n -> lo <= value bs < hi) ->
  fixed_width n lo hi
    (advancing n (fun buf off => option_map value (Buf.octets n buf off))).
Proof.
  intros Hn Hvalue r. unfold advancing.
  destruct (Buf.octets n (buffer r) (offset r)) as [bs|] eqn:E; cbn [option_map].
  - apply octets_Some in E. destruct E as (Hlen & Hfit & _).
    split; [lia|]. split; [reflexivity|]. apply Hvalue, Hlen.
  - apply octets_None, E.
Qed.

Lemma fixed_width_ext (n : nat) (lo hi : Z) (m m' : Read Z) :
  (forall r, m r = m' r) -> fixed_width n lo hi m -> fixed_width n lo hi m'.
Proof.
  intros Hext H r. rewrite <- Hext. apply H.
Qed.

Lemma unsigned_fixed_width (n : nat) (le : bool) :
  (0 < n)%nat ->
  fixed_width n 0 (256 ^ Z.of_nat n)
    (advancing n (if le then Buf.readUIntLE n else Buf.readUIntBE n)).
Proof.
  intros Hn. destruct le.
  - apply (advancing_fixed_width n 0 _ le_value Hn).
    intros bs <-. apply le_value_range.
  - apply (advancing_fixed_width n 0 _ be_value Hn).
    intros bs <-. apply be_value_range.
Qed.

Lemma signed_fixed_width (n : nat) (le : bool) :
  (0 < n)%nat ->
  fixed_width n (- 2 ^ (8 * Z.of_nat n - 1)) (2 ^ (8 * Z.of_nat n - 1))
    (advancing n (if le then Buf.readIntLE n else Buf.readIntBE n)).
Proof.
  intros Hn.
  assert (Hpow : 256 ^ Z.of_nat n = 2 ^ (8 * Z.of_nat n)).
  { change 256 with (2 ^ 8). rewrite <- Z.pow_mul_r by lia. reflexivity. }
  destruct le.
  - apply (fixed_width_ext n _ _
             (advancing n (fun buf off =>
                option_map (fun bs => signed (8 * Z.of_nat n) (le_value bs))
                  (Buf.octets n buf off)))).
    + intros r. unfold advancing, Buf.readIntLE, Buf.readUIntLE.
      destruct (Buf.octets n (buffer r) (offset r)); reflexivity.
    + apply advancing_fixed_width; [exact Hn|].
      intros bs <-. apply signed_range; [lia|].
      rewrite <- Hpow. apply le_value_range.
  - apply (fixed_width_ext n _ _
             (advancing n (fun buf off =>
                option_map (fun bs => signed (8 * Z.of_nat n) (be_value bs))
                  (Buf.octets n buf off)))).
    + intros r. unfold advancing, Buf.readIntBE, Buf.readUIntBE.
      destruct (Buf.octets n (buffer r) (offset r)); reflexivity.
    + apply advancing_fixed_width; [exact Hn|].
      intros bs <-. apply signed_range; [lia|].
      rewrite <- Hpow. apply be_value_range.
Qed.

(** X1. Each integer read of the reader takes the octets of its width at the
    cursor: when that many are left it returns a number in the range of its
    type and moves the cursor by the width, the buffer being the same; when
    fewer are left, and only then, it raises a [RangeError]. *)
Theorem fixed_width_reads :
  fixed_width 1 0 256 readUint8
  /\ fixed_width 1 (-128) 128 readInt8
  /\ (forall le, fixed_width 2 0 65536 (readUint16 le))
  /\ (forall le, fixed_width 2 (-32768) 32768 (readInt16 le))
  /\ (forall le, fixed_width 4 0 4294967296 (readUint32 le))
  /\ (forall le, fixed_width 4 (-2147483648) 2147483648 (readInt32 le))
  /\ (forall le, fixed_width 8 0 18446744073709551616 (readBigUint64 le))
  /\ (forall le,
        fixed_width 8 (-9223372036854775808) 9223372036854775808
          (readBigInt64 le)).
Proof.
  refine (conj _ (conj _ (conj _ (conj _ (conj _ (conj _ (conj _ _))))))).
  - exact (unsigned_fixed_width 1 true ltac:(lia)).
  - exact (signed_fixed_width 1 true ltac:(lia)).
  - intros le. exact (unsigned_fixed_width 2 le ltac:(lia)).
  - intros le. exact (signed_fixed_width 2 le ltac:(lia)).
  - intros le. exact (unsigned_fixed_width 4 le ltac:(lia)).
  - intros le. exact (signed_fixed_width 4 le ltac:(lia)).
  - intros le. exact (unsigned_fixed_width 8 le ltac:(lia)).
  - intros le. exact (signed_fixed_width 8 le ltac:(lia)).
Qed.

Lemma le_value_app (a b : list byte) :
  le_value (a ++ b) = le_value a + 256 ^ Z.of_nat (length a) * le_value b.
Proof.
  induction a as [|x a IH].
  - cbn [app le_value length]. change (256 ^ Z.of_nat 0) with 1.
    destruct (le_value b); reflexivity.
  - cbn [app le_value length]. rewrite IH, Nat2Z.inj_succ, Z.pow_succ_r by lia.
    ring.
Qed.

Lemma be_value_app (a b : list byte) :
  be_value (a ++ b) = 256 ^ Z.of_nat (length b) * be_value a + be_value b.
Proof.
  unfold be_value. rewrite rev_app_distr, le_value_app, length_rev. ring.
Qed.

(** The octets of a read of [n + m] octets are those of a read of [n], then
    those of a read of [m] where the first ends. *)
Lemma octets_split (n m : nat) (buf : Buffer) (off : nat) :
  Buf.octets (n + m) buf off
  = match Buf.octets n buf off with
    | Some a =>
        match Buf.octets m buf (off + n) with
        | Some b => Some (a ++ b)
        | None => None
        end
    | None => None
    end.
Proof.
  unfold Buf.octets.
  rewrite (Nat.add_comm off n), <- (skipn_skipn n off buf).
  set (tail := skipn off buf).
  rewrite !length_firstn, length_skipn.
  destruct (Nat.eqb (Nat.min n (length tail)) n) eqn:En.
  - apply Nat.eqb_eq in En.
    destruct (Nat.eqb (Nat.min m (length tail - n)) m) eqn:Em.
    + apply Nat.eqb_eq in Em.
      replace (Nat.eqb (Nat.min (n + m) (length tail)) (n + m)) with true
        by (symmetry; apply Nat.eqb_eq; lia).
      f_equal. rewrite <- (firstn_skipn n tail) at 1.
      rewrite firstn_app, length_firstn.
      replace (n + m - Nat.min n (length tail))%nat with m by lia.
      rewrite (firstn_all2 (n := (n + m)%nat)) by (rewrite length_firstn; lia).
      reflexivity.
    + apply Nat.eqb_neq in Em.
      replace (Nat.eqb (Nat.min (n + m) (length tail)) (n + m)) with false
        by (symmetry; apply Nat.eqb_neq; lia).
      reflexivity.
  - apply Nat.eqb_neq in En.
    destruct (Nat.eqb (Nat.min (n + m) (length tail)) (n + m)) eqn:E;
      [|reflexivity].
    apply Nat.eqb_eq in E. lia.
Qed.

Lemma advancing_split (n m : nat) (value valueA valueB : list byte -> Z)
  (join : Z -> Z -> Z) :
  (forall a b, length a = n -> length b = m ->
     value (a ++ b) = join (valueA a) (valueB b)) ->
  forall r,
    advancing (n + m)
      (fun buf off => option_map value (Buf.octets (n + m) buf off)) r
    = (let* a := advancing n
                   (fun buf off => option_map valueA (Buf.octets n buf off)) in
       let* b := advancing m
                   (fun buf off => option_map valueB (Buf.octets m buf off)) in
       ret (join a b)) r.
Proof.
  intros Hjoin r. unfold bind, ret, advancing. cbn [buffer offset].
  rewrite octets_split.
  destruct (Buf.octets n (buffer r) (offset r)) as [a|] eqn:Ea;
    cbn [option_map buffer offset]; [|reflexivity].
  destruct (Buf.octets m (buffer r) (offset r + n)) as [b|] eqn:Eb;
    cbn [option_map buffer offset]; [|reflexivity].
  apply octets_Some in Ea. apply octets_Some in Eb.
  rewrite Hjoin by tauto. rewrite Nat.add_assoc. reflexivity.
Qed.

(** X2. Byte order.  A 16-bit read is two reads of one octet, the first being
    the low half of the number in little-endian order and the high half in
    big-endian order, and a 32-bit read is two 16-bit reads in the same way:
    the numbers and the cursors after them agree, and one side raises when
    the other does. *)
Theorem reads_by_halves (r : BufferReader) :
  readUint16 true r
  = (let* lo := readUint8 in let* hi := readUint8 in ret (lo + 256 * hi)) r
  /\ readUint16 false r
     = (let* hi := readUint8 in let* lo := readUint8 in ret (256 * hi + lo)) r
  /\ readUint32 true r
     = (let* lo := readUint16 true in
        let* hi := readUint16 true in ret (lo + 65536 * hi)) r
  /\ readUint32 false r
     = (let* hi := readUint16 false in
        let* lo := readUint16 false in ret (65536 * hi + lo)) r.
Proof.
  refine (conj _ (conj _ (conj _ _))).
  - apply (advancing_split 1 1 le_value le_value le_value
             (fun lo hi => lo + 256 * hi)).
    intros a b Ha Hb. rewrite le_value_app, Ha. reflexivity.
  - apply (advancing_split 1 1 be_value le_value le_value
             (fun hi lo => 256 * hi + lo)).
    intros a b Ha Hb. rewrite be_value_app, Hb.
    destruct a as [|x [|]]; try discriminate.
    destruct b as [|y [|]]; try discriminate.
    reflexivity.
  - apply (advancing_split 2 2 le_value le_value le_value
             (fun lo hi => lo + 65536 * hi)).
    intros a b Ha Hb. rewrite le_value_app, Ha. reflexivity.
  - apply (advancing_split 2 2 be_value be_value be_value
             (fun hi lo => 65536 * hi + lo)).
    intros a b Ha Hb. rewrite be_value_app, Hb. reflexivity.
Qed.

(* ================================================================= *)
(** ** The reader: strings *)

Lemma readString_cursor_tail (r : BufferReader) (s rest : list byte) :
  skipn (offset r) (buffer r) = s ++ x00 :: rest ->
  Forall nonzero s ->
  readString r
  = Some (utf8_decode s, mkReader (buffer r) (offset r + length s + 1))
  /\ skipn (offset r + length s + 1) (buffer r) = rest.
Proof.
  intros Htail Hs. unfold readString. rewrite Htail.
  rewrite (scan_terminated s rest (offset r) Hs). split.
  - unfold Buf.toString, Buf.subarray. rewrite Htail.
    replace (offset r + length s - offset r)%nat with (length s) by lia.
    rewrite firstn_app, firstn_all, Nat.sub_diag. cbn [firstn].
    rewrite app_nil_r. do 3 f_equal. lia.
  - replace (offset r + length s + 1)%nat with (S (length s) + offset r)%nat
      by lia.
    rewrite <- skipn_skipn, Htail.
    change (S (length s)) with (1 + length s)%nat.
    rewrite <- skipn_skipn.
    rewrite skipn_app, skipn_all, Nat.sub_diag. reflexivity.
Qed.

(** X3. A string that has its terminator: [readString] returns the octets
    before the first zero octet, decoded, and leaves the cursor on the octet
    that follows the terminator, so that the next read starts there. *)
Theorem readString_terminated (r : BufferReader) (s rest : list byte) :
  skipn (offset r) (buffer r) = s ++ x00 :: rest ->
  Forall nonzero s ->
  readString r
  = Some (utf8_decode s, mkReader (buffer r) (offset r + length s + 1))
  /\ skipn (offset r + length s + 1) (buffer r) = rest.
Proof.
  exact (readString_cursor_tail r s rest).
Qed.

Lemma utf8_decode_ascii (s : list byte) :
  Forall (fun b => u8 b < 128) s -> utf8_decode s = map u8 s.
Proof.
  unfold utf8_decode. induction s as [|b s IH]; intros H; [reflexivity|].
  apply Forall_cons_iff in H. destruct H as [Hb Hs].
  cbn [utf8_go map].
  replace (u8 b <=? 0x7F) with true by (symmetry; apply Z.leb_le; lia).
  cbn [app]. rewrite (IH Hs). reflexivity.
Qed.

(** X4. A terminated string of ASCII characters is returned character for
    character: the string has one character for each octet before the
    terminator, whose code is the value of the octet. *)
Theorem readString_ascii (r : BufferReader) (s rest : list byte) :
  skipn (offset r) (buffer r) = s ++ x00 :: rest ->
  Forall ascii_octet s ->
  exists r',
    readString r = Some (List.map u8 s, r')
    /\ offset r' = (offset r + length s + 1)%nat.
Proof.
  intros Htail Hs.
  assert (Hnz : Forall nonzero s).
  { revert Hs. apply Forall_impl. intros b [Hb _] ->. vm_compute in Hb.
    discriminate. }
  destruct (readString_cursor_tail r s rest Htail Hnz) as [Hread _].
  exists (mkReader (buffer r) (offset r + length s + 1)).
  rewrite Hread, utf8_decode_ascii.
  - split; reflexivity.
  - revert Hs. apply Forall_impl. intros b [_ Hb]. exact Hb.
Qed.

(* ================================================================= *)
(** ** The decoders read nothing behind the cursor *)

Lemma same_ahead_advance (r1 r2 : BufferReader) (n : nat) :
  same_ahead r1 r2 ->
  same_ahead (mkReader (buffer r1) (offset r1 + n))
             (mkReader (buffer r2) (offset r2 + n)).
Proof.
  intros (Hoff & Hlen & Htail). unfold same_ahead. cbn [buffer offset].
  repeat split; [lia|exact Hlen|].
  rewrite (Nat.add_comm (offset r1)), (Nat.add_comm (offset r2)).
  rewrite <- !skipn_skipn, Htail. reflexivity.
Qed.

Lemma looks_ahead_ret {A} (a : A) : looks_ahead (ret a).
Proof. intros r1 r2 H. cbn. split; [reflexivity|exact H]. Qed.

Lemma looks_ahead_bind {A B} (m : Read A) (k : A -> Read B) :
  looks_ahead m -> (forall a, looks_ahead (k a)) -> looks_ahead (bind m k).
Proof.
  intros Hm Hk r1 r2 H. unfold bind. specialize (Hm r1 r2 H).
  destruct (m r1) as [[a1 r1']|], (m r2) as [[a2 r2']|]; try contradiction.
  - destruct Hm as [<- H']. apply Hk, H'.
  - exact I.
Qed.

Lemma looks_ahead_advancing (n : nat) (read : Buffer -> nat -> option Z) :
  (forall buf1 buf2 off,
     skipn off buf1 = skipn off buf2 -> read buf1 off = read buf2 off) ->
  looks_ahead (advancing n read).
Proof.
  intros Hread r1 r2 H. unfold advancing.
  destruct H as (Hoff & Hlen & Htail).
  assert (E : read (buffer r1) (offset r1) = read (buffer r2) (offset r2)).
  { rewrite <- Hoff. apply Hread. rewrite Hoff at 2. exact Htail. }
  rewrite E.
  destruct (read (buffer r2) (offset r2)); [|exact I].
  split; [reflexivity|].
  apply same_ahead_advance. repeat split; assumption.
Qed.

Lemma octets_ahead (n : nat) (buf1 buf2 : Buffer) (off : nat) :
  skipn off buf1 = skipn off buf2 -> Buf.octets n buf1 off = Buf.octets n buf2 off.
Proof. intros H. unfold Buf.octets. rewrite H. reflexivity. Qed.

Lemma looks_ahead_integers :
  looks_ahead readUint8 /\ looks_ahead readInt8
  /\ looks_ahead (readUint16 true) /\ looks_ahead (readUint32 true)
  /\ looks_ahead (readFloat32 true) /\ looks_ahead (readBigUint64 true).
Proof.
  repeat apply conj; apply looks_ahead_advancing; intros buf1 buf2 off H;
    unfold Buf.readIntLE, Buf.readUIntLE;
    rewrite (octets_ahead _ buf1 buf2 off H); reflexivity.
Qed.

Lemma scan_le (rest : list byte) :
  forall off, (off <= scan rest off <= off + length rest)%nat.
Proof.
  induction rest as [|b rest IH]; intros off; cbn [scan length]; [lia|].
  destruct (Byte.eqb b x00); [lia|]. specialize (IH (S off)). lia.
Qed.

Lemma looks_ahead_readString : looks_ahead readString.
Proof.
  intros r1 r2 (Hoff & Hlen & Htail). unfold readString.
  unfold Buf.toString, Buf.subarray. rewrite Htail, Hoff. split; [reflexivity|].
  set (end_ := scan (skipn (offset r2) (buffer r2)) (offset r2)).
  assert (Hend : (offset r2 <= end_)%nat).
  { subst end_. apply scan_le. }
  unfold same_ahead. cbn [buffer offset]. repeat split; [exact Hlen|].
  replace (S end_) with (S end_ - offset r2 + offset r2)%nat by lia.
  rewrite <- !skipn_skipn. rewrite <- Hoff at 2. rewrite Htail. reflexivity.
Qed.

Lemma looks_ahead_skip (n : nat) : looks_ahead (skip n).
Proof.
  intros r1 r2 H. unfold skip. split; [reflexivity|].
  apply same_ahead_advance, H.
Qed.

Lemma looks_ahead_when {A} (c : bool) (m : Read A) :
  looks_ahead m -> looks_ahead (when_ c m).
Proof.
  intros Hm. destruct c; cbn [when_].
  - apply looks_ahead_bind; [exact Hm|]. intros a. apply looks_ahead_ret.
  - apply looks_ahead_ret.
Qed.

(** Whether octets are left is the same for two such readers. *)
Lemma same_ahead_left (r1 r2 : BufferReader) :
  same_ahead r1 r2 ->
  Nat.ltb (getOffset r1) (byteLength r1) = Nat.ltb (getOffset r2) (byteLength r2).
Proof.
  intros (Hoff & Hlen & _). unfold getOffset, byteLength.
  rewrite Hoff, Hlen. reflexivity.
Qed.

Ltac looks_ahead_step :=
  first
    [ apply looks_ahead_ret
    | apply looks_ahead_readString
    | apply looks_ahead_skip
    | apply (proj1 looks_ahead_integers)
    | apply (proj1 (proj2 looks_ahead_integers))
    | apply (proj1 (proj2 (proj2 looks_ahead_integers)))
    | apply (proj1 (proj2 (proj2 (proj2 looks_ahead_integers))))
    | apply (proj1 (proj2 (proj2 (proj2 (proj2 looks_ahead_integers)))))
    | apply (proj2 (proj2 (proj2 (proj2 (proj2 looks_ahead_integers)))))
    | apply looks_ahead_when
    | (apply looks_ahead_bind; [|intro]) ].

Lemma looks_ahead_parseExtraData : looks_ahead parseExtraData.
Proof. unfold parseExtraData. repeat looks_ahead_step. Qed.

Lemma looks_ahead_parseInfoResponse : looks_ahead parseInfoResponse.
Proof.
  unfold parseInfoResponse. do 14 (apply looks_ahead_bind; [looks_ahead_step|intro]).
  intros r1 r2 H. rewrite (same_ahead_left r1 r2 H).
  refine (looks_ahead_bind (when_ _ parseExtraData) (fun e => ret _) _ _ r1 r2 H).
  - apply looks_ahead_when, looks_ahead_parseExtraData.
  - intros e. apply looks_ahead_ret.
Qed.

Lemma looks_ahead_parseInfoObsoleteResponse :
  looks_ahead parseInfoObsoleteResponse.
Proof.
  unfold parseInfoObsoleteResponse, parseMod. repeat looks_ahead_step.
Qed.

Lemma looks_ahead_readPlayers (count : nat) : looks_ahead (readPlayers count).
Proof.
  induction count as [|count IH]; cbn [readPlayers].
  - apply looks_ahead_ret.
  - do 4 (apply looks_ahead_bind; [looks_ahead_step|intro]).
    apply looks_ahead_bind; [exact IH|intro]. apply looks_ahead_ret.
Qed.

Lemma looks_ahead_readTheShip (players : list PlayerInfo.t) :
  looks_ahead (readTheShip players).
Proof.
  induction players as [|p players IH]; cbn [readTheShip].
  - apply looks_ahead_ret.
  - do 2 (apply looks_ahead_bind; [looks_ahead_step|intro]).
    apply looks_ahead_bind; [exact IH|intro]. apply looks_ahead_ret.
Qed.

Lemma looks_ahead_parsePlayerResponse : looks_ahead parsePlayerResponse.
Proof.
  unfold parsePlayerResponse.
  apply looks_ahead_bind; [looks_ahead_step|intro].
  apply looks_ahead_bind; [apply looks_ahead_readPlayers|intro players].
  intros r1 r2 H. rewrite (same_ahead_left r1 r2 H).
  destruct (Nat.ltb (getOffset r2) (byteLength r2)).
  - apply looks_ahead_readTheShip, H.
  - apply looks_ahead_ret, H.
Qed.

Lemma looks_ahead_readRules (count : nat) :
  forall rules, looks_ahead (readRules count rules).
Proof.
  induction count as [|count IH]; intros rules; cbn [readRules].
  - apply looks_ahead_ret.
  - do 2 (apply looks_ahead_bind; [looks_ahead_step|intro]). apply IH.
Qed.

Lemma looks_ahead_parseRulesResponse : looks_ahead parseRulesResponse.
Proof.
  unfold parseRulesResponse.
  apply looks_ahead_bind; [looks_ahead_step|intro]. apply looks_ahead_readRules.
Qed.

Lemma looks_ahead_value {A} (m : Read A) (r1 r2 : BufferReader) :
  looks_ahead m -> same_ahead r1 r2 ->
  option_map fst (m r1) = option_map fst (m r2).
Proof.
  intros Hm H. specialize (Hm r1 r2 H).
  destruct (m r1) as [[a1 r1']|], (m r2) as [[a2 r2']|]; try contradiction.
  - destruct Hm as [<- _]. reflexivity.
  - reflexivity.
Qed.

(** The decoder that [parseResponse] selects. *)
Lemma parseResponse_decoders (payload : Buffer) :
  parseResponse payload
  = match option_map fst (readInt8 (mkReader payload 4)) with
    | None => inl RangeError
    | Some header =>
        let reader := mkReader payload 5 in
        let decoded {A} (wrap : A -> response) (parse : Read A) :=
          match option_map fst (parse reader) with
          | Some a => inr (wrap a)
          | None => inl RangeError
          end in
        if header =? 0x49 then decoded Info parseInfoResponse
        else if header =? 0x6D then decoded Info parseInfoObsoleteResponse
        else if header =? 0x44 then decoded Players parsePlayerResponse
        else if header =? 0x45 then decoded RulesOf parseRulesResponse
        else inl UnknownResponseType
    end.
Proof.
  unfold parseResponse, readInt8, advancing. cbn [buffer offset].
  destruct (Buf.readIntLE 1 payload 4) as [h|]; cbn [option_map fst];
    [|reflexivity].
  change (4 + 1)%nat with 5%nat.
  repeat match goal with
         | |- context [if ?c then _ else _] => destruct c
         end;
    try reflexivity;
    match goal with
    | |- context [?parse (mkReader payload 5)] =>
        destruct (parse (mkReader payload 5)) as [[a r]|]; reflexivity
    end.
Qed.

(** X5. [parseResponse] never looks at the four octets that precede the
    discriminator: two payloads that differ in them only decode alike,
    whether to a result or to an error. *)
Theorem parseResponse_ignores_marker (a b rest : Buffer) :
  length a = 4%nat -> length b = 4%nat ->
  parseResponse (a ++ rest) = parseResponse (b ++ rest).
Proof.
  intros Ha Hb.
  assert (H4 : same_ahead (mkReader (a ++ rest) 4) (mkReader (b ++ rest) 4)).
  { unfold same_ahead. cbn [buffer offset]. rewrite !length_app, Ha, Hb.
    repeat split.
    transitivity rest.
    - rewrite <- Ha. apply skipn_cursor.
    - rewrite <- Hb. symmetry. apply skipn_cursor. }
  assert (H5 : same_ahead (mkReader (a ++ rest) 5) (mkReader (b ++ rest) 5)).
  { exact (same_ahead_advance _ _ 1 H4). }
  rewrite !parseResponse_decoders.
  rewrite (looks_ahead_value readInt8 _ _ (proj1 (proj2 looks_ahead_integers)) H4).
  destruct (option_map fst (readInt8 (mkReader (b ++ rest) 4))) as [h|];
    [|reflexivity].
  cbv beta zeta.
  rewrite (looks_ahead_value _ _ _ looks_ahead_parseInfoResponse H5).
  rewrite (looks_ahead_value _ _ _ looks_ahead_parseInfoObsoleteResponse H5).
  rewrite (looks_ahead_value _ _ _ looks_ahead_parsePlayerResponse H5).
  rewrite (looks_ahead_value _ _ _ looks_ahead_parseRulesResponse H5).
  reflexivity.
Qed.

(* ================================================================= *)
(** ** The discriminator *)

Lemma u8_inj (b c : byte) : u8 b = u8 c -> b = c.
Proof.
  unfold u8. intros H. apply N2Z.inj in H.
  assert (E : Byte.of_N (Byte.to_N b) = Byte.of_N (Byte.to_N c)) by (rewrite H; reflexivity).
  rewrite !Byte.of_to_N in E. injection E as E. exact E.
Qed.

(** A signed octet equals the value of an ASCII octet when it is that
    octet. *)
Lemma signed_octet_eqb (b c : byte) :
  u8 c < 128 -> (signed 8 (u8 b) =? u8 c) = true <-> b = c.
Proof.
  intros Hc. rewrite Z.eqb_eq. split.
  - unfold signed. change (2 ^ (8 - 1)) with 128. change (2 ^ 8) with 256.
    pose proof (u8_range b) as Hb. pose proof (u8_range c) as Hc'.
    destruct (u8 b <? 128) eqn:E; intros H.
    + apply u8_inj, H.
    + apply Z.ltb_ge in E. lia.
  - intros ->. unfold signed. change (2 ^ (8 - 1)) with 128.
    apply Z.ltb_lt in Hc. rewrite Hc. reflexivity.
Qed.

Lemma nth_error_skipn_hd {A} (l : list A) (n : nat) :
  nth_error l n = hd_error (skipn n l).
Proof.
  revert l. induction n as [|n IH]; intros [|x l]; cbn; try reflexivity.
  apply IH.
Qed.

Lemma readInt8_nth (buf : Buffer) (off : nat) :
  option_map fst (readInt8 (mkReader buf off))
  = option_map (fun b => signed 8 (u8 b)) (nth_error buf off).
Proof.
  unfold readInt8, advancing, Buf.readIntLE, Buf.readUIntLE, Buf.octets.
  cbn [buffer offset]. rewrite nth_error_skipn_hd.
  destruct (skipn off buf) as [|b rest]; [reflexivity|].
  cbn [firstn length Nat.eqb option_map fst le_value hd_error].
  rewrite Z.mul_0_r, Z.add_0_r. reflexivity.
Qed.

(** X6. The fifth octet of a payload alone selects its decoder.  A payload
    of fewer than five octets raises a [RangeError]; the answer is "Unknown
    response type" exactly when the fifth octet is none of 0x49, 0x6D, 0x44
    and 0x45; and a result is server information only under 0x49 or 0x6D, a
    player list only under 0x44, rules only under 0x45. *)
Theorem parseResponse_discriminator (payload : Buffer) :
  ((length payload <= 4)%nat -> parseResponse payload = inl RangeError)
  /\ (parseResponse payload = inl UnknownResponseType
      <-> exists b, nth_error payload 4 = Some b
                    /\ b <> x49 /\ b <> x6d /\ b <> x44 /\ b <> x45)
  /\ (forall data,
        parseResponse payload = inr data ->
        match data with
        | Info _ =>
            nth_error payload 4 = Some x49 \/ nth_error payload 4 = Some x6d
        | Players _ => nth_error payload 4 = Some x44
        | RulesOf _ => nth_error payload 4 = Some x45
        end).
Proof.
  rewrite parseResponse_decoders, readInt8_nth.
  destruct (nth_error payload 4) as [b|] eqn:Eb; cbn [option_map].
  - assert (H49 := signed_octet_eqb b x49 ltac:(vm_compute; reflexivity)).
    assert (H6d := signed_octet_eqb b x6d ltac:(vm_compute; reflexivity)).
    assert (H44 := signed_octet_eqb b x44 ltac:(vm_compute; reflexivity)).
    assert (H45 := signed_octet_eqb b x45 ltac:(vm_compute; reflexivity)).
    change (u8 x49) with 0x49 in H49. change (u8 x6d) with 0x6D in H6d.
    change (u8 x44) with 0x44 in H44. change (u8 x45) with 0x45 in H45.
    cbv beta zeta.
    split; [intros Hlen; apply nth_error_None in Hlen; congruence|].
    destruct (signed 8 (u8 b) =? 0x49) eqn:E49;
      [|destruct (signed 8 (u8 b) =? 0x6D) eqn:E6d;
        [|destruct (signed 8 (u8 b) =? 0x44) eqn:E44;
          [|destruct (signed 8 (u8 b) =? 0x45) eqn:E45]]].
    + assert (b = x49) by (apply H49; reflexivity). subst b.
      destruct (option_map fst _); (split; [split|]).
      all: try discriminate.
      all: try (intros (b' & Hb' & Hne & _); injection Hb' as <-; congruence).
      all: intros data H; first [discriminate H|injection H as <-; left; reflexivity].
    + assert (b = x6d) by (apply H6d; reflexivity). subst b.
      destruct (option_map fst _); (split; [split|]).
      all: try discriminate.
      all: try (intros (b' & Hb' & _ & Hne & _); injection Hb' as <-; congruence).
      all: intros data H; first [discriminate H|injection H as <-; right; reflexivity].
    + assert (b = x44) by (apply H44; reflexivity). subst b.
      destruct (option_map fst _); (split; [split|]).
      all: try discriminate.
      all: try (intros (b' & Hb' & _ & _ & Hne & _); injection Hb' as <-; congruence).
      all: intros data H; first [discriminate H|injection H as <-; reflexivity].
    + assert (b = x45) by (apply H45; reflexivity). subst b.
      destruct (option_map fst _); (split; [split|]).
      all: try discriminate.
      all: try (intros (b' & Hb' & _ & _ & _ & Hne); injection Hb' as <-; congruence).
      all: intros data H; first [discriminate H|injection H as <-; reflexivity].
    + split; [split|].
      * intros _. exists b. split; [reflexivity|].
        repeat split; intros ->.
        -- vm_compute in E49. discriminate E49.
        -- vm_compute in E6d. discriminate E6d.
        -- vm_compute in E44. discriminate E44.
        -- vm_compute in E45. discriminate E45.
      * reflexivity.
      * discriminate.
  - split; [reflexivity|]. split; [split|].
    + discriminate.
    + intros (b & Hb & _). discriminate.
    + discriminate.
Qed.

(* ================================================================= *)
(** ** The rules *)

Lemma jsstring_eqb_eq (a b : jsstring) : jsstring_eqb a b = true <-> a = b.
Proof.
  unfold jsstring_eqb. destruct (list_eq_dec Z.eq_dec a b); split; congruence.
Qed.

Lemma jsstring_eqb_refl (a : jsstring) : jsstring_eqb a a = true.
Proof. apply jsstring_eqb_eq. reflexivity. Qed.

Lemma jsstring_eqb_neq (a b : jsstring) : jsstring_eqb a b = false <-> a <> b.
Proof.
  unfold jsstring_eqb. destruct (list_eq_dec Z.eq_dec a b); split; congruence.
Qed.

Lemma jsstring_eqb_sym (a b : jsstring) : jsstring_eqb a b = jsstring_eqb b a.
Proof.
  unfold jsstring_eqb.
  destruct (list_eq_dec Z.eq_dec a b), (list_eq_dec Z.eq_dec b a); congruence.
Qed.

Lemma assign_keys (key value : jsstring) (o : Rules) :
  List.map fst (assign key value o)
  = if existsb (jsstring_eqb key) (List.map fst o)
    then List.map fst o else List.map fst o ++ [key].
Proof.
  induction o as [|[k v] o IH]; [reflexivity|].
  cbn [assign List.map fst existsb].
  destruct (jsstring_eqb k key) eqn:E.
  - apply jsstring_eqb_eq in E. subst k. rewrite jsstring_eqb_refl. reflexivity.
  - replace (jsstring_eqb key k) with false.
    + cbn [orb List.map fst]. rewrite IH.
      destruct (existsb _ _); reflexivity.
    + rewrite jsstring_eqb_sym. symmetry. exact E.
Qed.

Lemma own_property_assign (key value : jsstring) (o : Rules) (k : jsstring) :
  own_property k (assign key value o)
  = if jsstring_eqb key k then Some value else own_property k o.
Proof.
  unfold own_property. induction o as [|[k' v'] o IH].
  - cbn [assign find fst]. destruct (jsstring_eqb key k); reflexivity.
  - cbn [assign]. destruct (jsstring_eqb k' key) eqn:E.
    + apply jsstring_eqb_eq in E. subst k'. cbn [find fst].
      destruct (jsstring_eqb key k); reflexivity.
    + cbn [find fst]. destruct (jsstring_eqb k' k) eqn:E'.
      * apply jsstring_eqb_eq in E'. subst k'.
        rewrite (jsstring_eqb_sym key k), E. reflexivity.
      * exact IH.
Qed.

Lemma own_property_rules_set (key value : jsstring) (o : Rules) (k : jsstring) :
  own_property k (rules_set key value o)
  = if jsstring_eqb key (js "__proto__") then own_property k o
    else if jsstring_eqb key k then Some value else own_property k o.
Proof.
  unfold rules_set. destruct (jsstring_eqb key (js "__proto__")); [reflexivity|].
  apply own_property_assign.
Qed.

Lemma own_property_None (k : jsstring) (o : Rules) :
  own_property k o = None <-> ~ In k (List.map fst o).
Proof.
  unfold own_property. induction o as [|[k' v'] o IH].
  - cbn. tauto.
  - cbn [find fst List.map In]. destruct (jsstring_eqb k' k) eqn:E.
    + apply jsstring_eqb_eq in E. cbn. split; [discriminate|tauto].
    + apply jsstring_eqb_neq in E. rewrite IH. tauto.
Qed.

Lemma rules_set_kept (key value : jsstring) (o : Rules) :
  rules_kept o ->
  rules_kept (rules_set key value o)
  /\ (length (rules_set key value o) <= S (length o))%nat.
Proof.
  intros [Hnd Hproto]. unfold rules_set.
  destruct (jsstring_eqb key (js "__proto__")) eqn:E.
  - split; [split; assumption|lia].
  - apply jsstring_eqb_neq in E.
    assert (Hlen : length (assign key value o) = length (List.map fst (assign key value o)))
      by (rewrite length_map; reflexivity).
    unfold rules_kept. rewrite Hlen, assign_keys.
    destruct (existsb (jsstring_eqb key) (List.map fst o)) eqn:Ex.
    + rewrite length_map. repeat split; [assumption|assumption|lia].
    + assert (Hnew : ~ In key (List.map fst o)).
      { intros Hin. apply Bool.not_true_iff_false in Ex. apply Ex.
        apply existsb_exists. exists key. split; [exact Hin|apply jsstring_eqb_refl]. }
      rewrite length_app, length_map. cbn [length]. repeat split.
      * apply NoDup_app; [exact Hnd|repeat constructor; intros []|].
        intros x Hx [<-|[]]. exact (Hnew Hx).
      * rewrite in_app_iff. intros [H|[H|[]]]; [exact (Hproto H)|congruence].
      * lia.
Qed.

Lemma readRules_kept (count : nat) :
  forall o r,
    rules_kept o ->
    exists o' r',
      readRules count o r = Some (o', r')
      /\ rules_kept o' /\ (length o' <= length o + count)%nat.
Proof.
  induction count as [|count IH]; intros o r Ho; cbn [readRules].
  - exists o, r. repeat split; [apply Ho|apply Ho|lia].
  - unfold bind at 1. unfold readString at 1. cbv beta iota zeta.
    unfold bind at 1. unfold readString at 1. cbv beta iota zeta.
    match goal with
    | |- context [readRules count (rules_set ?k ?v o) ?r1] =>
        destruct (rules_set_kept k v o Ho) as [Hkept Hlen];
        destruct (IH (rules_set k v o) r1 Hkept) as (o' & r' & Hread & Ho' & Hlen')
    end.
    exists o', r'. repeat split; [exact Hread|apply Ho'|apply Ho'|lia].
Qed.

(** X7. The rules decoder raises only when the two octets of the rule count
    are missing.  The object it returns has no name twice, never the name
    [__proto__], and at most as many rules as the count announces. *)
Theorem parseRulesResponse_result (r : BufferReader) :
  match parseRulesResponse r with
  | None => (length (buffer r) < offset r + 2)%nat
  | Some (rules, _) =>
      (offset r + 2 <= length (buffer r))%nat
      /\ NoDup (List.map fst rules)
      /\ ~ In (js "__proto__") (List.map fst rules)
      /\ exists ruleCount,
           option_map fst (readUint16 true r) = Some ruleCount
           /\ Z.of_nat (length rules) <= ruleCount
  end.
Proof.
  unfold parseRulesResponse, bind.
  assert (Hcount := unsigned_fixed_width 2 true ltac:(lia) r).
  change (advancing 2 (if true then Buf.readUIntLE 2 else Buf.readUIntBE 2))
    with (readUint16 true) in Hcount.
  destruct (readUint16 true r) as [[ruleCount r1]|]; [|exact Hcount].
  destruct Hcount as (Hfit & _ & Hrange).
  destruct (readRules_kept (Z.to_nat ruleCount) [] r1) as (o & r' & Hread & [Hnd Hproto] & Hlen).
  { split; [constructor|intros []]. }
  rewrite Hread. repeat split; try assumption.
  exists ruleCount. split; [reflexivity|]. cbn [length] in Hlen. lia.
Qed.

Lemma readRules_wire (rules : list (list byte * list byte)) :
  forall o read rest,
    Forall rule_on_wire rules ->
    readRules (length rules) o (cursor read (rules_octets rules ++ rest))
    = Some (rules_assigned rules o, cursor (read ++ rules_octets rules) rest).
Proof.
  induction rules as [|[k v] rules IH]; intros o read rest Hwire.
  - cbn. rewrite app_nil_r. reflexivity.
  - apply Forall_cons_iff in Hwire. destruct Hwire as [[Hk Hv] Hwire].
    cbn [fst snd] in Hk, Hv.
    cbn [length readRules rules_octets List.map List.concat].
    unfold rule_octets at 1. cbn [fst snd]. rewrite <- !app_assoc.
    unfold bind at 1. rewrite (readString_cursor read k _ Hk).
    unfold bind at 1. rewrite (readString_cursor (read ++ cstring k) v _ Hv).
    fold (rules_octets rules). rewrite (IH _ _ rest Hwire).
    cbn [rules_assigned fold_left rule_decoded fst snd].
    unfold rule_octets. cbn [fst snd]. rewrite <- !app_assoc. reflexivity.
Qed.

Lemma own_property_app (key : jsstring) (a b : Rules) :
  own_property key (a ++ b)
  = match own_property key a with
    | Some v => Some v
    | None => own_property key b
    end.
Proof.
  unfold own_property. induction a as [|[k v] a IH]; [reflexivity|].
  cbn [app find fst]. destruct (jsstring_eqb k key); [reflexivity|exact IH].
Qed.

Lemma own_property_rules_assigned (rules : list (list byte * list byte)) :
  forall o key,
    own_property key (rules_assigned rules o)
    = match own_property key
              (List.filter
                 (fun kv => negb (jsstring_eqb (fst kv) (js "__proto__")))
                 (rev (List.map rule_decoded rules))) with
      | Some v => Some v
      | None => own_property key o
      end.
Proof.
  induction rules as [|rule rules IH]; intros o key; [reflexivity|].
  cbn [rules_assigned fold_left List.map rev].
  change (fold_left _ rules ?o') with (rules_assigned rules o').
  rewrite IH, own_property_rules_set.
  rewrite List.filter_app, own_property_app. cbn [List.filter].
  destruct (own_property key (List.filter _ (rev (List.map rule_decoded rules))));
    [reflexivity|].
  destruct (jsstring_eqb (fst (rule_decoded rule)) (js "__proto__"));
    cbn [negb]; [reflexivity|].
  change (own_property key [rule_decoded rule])
    with (option_map snd
            (if jsstring_eqb (fst (rule_decoded rule)) key
             then Some (rule_decoded rule) else None)).
  destruct (jsstring_eqb (fst (rule_decoded rule)) key); reflexivity.
Qed.

Lemma assign_new (key value : jsstring) (o : Rules) :
  ~ In key (List.map fst o) -> assign key value o = o ++ [(key, value)].
Proof.
  induction o as [|[k v] o IH]; intros Hnew; [reflexivity|].
  cbn [assign app]. cbn [List.map fst In] in Hnew.
  replace (jsstring_eqb k key) with false.
  - rewrite IH by tauto. reflexivity.
  - symmetry. apply jsstring_eqb_neq. tauto.
Qed.

Lemma rules_assigned_distinct (rules : list (list byte * list byte)) :
  forall o,
    NoDup (List.map fst o ++ List.map fst (List.map rule_decoded rules)) ->
    ~ In (js "__proto__") (List.map fst (List.map rule_decoded rules)) ->
    rules_assigned rules o = o ++ List.map rule_decoded rules.
Proof.
  induction rules as [|rule rules IH]; intros o Hnd Hproto.
  - cbn. rewrite app_nil_r. reflexivity.
  - cbn [rules_assigned fold_left List.map] in *.
    change (fold_left _ rules ?o') with (rules_assigned rules o').
    assert (Hset : rules_set (fst (rule_decoded rule)) (snd (rule_decoded rule)) o
                   = o ++ [rule_decoded rule]).
    { unfold rules_set.
      replace (jsstring_eqb (fst (rule_decoded rule)) (js "__proto__")) with false.
      - apply NoDup_remove_2 in Hnd. rewrite in_app_iff in Hnd.
        rewrite assign_new by tauto.
        destruct (rule_decoded rule); reflexivity.
      - symmetry. apply jsstring_eqb_neq. intros E. apply Hproto. left. exact E. }
    rewrite Hset, IH.
    + rewrite <- app_assoc. reflexivity.
    + rewrite List.map_app, <- app_assoc. exact Hnd.
    + intros H. apply Hproto. right. exact H.
Qed.

(** X8. A rule list as it comes on the wire, the count on two octets and then
    as many rules as it says, each a name and a value with their
    terminators: the decoder consumes exactly these octets; the value it
    returns for a name is the one of the last rule of that name, the name
    [__proto__] apart, which it never returns; and when no name comes twice
    the result holds the rules of the wire and nothing else. *)
Theorem parseRulesResponse_wire (read rest : list byte) (lo hi : byte)
  (rules : list (list byte * list byte)) :
  Forall rule_on_wire rules ->
  u8 lo + 256 * u8 hi = Z.of_nat (length rules) ->
  exists o,
    parseRulesResponse (cursor read ([lo; hi] ++ rules_octets rules ++ rest))
    = Some (o, cursor (read ++ [lo; hi] ++ rules_octets rules) rest)
    /\ (forall key,
          own_property key o
          = if jsstring_eqb key (js "__proto__") then None
            else own_property key (rev (List.map rule_decoded rules)))
    /\ (NoDup (List.map fst (List.map rule_decoded rules)) ->
        ~ In (js "__proto__") (List.map fst (List.map rule_decoded rules)) ->
        Permutation o (List.map rule_decoded rules)).
Proof.
  intros Hwire Hcount. exists (rules_assigned rules []).
  split; [|split].
  - unfold parseRulesResponse. unfold bind at 1. cbn [app].
    rewrite readUint16_cursor, Hcount, Nat2Z.id.
    rewrite (readRules_wire rules [] (read ++ [lo; hi]) rest Hwire).
    rewrite <- app_assoc. reflexivity.
  - intros key. rewrite own_property_rules_assigned.
    change (own_property key []) with (@None jsstring).
    generalize (rev (List.map rule_decoded rules)). intros l.
    unfold own_property.
    induction l as [|[k v] l IH]; cbn [List.filter find fst].
    + destruct (jsstring_eqb key (js "__proto__")); reflexivity.
    + destruct (jsstring_eqb k (js "__proto__")) eqn:Ek; cbn [negb find fst].
      * destruct (jsstring_eqb k key) eqn:E.
        -- apply jsstring_eqb_eq in E. subst key. rewrite Ek.
           rewrite Ek in IH. exact IH.
        -- exact IH.
      * destruct (jsstring_eqb k key) eqn:E.
        -- apply jsstring_eqb_eq in E. subst key. rewrite Ek. reflexivity.
        -- exact IH.
  - intros Hnd Hproto.
    rewrite (rules_assigned_distinct rules []) by assumption.
    apply Permutation_refl.
Qed.

Lemma readRules_add (n m : nat) :
  forall o r,
    readRules (n + m) o r
    = match readRules n o r with
      | Some (o', r') => readRules m o' r'
      | None => None
      end.
Proof.
  induction n as [|n IH]; intros o r; [reflexivity|].
  cbn [Nat.add readRules]. unfold bind at 1 3. unfold readString at 1 3.
  cbv beta iota zeta. unfold bind at 1 2. unfold readString at 1 2.
  cbv beta iota zeta. apply IH.
Qed.

Lemma readString_at_end (r : BufferReader) :
  (length (buffer r) <= offset r)%nat ->
  readString r = Some (js "", mkReader (buffer r) (S (offset r))).
Proof.
  intros H. unfold readString, Buf.toString, Buf.subarray.
  rewrite skipn_all2 by exact H. cbn [scan]. rewrite firstn_nil. reflexivity.
Qed.

Lemma assign_again (key value : jsstring) (o : Rules) :
  assign key value (assign key value o) = assign key value o.
Proof.
  induction o as [|[k v] o IH]; cbn [assign].
  - rewrite jsstring_eqb_refl. reflexivity.
  - destruct (jsstring_eqb k key) eqn:E; cbn [assign]; rewrite E; [reflexivity|].
    rewrite IH. reflexivity.
Qed.

Lemma readRules_at_end (count : nat) :
  forall o r,
    (length (buffer r) <= offset r)%nat ->
    readRules (S count) o r
    = Some (rules_set (js "") (js "") o,
            mkReader (buffer r) (offset r + 2 * S count)).
Proof.
  induction count as [|count IH]; intros o r Hend.
  - cbn [readRules]. unfold bind at 1. rewrite (readString_at_end r Hend).
    unfold bind at 1. rewrite readString_at_end by (cbn [buffer offset]; lia).
    cbn [buffer offset ret].
    replace (offset r + 2 * 1)%nat with (S (S (offset r))) by lia. reflexivity.
  - change (readRules (S (S count)) o r)
      with ((let* key := readString in
             let* value := readString in
             readRules (S count) (rules_set key value o)) r).
    unfold bind at 1. rewrite (readString_at_end r Hend).
    unfold bind at 1. rewrite readString_at_end by (cbn [buffer offset]; lia).
    cbn [buffer offset]. rewrite IH by (cbn [buffer offset]; lia).
    cbn [buffer offset].
    replace (S (S (offset r)) + 2 * S count)%nat
      with (offset r + 2 * S (S count))%nat by lia.
    do 2 f_equal. unfold rules_set.
    change (jsstring_eqb (js "") (js "__proto__")) with false. cbv iota.
    apply assign_again.
Qed.

(** X9. A rule list cut short after some of its rules, so that the count
    announces more rules than follow: the decoder raises nothing.  It reads
    every missing rule as the empty name with the empty value, and returns
    the rules that were there with the empty name given the empty value. *)
Theorem parseRulesResponse_truncated (read : list byte) (lo hi : byte)
  (rules : list (list byte * list byte)) :
  Forall rule_on_wire rules ->
  Z.of_nat (length rules) < u8 lo + 256 * u8 hi ->
  exists r',
    parseRulesResponse (cursor read ([lo; hi] ++ rules_octets rules))
    = Some (rules_set (js "") (js "") (rules_assigned rules []), r')
    /\ own_property (js "") (rules_set (js "") (js "") (rules_assigned rules []))
       = Some (js "")
    /\ (length (buffer r') < offset r')%nat.
Proof.
  intros Hwire Hcount.
  remember (Z.to_nat (u8 lo + 256 * u8 hi) - S (length rules))%nat as missing.
  assert (Hsplit : Z.to_nat (u8 lo + 256 * u8 hi)
                   = (length rules + S missing)%nat) by lia.
  unfold parseRulesResponse. unfold bind at 1. cbn [app].
  rewrite readUint16_cursor, Hsplit, readRules_add.
  rewrite <- (app_nil_r (rules_octets rules)).
  rewrite (readRules_wire rules [] (read ++ [lo; hi]) [] Hwire).
  rewrite readRules_at_end
    by (unfold cursor; cbn [buffer offset]; rewrite app_nil_r; lia).
  eexists. split; [reflexivity|]. split.
  - rewrite own_property_rules_set.
    change (jsstring_eqb (js "") (js "__proto__")) with false.
    rewrite jsstring_eqb_refl. reflexivity.
  - unfold cursor. cbn [buffer offset]. rewrite app_nil_r. lia.
Qed.

(* ================================================================= *)
(** ** The players *)

Lemma advancing_cursor (n : nat) (value : list byte -> Z)
  (read bs rest : list byte) :
  length bs = n ->
  advancing n (fun buf off => option_map value (Buf.octets n buf off))
    (cursor read (bs ++ rest))
  = Some (value bs, cursor (read ++ bs) rest).
Proof.
  intros Hn. unfold advancing, cursor. cbn [buffer offset]. cbv beta.
  rewrite (octets_cursor n read bs rest Hn). cbn [option_map].
  rewrite <- Hn. do 2 f_equal. exact (cursor_step read bs rest).
Qed.

Lemma readUint32_cursor (read bs rest : list byte) :
  length bs = 4%nat ->
  readUint32 true (cursor read (bs ++ rest))
  = Some (le_value bs, cursor (read ++ bs) rest).
Proof. exact (advancing_cursor 4 le_value read bs rest). Qed.

Lemma readFloat32_cursor (read bs rest : list byte) :
  length bs = 4%nat ->
  readFloat32 true (cursor read (bs ++ rest))
  = Some (le_value bs, cursor (read ++ bs) rest).
Proof. exact (advancing_cursor 4 le_value read bs rest). Qed.

Lemma readBigUint64_cursor (read bs rest : list byte) :
  length bs = 8%nat ->
  readBigUint64 true (cursor read (bs ++ rest))
  = Some (le_value bs, cursor (read ++ bs) rest).
Proof. exact (advancing_cursor 8 le_value read bs rest). Qed.

Lemma readPlayers_wire (players : list wire_player) :
  forall read rest,
    Forall player_on_wire players ->
    readPlayers (length players) (cursor read (players_octets players ++ rest))
    = Some (players_decoded players [],
            cursor (read ++ players_octets players) rest).
Proof.
  induction players as [|p players IH]; intros read rest Hwire.
  - cbn. rewrite app_nil_r. reflexivity.
  - apply Forall_cons_iff in Hwire.
    destruct Hwire as [(Hname & Hscore & Hduration) Hwire].
    cbn [length readPlayers players_octets List.map List.concat].
    fold (players_octets players).
    unfold player_octets at 1. rewrite <- !app_assoc. cbn [app].
    unfold bind at 1. rewrite readUint8_cursor.
    unfold bind at 1. rewrite (readString_cursor _ _ _ Hname).
    unfold bind at 1. rewrite (readUint32_cursor _ _ _ Hscore).
    unfold bind at 1. rewrite (readFloat32_cursor _ _ _ Hduration).
    unfold bind at 1. rewrite (IH _ rest Hwire). cbn [ret].
    cbn [players_decoded hd_error tl]. unfold player_octets.
    rewrite <- !app_assoc. reflexivity.
Qed.

Lemma readTheShip_wire (players : list wire_player) :
  forall ship read rest,
    length ship = length players ->
    Forall ship_on_wire ship ->
    readTheShip (players_decoded players [])
      (cursor read (ships_octets ship ++ rest))
    = Some (players_decoded players ship,
            cursor (read ++ ships_octets ship) rest).
Proof.
  induction players as [|p players IH]; intros ship read rest Hlen Hwire.
  - destruct ship; [|discriminate]. cbn. rewrite app_nil_r. reflexivity.
  - destruct ship as [|s ship]; [discriminate|].
    apply Forall_cons_iff in Hwire. destruct Hwire as [[Hdeaths Hmoney] Hwire].
    cbn [players_decoded readTheShip ships_octets List.map List.concat hd_error tl].
    fold (ships_octets ship). unfold ship_octets at 1. rewrite <- !app_assoc.
    unfold bind at 1. rewrite (readUint32_cursor _ _ _ Hdeaths).
    unfold bind at 1. rewrite (readUint32_cursor _ _ _ Hmoney).
    unfold bind at 1. rewrite (IH ship _ rest) by (cbn in Hlen; auto).
    cbn [ret]. unfold ship_octets. rewrite <- !app_assoc. reflexivity.
Qed.

(** X10. A player list as it comes on the wire: the count on one octet, as
    many players as it says and, for The Ship, as many pairs of deaths and
    money after them.  With nothing after the players the decoder returns
    them without these two fields; with the pairs after them it returns
    every player with both, whatever follows the pairs. *)
Theorem parsePlayerResponse_wire (read rest : list byte) (count : byte)
  (players : list wire_player) (ship : list (list byte * list byte)) :
  u8 count = Z.of_nat (length players) ->
  Forall player_on_wire players ->
  (ship = [] /\ rest = [])
  \/ (length ship = length players /\ Forall ship_on_wire ship) ->
  parsePlayerResponse
    (cursor read
       ([count] ++ players_octets players ++ ships_octets ship ++ rest))
  = Some (players_decoded players ship,
          cursor (read ++ [count] ++ players_octets players ++ ships_octets ship)
            rest).
Proof.
  intros Hcount Hplayers Hship.
  unfold parsePlayerResponse. unfold bind at 1. cbn [app].
  rewrite readUint8_cursor, Hcount, Nat2Z.id.
  unfold bind at 1.
  rewrite (readPlayers_wire players (read ++ [count]) _ Hplayers).
  rewrite <- !app_assoc. cbn [app].
  unfold getOffset, byteLength, cursor at 1 2. cbn [buffer offset].
  destruct Hship as [[-> ->]|[Hlen Hwire]].
  - cbn [ships_octets List.map List.concat app]. rewrite ?app_nil_r.
    rewrite Nat.ltb_irrefl. reflexivity.
  - destruct (Nat.ltb _ _) eqn:E.
    + rewrite (readTheShip_wire players ship _ rest Hlen Hwire).
      rewrite <- !app_assoc. reflexivity.
    + apply Nat.ltb_ge in E. rewrite !length_app in E.
      assert (Hnone : ships_octets ship ++ rest = [])
        by (apply length_zero_iff_nil; rewrite length_app; lia).
      apply app_eq_nil in Hnone. destruct Hnone as [Hs ->].
      destruct ship as [|[deaths money] ship].
      * destruct players; [|discriminate Hlen].
        cbn [ships_octets players_octets List.map List.concat app players_decoded].
        rewrite ?app_nil_r. reflexivity.
      * apply Forall_cons_iff in Hwire. destruct Hwire as [[Hd _] _].
        cbn in Hs, Hd. destruct deaths; discriminate.
Qed.

Lemma bind_Some {A B} (m : Read A) (k : A -> Read B) (r r' : BufferReader) (b : B) :
  bind m k r = Some (b, r') ->
  exists a r1, m r = Some (a, r1) /\ k a r1 = Some (b, r').
Proof.
  unfold bind. destruct (m r) as [[a r1]|]; [|discriminate].
  intros H. exists a, r1. split; [reflexivity|exact H].
Qed.

Lemma readPlayers_length (count : nat) :
  forall r r' players,
    readPlayers count r = Some (players, r') ->
    length players = count
    /\ Forall (fun p => PlayerInfo.deaths p = None /\ PlayerInfo.money p = None)
              players.
Proof.
  induction count as [|count IH]; intros r r' players H; cbn [readPlayers] in H.
  - injection H as <- _. split; [reflexivity|constructor].
  - apply bind_Some in H. destruct H as (index & r1 & _ & H).
    apply bind_Some in H. destruct H as (name & r2 & _ & H).
    apply bind_Some in H. destruct H as (score & r3 & _ & H).
    apply bind_Some in H. destruct H as (duration & r4 & _ & H).
    apply bind_Some in H. destruct H as (rest & r5 & Hrest & H).
    injection H as <- _. destruct (IH _ _ _ Hrest) as [Hlen Hall].
    split; [cbn [length]; congruence|].
    constructor; [split; reflexivity|exact Hall].
Qed.

Lemma readTheShip_length (players : list PlayerInfo.t) :
  forall r r' players',
    readTheShip players r = Some (players', r') ->
    length players' = length players
    /\ Forall (fun p => PlayerInfo.deaths p <> None /\ PlayerInfo.money p <> None)
              players'.
Proof.
  induction players as [|p players IH]; intros r r' players' H;
    cbn [readTheShip] in H.
  - injection H as <- _. split; [reflexivity|constructor].
  - apply bind_Some in H. destruct H as (deaths & r1 & _ & H).
    apply bind_Some in H. destruct H as (money & r2 & _ & H).
    apply bind_Some in H. destruct H as (rest & r3 & Hrest & H).
    injection H as <- _. destruct (IH _ _ _ Hrest) as [Hlen Hall].
    split; [cbn [length]; congruence|].
    constructor; [split; discriminate|exact Hall].
Qed.

(** X11. Whatever the octets, a player list that the decoder returns has
    exactly as many players as the count octet says, hence at most 255, and
    the two fields of The Ship are present for all of its players or for
    none. *)
Theorem parsePlayerResponse_result (r r' : BufferReader)
  (players : list PlayerInfo.t) :
  parsePlayerResponse r = Some (players, r') ->
  option_map fst (readUint8 r) = Some (Z.of_nat (length players))
  /\ (length players <= 255)%nat
  /\ (Forall (fun p => PlayerInfo.deaths p = None /\ PlayerInfo.money p = None)
             players
      \/ Forall (fun p => PlayerInfo.deaths p <> None
                          /\ PlayerInfo.money p <> None)
                players).
Proof.
  intros H. unfold parsePlayerResponse in H.
  apply bind_Some in H. destruct H as (playerCount & r1 & Hcount & H).
  apply bind_Some in H. destruct H as (basic & r2 & Hbasic & H).
  pose proof (readUint8_range _ _ _ Hcount) as Hrange.
  destruct (readPlayers_length _ _ _ _ Hbasic) as [Hlen Hnone].
  rewrite Hcount. cbn [option_map fst].
  destruct (Nat.ltb (getOffset r2) (byteLength r2)).
  - destruct (readTheShip_length _ _ _ _ H) as [Hlen' Hboth].
    rewrite Hlen', Hlen. repeat split; [f_equal; lia|lia|right; exact Hboth].
  - injection H as <- _.
    rewrite Hlen. repeat split; [f_equal; lia|lia|left; exact Hnone].
Qed.

(* ================================================================= *)
(** ** The server information *)

Lemma readUint16_octets (read bs rest : list byte) :
  length bs = 2%nat ->
  readUint16 true (cursor read (bs ++ rest))
  = Some (le_value bs, cursor (read ++ bs) rest).
Proof. exact (advancing_cursor 2 le_value read bs rest). Qed.

(** An optional field: it is read when its bit is set, and then takes its
    octets. *)
Lemma when_wire {A W} (o : option W) (octets : W -> Buffer) (value : W -> A)
  (m : Read A) (read rest : list byte) :
  (forall w, o = Some w ->
     m (cursor read (octets w ++ rest))
     = Some (value w, cursor (read ++ octets w) rest)) ->
  when_ (is_some o) m (cursor read (optional_octets octets o ++ rest))
  = Some (option_map value o, cursor (read ++ optional_octets octets o) rest).
Proof.
  intros Hm. destruct o as [w|]; cbn [is_some when_ optional_octets option_map].
  - unfold bind. rewrite (Hm w eq_refl). reflexivity.
  - cbn. rewrite app_nil_r. reflexivity.
Qed.

Lemma has_bit_extra_flag (e : wire_extra) (spare : Z) :
  In spare [0; 2; 4; 6; 8; 10; 12; 14] ->
  has_bit (extra_flag e + spare) 0x80 = is_some (wire_port e)
  /\ has_bit (extra_flag e + spare) 0x10 = is_some (wire_steamID e)
  /\ has_bit (extra_flag e + spare) 0x40 = is_some (wire_tv e)
  /\ has_bit (extra_flag e + spare) 0x20 = is_some (wire_keywords e)
  /\ has_bit (extra_flag e + spare) 0x01 = is_some (wire_gameID e).
Proof.
  intros Hspare. unfold extra_flag.
  destruct (is_some (wire_port e)), (is_some (wire_steamID e)),
    (is_some (wire_tv e)), (is_some (wire_keywords e)),
    (is_some (wire_gameID e));
    repeat (destruct Hspare as [<-|Hspare]; [vm_compute; repeat split|]);
    destruct Hspare.
Qed.

(** X12. The optional fields of an info response.  Each bit of the flag
    octet announces one of them, 0x80 the port, 0x10 the SteamID, 0x40 the
    port and the name of SourceTV, 0x20 the keywords and 0x01 the GameID; the
    bits 0x02, 0x04 and 0x08 announce nothing.  The decoder returns the
    fields that are announced, read in this order from the octets after the
    flag, leaves the others undefined, and stops after the last of them. *)
Theorem parseExtraData_wire (read rest : list byte) (flag : byte)
  (e : wire_extra) (spare : Z) :
  extra_on_wire e ->
  In spare [0; 2; 4; 6; 8; 10; 12; 14] ->
  u8 flag = extra_flag e + spare ->
  parseExtraData (cursor read (extra_octets flag e ++ rest))
  = Some (extra_decoded e, cursor (read ++ extra_octets flag e) rest).
Proof.
  intros (Hport & Hsteam & Htv & Hkeywords & Hgame) Hspare Hflag.
  destruct (has_bit_extra_flag e spare Hspare) as (B80 & B10 & B40 & B20 & B01).
  unfold parseExtraData, extra_octets. rewrite <- !app_assoc. cbn [app].
  unfold bind at 1. rewrite readUint8_cursor, Hflag, B80, B10, B40, B20, B01.
  unfold bind at 1.
  rewrite (when_wire (wire_port e) (fun bs => bs) le_value).
  2:{ intros w Hw. rewrite Hw in Hport. apply readUint16_octets, Hport. }
  unfold bind at 1.
  rewrite (when_wire (wire_steamID e) (fun bs => bs) le_value).
  2:{ intros w Hw. rewrite Hw in Hsteam. apply readBigUint64_cursor, Hsteam. }
  unfold bind at 1.
  rewrite (when_wire (wire_tv e) tv_octets
             (fun tv => (le_value (fst tv), utf8_decode (snd tv)))).
  2:{ intros [port name] Hw. rewrite Hw in Htv. destruct Htv as [Hp Hn].
      cbn [fst snd] in *. unfold tv_octets. cbn [fst snd].
      rewrite <- !app_assoc.
      unfold bind at 1. rewrite (readUint16_octets _ _ _ Hp).
      unfold bind at 1. rewrite (readString_cursor _ _ _ Hn).
      cbn [ret]. rewrite <- !app_assoc. reflexivity. }
  unfold bind at 1.
  rewrite (when_wire (wire_keywords e) cstring utf8_decode).
  2:{ intros w Hw. rewrite Hw in Hkeywords. apply readString_cursor, Hkeywords. }
  unfold bind at 1.
  rewrite (when_wire (wire_gameID e) (fun bs => bs) le_value).
  2:{ intros w Hw. rewrite Hw in Hgame. apply readBigUint64_cursor, Hgame. }
  cbn [ret]. rewrite <- !app_assoc. cbn [app]. f_equal. f_equal.
  unfold extra_decoded. f_equal; destruct (wire_tv e); reflexivity.
Qed.


(** X13. The info response of a Source server, field after field: protocol,
    name, map, folder, game, the application id on two octets, players,
    maxPlayers, bots, server type, environment, visibility, vac, version.
    When the payload ends with the version the result has no [extraData];
    when anything follows, [extraData] is what [parseExtraData] reads there,
    and the whole decoder raises if that raises. *)
Theorem parseInfoResponse_wire (read tail : list byte) (i : wire_info) :
  info_on_wire i ->
  parseInfoResponse (cursor read (info_octets i ++ tail))
  = match tail with
    | [] => Some (info_decoded i None, cursor (read ++ info_octets i) [])
    | _ :: _ =>
        match parseExtraData (cursor (read ++ info_octets i) tail) with
        | Some (extraData, reader) =>
            Some (info_decoded i (Some extraData), reader)
        | None => None
        end
    end.
Proof.
  intros (Hname & Hmap & Hfolder & Hgame & Hid & Hversion).
  unfold parseInfoResponse, info_octets. rewrite <- !app_assoc. cbn [app].
  unfold bind at 1. rewrite readUint8_cursor.
  unfold bind at 1. rewrite (readString_cursor _ _ _ Hname).
  unfold bind at 1. rewrite (readString_cursor _ _ _ Hmap).
  unfold bind at 1. rewrite (readString_cursor _ _ _ Hfolder).
  unfold bind at 1. rewrite (readString_cursor _ _ _ Hgame).
  unfold bind at 1. rewrite (readUint16_octets _ _ _ Hid).
  do 7 (unfold bind at 1; rewrite readUint8_cursor).
  unfold bind at 1. rewrite (readString_cursor _ _ _ Hversion).
  rewrite <- !app_assoc. cbn [app].
  match goal with
  | |- context [cursor ?consumed tail] => set (before := consumed)
  end.
  unfold getOffset, byteLength, cursor at 1 2. cbn [buffer offset].
  destruct tail as [|b tail].
  - rewrite app_nil_r, Nat.ltb_irrefl. reflexivity.
  - replace (Nat.ltb (length before) (length (before ++ b :: tail))) with true
      by (symmetry; apply Nat.ltb_lt; rewrite length_app; cbn [length]; lia).
    cbn [when_]. unfold bind.
    destruct (parseExtraData (cursor before (b :: tail))) as [[extraData reader]|];
      reflexivity.
Qed.

Lemma skip_cursor (read rest : list byte) (b : byte) :
  skip 1 (cursor read (b :: rest)) = Some (tt, cursor (read ++ [b]) rest).
Proof.
  unfold skip, cursor. cbn [buffer offset].
  rewrite <- app_assoc, length_app. reflexivity.
Qed.

Lemma parseMod_cursor (read rest : list byte) (m : wire_mod) :
  mod_on_wire m ->
  parseMod (cursor read (mod_octets m ++ rest))
  = Some (mod_decoded m, cursor (read ++ mod_octets m) rest).
Proof.
  intros (Hlink & Hdownload & Hversion & Hsize).
  unfold parseMod, mod_octets. rewrite <- !app_assoc. cbn [app].
  unfold bind at 1. rewrite (readString_cursor _ _ _ Hlink).
  unfold bind at 1. rewrite (readString_cursor _ _ _ Hdownload).
  unfold bind at 1.
  rewrite skip_cursor.
  unfold bind at 1. rewrite (readUint32_cursor _ _ _ Hversion).
  unfold bind at 1. rewrite (readUint32_cursor _ _ _ Hsize).
  cbn [app].
  do 2 (unfold bind at 1; rewrite readUint8_cursor).
  cbn [ret]. rewrite <- !app_assoc. reflexivity.
Qed.

(** X14. The obsolete GoldSource info response, field after field: address,
    name, map, folder, game, players, maxPlayers, protocol, server type,
    environment, visibility, the octet that announces a mod, the mod when
    this octet is 1 (two links, an octet that is skipped, version and size
    on four octets, type, DLL), then vac and bots, which come last on the
    wire and replace the zeros the result starts with. *)
Theorem parseInfoObsoleteResponse_wire (read rest : list byte)
  (o : wire_obsolete) :
  obsolete_on_wire o ->
  parseInfoObsoleteResponse (cursor read (obsolete_octets o ++ rest))
  = Some (obsolete_decoded o, cursor (read ++ obsolete_octets o) rest).
Proof.
  intros (Haddress & Hname & Hmap & Hfolder & Hgame & HisMod & Hmod).
  unfold parseInfoObsoleteResponse, obsolete_octets.
  rewrite <- !app_assoc. cbn [app].
  unfold bind at 1. rewrite (readString_cursor _ _ _ Haddress).
  unfold bind at 1. rewrite (readString_cursor _ _ _ Hname).
  unfold bind at 1. rewrite (readString_cursor _ _ _ Hmap).
  unfold bind at 1. rewrite (readString_cursor _ _ _ Hfolder).
  unfold bind at 1. rewrite (readString_cursor _ _ _ Hgame).
  do 7 (unfold bind at 1; rewrite readUint8_cursor).
  rewrite <- HisMod.
  unfold bind at 1.
  rewrite (when_wire (obsolete_mod o) mod_octets mod_decoded).
  2:{ intros m Hm. rewrite Hm in Hmod. apply parseMod_cursor, Hmod. }
  do 2 (unfold bind at 1; rewrite readUint8_cursor).
  cbn [ret]. rewrite <- ?app_assoc. cbn [app]. rewrite <- ?app_assoc.
  reflexivity.
Qed.

(* ================================================================= *)
(** ** The handler: datagrams that are no fragments *)

Lemma readInt32_None (message : Buffer) :
  (length message < 4)%nat -> readInt32 true (mkReader message 0) = None.
Proof.
  intros Hlen.
  pose proof (signed_fixed_width 4 true ltac:(lia) (mkReader message 0)) as H.
  change (advancing 4 (if true then Buf.readIntLE 4 else Buf.readIntBE 4))
    with (readInt32 true) in H.
  destruct (readInt32 true (mkReader message 0)) as [[v r]|]; [|reflexivity].
  cbn [buffer offset] in H. lia.
Qed.

(** X15. A datagram of fewer than four octets, the empty one among them:
    the handler raises a [RangeError] at its first read, having logged the
    datagram and done nothing else; the promise, the socket and the buffer
    are as they were. *)
Theorem short_datagram (fuel : nat) (message : Buffer) (st : state) :
  (length message < 4)%nat ->
  onMessage (S fuel) message st = Throws RangeError (log (Recv message) st).
Proof.
  intros Hlen. rewrite onMessage_classify. cbv zeta.
  unfold classify. rewrite (readInt32_None message Hlen). reflexivity.
Qed.

Lemma readInt32_marker (a b c d : byte) (rest : list byte) :
  readInt32 true (mkReader (a :: b :: c :: d :: rest) 0)
  = Some (signed 32 (le_value [a; b; c; d]),
          mkReader (a :: b :: c :: d :: rest) 4).
Proof. reflexivity. Qed.

Lemma marker_value (a b c d m : byte) :
  signed 32 (le_value [a; b; c; d]) = signed 32 (le_value [m; xff; xff; xff]) ->
  u8 m >= 254 ->
  a = m /\ b = xff /\ c = xff /\ d = xff.
Proof.
  intros H Hm.
  pose proof (u8_range a) as Ha. pose proof (u8_range b) as Hb.
  pose proof (u8_range c) as Hc. pose proof (u8_range d) as Hd.
  pose proof (u8_range m) as Hm'.
  unfold signed in H. cbn [le_value] in H.
  change (u8 xff) with 255 in H.
  change (2 ^ (32 - 1)) with 2147483648 in H.
  change (2 ^ 32) with 4294967296 in H.
  repeat match type of H with
         | context [if ?c then _ else _] =>
             let E := fresh "E" in
             destruct c eqn:E;
             [apply Z.ltb_lt in E|apply Z.ltb_ge in E]
         end;
    try lia.
  assert (u8 a = u8 m /\ u8 b = 255 /\ u8 c = 255 /\ u8 d = 255) as (Ea & Eb & Ec & Ed)
    by lia.
  repeat split; apply u8_inj; assumption.
Qed.

Lemma classify_SinglePacket (gold orange : bool) (message : Buffer) :
  firstn 4 message = [xff; xff; xff; xff] ->
  is_challenge message = false ->
  classify gold orange message = SinglePacket.
Proof.
  intros Hmarker Hch.
  destruct message as [|a [|b [|c [|d rest]]]]; try discriminate Hmarker.
  injection Hmarker as -> -> -> ->.
  unfold classify. rewrite readInt32_marker, Hch. reflexivity.
Qed.

(** X16. A single-packet response, the marker 0xFFFFFFFF and a fifth octet
    other than 0x41, reaches an open call whose promise is pending.  When
    [parseResponse] decodes it, the handler resolves the promise with the
    result and closes the socket; it sends nothing and leaves the packets
    buffered so far where they are.  When [parseResponse] raises, the handler
    raises the same error, having done nothing but log the datagram. *)
Theorem single_packet_response (fuel : nat) (message : Buffer) (st : state) :
  firstn 4 message = [xff; xff; xff; xff] ->
  is_challenge message = false ->
  closed st = false ->
  promise st = Pending ->
  match parseResponse message with
  | inr data =>
      exists st',
        onMessage (S fuel) message st = Returns st'
        /\ promise st' = Resolved data /\ closed st' = true
        /\ sent st' = sent st /\ packets st' = packets st
  | inl err =>
      onMessage (S fuel) message st = Throws err (log (Recv message) st)
  end.
Proof.
  intros Hmarker Hch Hopen Hpending.
  rewrite onMessage_classify. cbv zeta. cbn [goldSource orangeBox log].
  rewrite (classify_SinglePacket _ _ _ Hmarker Hch).
  unfold dispatch. destruct (parseResponse message) as [err|data];
    [reflexivity|].
  unfold socket_close, resolve. cbn [promise log closed]. rewrite Hpending.
  cbn [closed with_promise log]. rewrite Hopen.
  eexists. split; [reflexivity|]. repeat split.
Qed.

(** X17. A datagram of at least four octets whose marker is neither
    0xFFFFFFFF nor 0xFFFFFFFE, and whose fifth octet is not 0x41, reaches an
    open call whose promise is pending: the handler rejects the promise with
    "Invalid response header" and closes the socket; it sends nothing. *)
Theorem invalid_response_header (fuel : nat) (message : Buffer) (st : state) :
  (4 <= length message)%nat ->
  firstn 4 message <> [xff; xff; xff; xff] ->
  firstn 4 message <> [xfe; xff; xff; xff] ->
  is_challenge message = false ->
  closed st = false ->
  promise st = Pending ->
  exists st',
    onMessage (S fuel) message st = Returns st'
    /\ promise st' = Rejected InvalidResponseHeader /\ closed st' = true
    /\ sent st' = sent st /\ packets st' = packets st.
Proof.
  intros Hlen Hsingle Hmulti Hch Hopen Hpending.
  destruct message as [|a [|b [|c [|d rest]]]]; cbn [length] in Hlen; try lia.
  cbn [firstn] in Hsingle, Hmulti.
  rewrite onMessage_classify. cbv zeta. cbn [goldSource orangeBox log].
  unfold classify. rewrite readInt32_marker, Hch.
  destruct (signed 32 (le_value [a; b; c; d]) =? A2S_SINGLE_PACKET_HEADER) eqn:E1.
  { apply Z.eqb_eq in E1.
    destruct (marker_value a b c d xff E1 ltac:(vm_compute; discriminate))
      as (-> & -> & -> & ->).
    contradiction Hsingle. reflexivity. }
  destruct (signed 32 (le_value [a; b; c; d]) =? A2S_MULTI_PACKET_HEADER) eqn:E2.
  { apply Z.eqb_eq in E2.
    destruct (marker_value a b c d xfe E2 ltac:(vm_compute; discriminate))
      as (-> & -> & -> & ->).
    contradiction Hmulti. reflexivity. }
  unfold socket_close, reject. cbn [promise log closed]. rewrite Hpending.
  cbn [closed with_promise log]. rewrite Hopen.
  eexists. split; [reflexivity|]. repeat split.
Qed.

(* ================================================================= *)
(** ** The call: what it sends, and when it closes its socket *)

Lemma run_invariant (Q : state -> Prop) (fuel : nat) :
  (forall message st, Q st -> ends_in Q (onMessage fuel message st)) ->
  (forall st err, Q st -> ends_in Q (socket_close (reject err st))) ->
  forall events st, Q st -> ends_in Q (run fuel events st).
Proof.
  intros Hmessage Hreject events.
  induction events as [|ev rest IH]; intros st H; cbn [run]; [exact H|].
  assert (Hstep : ends_in Q (handle fuel ev st)).
  { unfold handle. destruct (closed st); [exact H|].
    destruct ev as [m| |err]; [apply Hmessage|apply Hreject|apply Hreject];
      exact H. }
  destruct (handle fuel ev st); cbn [ends_in] in *; auto.
Qed.

Lemma first_request_sent :
  get = Returns (with_sent [first_request] (log (Send first_request) fresh)).
Proof.
  unfold get, sendRequest, socket_send, first_request, request_head.
  cbn [closed fresh log sent app].
  destruct (header =? 0x54); cbn [negb]; rewrite ?app_nil_r; reflexivity.
Qed.

Lemma requests_of_call_settle :
  (forall st data, requests_of_call st ->
     ends_in requests_of_call (socket_close (resolve data st)))
  /\ (forall st err, requests_of_call st ->
        ends_in requests_of_call (socket_close (reject err st))).
Proof.
  split; intros st x (later & Hsent & Hlen & Hretry & Hshape); unfold socket_close.
  - destruct (resolve_fields x st) as (Hr & _ & _ & _ & _ & _ & _ & Hs & _).
    destruct (closed (resolve x st)); cbn [ends_in]; exists later;
      cbn [sent retryCount with_closed]; rewrite Hr, Hs; auto.
  - destruct (reject_fields x st) as (Hr & _ & _ & _ & _ & _ & _ & Hs & _).
    destruct (closed (reject x st)); cbn [ends_in]; exists later;
      cbn [sent retryCount with_closed]; rewrite Hr, Hs; auto.
Qed.

Lemma onMessage_requests_of_call (fuel : nat) (message : Buffer) (st : state) :
  requests_of_call st -> ends_in requests_of_call (onMessage fuel message st).
Proof.
  intros H.
  apply (onMessage_invariant (fun _ => True) requests_of_call); auto;
    try (intros; assumption); try apply requests_of_call_settle.
  - intros; apply Forall_True.
  - intros s m (later & Hsent & Hlen & Hretry & Hshape) _ _ Hguard.
    unfold sendRequest, socket_send. cbn [closed log with_retryCount].
    destruct (closed s); cbn [ends_in].
    + exists later. cbn [sent retryCount log with_retryCount].
      repeat split; auto; lia.
    + exists (later ++ [request_head header ++ Buf.subarray m 5 9]).
      cbn [sent retryCount log with_retryCount with_sent].
      rewrite Hsent. split.
      { cbn [app]. do 2 f_equal. unfold request_head.
        destruct (header =? 0x54); rewrite ?app_nil_r; reflexivity. }
      rewrite length_app. cbn [length]. split; [lia|]. split; [lia|].
      apply Forall_app. split; [exact Hshape|]. constructor; [|constructor].
      exists (Buf.subarray m 5 9). split; [reflexivity|].
      unfold Buf.subarray. rewrite length_firstn. lia.
Qed.

(** X18. Throughout a call the socket has been given the first request (the
    request head and, for a header other than A2S_INFO, four octets 0xFF),
    then at most two more datagrams, one for each retry made: at most three
    in all.  Each of the later ones is the request head followed by the
    token of a challenge, at most four octets. *)
Theorem at_most_three_requests (fuel : nat) (events : list event) (st0 st : state) :
  get = Returns st0 ->
  final (run fuel events st0) st ->
  exists later,
    sent st = first_request :: later
    /\ (length later <= retryCount st)%nat
    /\ (length (sent st) <= 3)%nat
    /\ Forall (fun request =>
                 exists token,
                   request = request_head header ++ token
                   /\ (length token <= 4)%nat)
              later.
Proof.
  intros Hget Hfinal.
  assert (H0 : requests_of_call st0).
  { rewrite first_request_sent in Hget. injection Hget as <-.
    exists []. cbn [sent with_sent retryCount log fresh length maxRetries].
    repeat split; [lia|lia|constructor]. }
  pose proof (run_invariant requests_of_call fuel
                (onMessage_requests_of_call fuel)
                (proj2 requests_of_call_settle) events st0 H0) as Hrun.
  destruct (ends_in_final _ _ _ Hrun Hfinal)
    as (later & Hsent & Hlen & Hretry & Hshape).
  exists later. rewrite Hsent. cbn [length]. unfold maxRetries in Hretry.
  repeat split; auto; lia.
Qed.

Lemma closed_when_settled_settle :
  (forall st data, closed_when_settled st ->
     ends_in closed_when_settled (socket_close (resolve data st)))
  /\ (forall st err, closed_when_settled st ->
        ends_in closed_when_settled (socket_close (reject err st))).
Proof.
  split; intros st x H; unfold socket_close, closed_when_settled in *.
  - unfold resolve. destruct (promise st) eqn:Hp, (closed st) eqn:Hc;
      cbn [closed promise with_promise with_closed ends_in];
      rewrite ?Hp, ?Hc; cbn [closed promise with_promise with_closed ends_in];
      rewrite ?Hp, ?Hc; split; intros; try discriminate; try reflexivity;
      try (apply H; discriminate).
  - unfold reject. destruct (promise st) eqn:Hp, (closed st) eqn:Hc;
      cbn [closed promise with_promise with_closed ends_in];
      rewrite ?Hp, ?Hc; cbn [closed promise with_promise with_closed ends_in];
      rewrite ?Hp, ?Hc; split; intros; try discriminate; try reflexivity;
      try (apply H; discriminate).
Qed.

Lemma onMessage_closed_when_settled (fuel : nat) (message : Buffer) (st : state) :
  closed_when_settled st ->
  ends_in closed_when_settled (onMessage fuel message st).
Proof.
  intros H.
  apply (onMessage_invariant (fun _ => True) closed_when_settled); auto;
    try (intros; assumption); try apply closed_when_settled_settle.
  - intros; apply Forall_True.
  - intros s m Hs _ _ _.
    apply (sendRequest_invariant closed_when_settled); auto.
Qed.

(** X19. Throughout a call the socket is closed exactly when the promise is
    settled: a handler that resolves or rejects the promise closes the
    socket before it returns, and the socket is closed by no handler that
    has not settled the promise.  (A handler that raises does neither.) *)
Theorem socket_closed_when_settled (fuel : nat) (events : list event)
  (st0 st : state) :
  get = Returns st0 ->
  final (run fuel events st0) st ->
  closed st = true <-> promise st <> Pending.
Proof.
  intros Hget Hfinal.
  assert (H0 : closed_when_settled st0).
  { rewrite first_request_sent in Hget. injection Hget as <-.
    unfold closed_when_settled. cbn. split; [discriminate|congruence]. }
  pose proof (run_invariant closed_when_settled fuel
                (onMessage_closed_when_settled fuel)
                (proj2 closed_when_settled_settle) events st0 H0) as Hrun.
  exact (ends_in_final _ _ _ Hrun Hfinal).
Qed.

(* ================================================================= *)
(** ** The handler ends *)

Lemma forEach_more (body body' : Buffer -> state -> completion)
  (entries : list Buffer) :
  (forall m s, body m s <> OutOfFuel -> body' m s = body m s) ->
  forall st,
    forEach body entries st <> OutOfFuel ->
    forEach body' entries st = forEach body entries st.
Proof.
  intros Hbody. induction entries as [|m rest IH]; intros st H; [reflexivity|].
  cbn [forEach] in *.
  assert (Hm : body m st <> OutOfFuel).
  { intros E. rewrite E in H. apply H. reflexivity. }
  rewrite (Hbody m st Hm).
  destruct (body m st); [apply IH; exact H|reflexivity|reflexivity].
Qed.

Lemma reload_more (body body' : Buffer -> state -> completion)
  (message : option Buffer) (st : state) :
  (forall m s, body m s <> OutOfFuel -> body' m s = body m s) ->
  reload body message st <> OutOfFuel ->
  reload body' message st = reload body message st.
Proof.
  intros Hbody. unfold reload. apply forEach_more. exact Hbody.
Qed.

(** Once the handler has fuel enough to end, more fuel changes nothing. *)
Lemma onMessage_more (fuel : nat) :
  forall message st,
    onMessage fuel message st <> OutOfFuel ->
    onMessage (S fuel) message st = onMessage fuel message st.
Proof.
  induction fuel as [|fuel IH]; intros message st H.
  - contradiction H. reflexivity.
  - rewrite (onMessage_classify (S fuel)).
    rewrite (onMessage_classify fuel) in H |- *. cbv zeta in H |- *.
    destruct (classify _ _ message); try reflexivity.
    + apply reload_more; [exact IH|exact H].
    + apply reload_more; [exact IH|exact H].
    + revert H. unfold store, reassemble. cbv zeta.
      repeat match goal with
             | |- context [if ?c then _ else _] => destruct c
             | |- context [match Bunzip_decode ?p with _ => _ end] =>
                 destruct (Bunzip_decode p)
             end;
        intros H; try reflexivity;
        (apply reload_more; [exact IH|exact H]).
Qed.

(** X20. The handler of a datagram always ends, by returning or by raising:
    it calls itself through [reload] at most two levels deep, each level
    having demoted one of the two dialect assumptions.  (In this embedding:
    three units of fuel are enough for every datagram and every state, and
    with more fuel the handler ends in the same way.) *)
Theorem onMessage_ends (message : Buffer) (st : state) :
  (exists st', final (onMessage 3 message st) st')
  /\ forall fuel, onMessage (3 + fuel) message st = onMessage 3 message st.
Proof.
  pose proof (onMessage_total message st) as Htotal. split.
  - destruct (onMessage 3 message st) as [st'|err st'|].
    + exists st'. left. reflexivity.
    + exists st'. right. exists err. reflexivity.
    + contradiction Htotal. reflexivity.
  - intros fuel. induction fuel as [|fuel IH]; [reflexivity|].
    replace (3 + S fuel)%nat with (S (3 + fuel)) by lia.
    rewrite onMessage_more; [exact IH|]. rewrite IH. exact Htotal.
Qed.

(* ================================================================= *)
(** ** The buffer of packets *)

Lemma packets_set_replace (key : Z) (v1 v2 : Buffer) (o : list (Z * Buffer)) :
  packets_set key v2 (packets_set key v1 o) = packets_set key v2 o.
Proof.
  induction o as [|[k v] o IH]; cbn [packets_set].
  - rewrite Z.eqb_refl. reflexivity.
  - destruct (key =? k) eqn:E; cbn [packets_set].
    + rewrite Z.eqb_refl. reflexivity.
    + destruct (key <? k) eqn:E'; cbn [packets_set].
      * rewrite Z.eqb_refl. reflexivity.
      * rewrite E, E', IH. reflexivity.
Qed.

Lemma packets_set_length_same (key : Z) (v1 v2 : Buffer) (o : list (Z * Buffer)) :
  length (packets_set key v2 o) = length (packets_set key v1 o).
Proof.
  induction o as [|[k v] o IH]; cbn [packets_set]; [reflexivity|].
  destruct (key =? k); [reflexivity|].
  destruct (key <? k); [reflexivity|]. cbn [length]. rewrite IH. reflexivity.
Qed.

(** X21. Two datagrams that carry the same packet number, neither of them
    completing the response: the second takes the place of the first in the
    buffer, which holds as many packets after it as before.  A datagram that
    comes twice leaves the call, its trace apart, as it was after the first
    time. *)
Theorem later_datagram_replaces (fuel : nat) (first second : Buffer)
  (st : state) (f1 f2 : fragment) :
  classify (goldSource st) (orangeBox st) first = Fragment f1 ->
  classify (goldSource st) (orangeBox st) second = Fragment f2 ->
  packetNumber f2 = packetNumber f1 ->
  totalPackets f2 = totalPackets f1 ->
  Z.of_nat (length (Object_keys (packets (buffered f1 first st))))
    <> totalPackets f1 ->
  exists st1 st2,
    onMessage (S fuel) first st = Returns st1
    /\ onMessage (S fuel) second st1 = Returns st2
    /\ packets st2 = packets_set (packetNumber f1) second (packets st)
    /\ length (packets st2) = length (packets st1)
    /\ (second = first -> untraced st2 = untraced st1).
Proof.
  intros H1 H2 Hnumber Htotal Hcount.
  destruct (buffered_fields f1 first st)
    as (B1 & B2 & B3 & B4 & B5 & B6 & B7 & B8 & B9).
  destruct (buffered_fields f2 second (buffered f1 first st))
    as (C1 & C2 & C3 & C4 & C5 & C6 & C7 & C8 & C9).
  assert (Hpackets : packets (buffered f2 second (buffered f1 first st))
                     = packets_set (packetNumber f1) second (packets st)).
  { rewrite C8, B8, Hnumber. apply packets_set_replace. }
  assert (Hlength : length (packets (buffered f2 second (buffered f1 first st)))
                    = length (packets (buffered f1 first st))).
  { rewrite Hpackets, B8. apply packets_set_length_same. }
  exists (buffered f1 first st), (buffered f2 second (buffered f1 first st)).
  split; [|split; [|split; [|split]]].
  - rewrite (onMessage_fragment fuel first st f1 H1).
    apply Z.eqb_neq in Hcount. rewrite Hcount. reflexivity.
  - rewrite (onMessage_fragment fuel second (buffered f1 first st) f2)
      by (rewrite B3, B4; exact H2).
    unfold Object_keys in *. rewrite length_map in *.
    rewrite Hlength, Htotal.
    apply Z.eqb_neq in Hcount. rewrite Hcount. reflexivity.
  - exact Hpackets.
  - exact Hlength.
  - intros ->. assert (f2 = f1) by congruence. subst f2.
    unfold untraced. rewrite C1, C2, C3, C4, C5, C6, C7, C9, Hpackets, B2, B8, B9.
    destruct (checksum f1); reflexivity.
Qed.

(* ================================================================= *)
(** ** The headers of the packets *)













(* ================================================================= *)
(** ** A response in several packets *)

Lemma StronglySorted_lt_NoDup (l : list Z) : StronglySorted Z.lt l -> NoDup l.
Proof.
  induction 1 as [|k l Hl IH Hk]; constructor; [|exact IH].
  intros Hin. rewrite Forall_forall in Hk. specialize (Hk k Hin). lia.
Qed.

(** The run of the datagrams of a whole response ends in its reassembly. *)
Lemma run_complete (fuel : nat) (st : state) (total : Z) (c : bool)
  (messages : list Buffer) :
  closed st = false -> packets st = [] ->
  fragments_of (goldSource st) (orangeBox st) total c messages ->
  NoDup (List.map (numberOf (goldSource st) (orangeBox st)) messages) ->
  Z.of_nat (length messages) = total -> 0 < total ->
  run (S fuel) (List.map Datagram messages) st
  = reassemble (reload (onMessage fuel))
      (absorb (goldSource st) (orangeBox st) messages st).
Proof.
  intros Hopen Hempty Hf Hn Hl Hpos.
  assert (Hfl : flags (goldSource st) (orangeBox st) st) by (split; reflexivity).
  destruct (exists_last (l := messages)) as (init & last & ->).
  { intros ->. cbn in Hl. lia. }
  rewrite length_app in Hl. cbn [length] in Hl.
  assert (Hinit : fragments_of (goldSource st) (orangeBox st) total c init)
    by (apply Forall_app in Hf; tauto).
  rewrite (run_forEach fuel _ _ total c init last st Hopen Hfl Hinit)
    by (rewrite Hempty; cbn [length]; lia).
  apply (forEach_complete fuel _ _ total c init last st Hfl Hf).
  - rewrite Hempty. cbn [length]. lia.
  - rewrite (absorb_length _ _ total c _ Hf Hn).
    + rewrite Hempty, length_app. cbn [length]. lia.
    + rewrite Hempty. intros k [].
Qed.

(** X25. Datagrams that the handler reads, under the dialect flags the call
    has, as the [total] packets of a response that is not compressed, each
    with its own number, come in any order to an open call whose buffer is
    empty and whose promise is pending.  The handler of the last one to
    arrive concatenates the payloads in the order of the numbers and gives
    the bytes to [parseResponse]: when they decode, the promise is resolved
    with the result and the socket closed, nothing having been sent; when
    [parseResponse] raises, the handler raises the same error and the
    promise stays pending, the socket open.  (A datagram that demotes a flag
    is not read as a packet: on a call that has demoted nothing these are
    the responses of Source servers with the maximum-size field.) *)
Theorem multi_packet_response (fuel : nat) (st : state) (total : Z)
  (messages arrival : list Buffer) :
  closed st = false -> promise st = Pending -> packets st = [] ->
  fragments_of (goldSource st) (orangeBox st) total false messages ->
  StronglySorted Z.lt
    (List.map (numberOf (goldSource st) (orangeBox st)) messages) ->
  Z.of_nat (length messages) = total -> 0 < total ->
  Permutation messages arrival ->
  match parseResponse
          (Buf.concat
             (List.map (payload (goldSource st) (orangeBox st)) messages)) with
  | inr data =>
      exists st',
        run (S fuel) (List.map Datagram arrival) st = Returns st'
        /\ promise st' = Resolved data /\ closed st' = true
        /\ sent st' = sent st
  | inl err =>
      exists st',
        run (S fuel) (List.map Datagram arrival) st = Throws err st'
        /\ promise st' = Pending /\ closed st' = false
        /\ sent st' = sent st
  end.
Proof.
  intros Hopen Hpending Hempty Hfr Hsorted Hlen Hpos Hperm.
  set (gold := goldSource st) in *. set (orange := orangeBox st) in *.
  assert (Hnd : NoDup (List.map (numberOf gold orange) messages))
    by (apply StronglySorted_lt_NoDup; exact Hsorted).
  assert (Hfr' : fragments_of gold orange total false arrival)
    by (unfold fragments_of in *; eapply Permutation_Forall; eassumption).
  assert (Hnd' : NoDup (List.map (numberOf gold orange) arrival))
    by (eapply Permutation_NoDup; [apply Permutation_map; exact Hperm|exact Hnd]).
  assert (Hlen' : Z.of_nat (length arrival) = total)
    by (rewrite <- (Permutation_length Hperm); exact Hlen).
  rewrite (run_complete fuel st total false arrival Hopen Hempty Hfr' Hnd' Hlen' Hpos).
  fold gold orange.
  set (st1 := absorb gold orange arrival st).
  set (st2 := absorb gold orange messages st).
  assert (Hun : untraced st1 = untraced st2).
  { subst st1 st2. apply (absorb_Permutation gold orange total false); auto.
    apply Permutation_sym. exact Hperm. }
  assert (Hne : messages <> []) by (intros ->; cbn in Hlen; lia).
  assert (Hne' : arrival <> []) by (intros ->; cbn in Hlen'; lia).
  destruct (absorb_fields gold orange arrival st)
    as (A1 & A2 & A3 & A4 & A5 & A6 & _).
  destruct (absorb_fields gold orange messages st)
    as (_ & M2 & M3 & _).
  assert (Hc1 : isCompressed st1 = false)
    by (apply (absorb_isCompressed gold orange total false arrival Hfr' Hne')).
  assert (Hc2 : isCompressed st2 = false)
    by (apply (absorb_isCompressed gold orange total false messages Hfr Hne)).
  assert (Hpackets : packets st2
                     = List.map (fun m => (numberOf gold orange m, m)) messages).
  { subst st2.
    pose proof (absorb_rebuild gold orange
                  (List.map (fun m => (numberOf gold orange m, m)) messages)
                  [] st Hempty) as Hreb.
    unfold Object_values in Hreb. rewrite List.map_map in Hreb. cbn [snd] in Hreb.
    rewrite List.map_id in Hreb. apply Hreb.
    - cbn [app]. unfold ascending, Object_keys. rewrite List.map_map.
      cbn [fst]. exact Hsorted.
    - intros k e Hin. apply in_map_iff in Hin.
      destruct Hin as (m & Heq & Hm). injection Heq as <- <-.
      unfold fragments_of in Hfr. rewrite Forall_forall in Hfr.
      destruct (Hfr m Hm) as (f & Hf & _). exists f. split; [exact Hf|].
      symmetry. apply numberOf_framed. exact Hf. }
  assert (Hassembled :
    Buf.concat (sortedPackets st1)
    = Buf.concat (List.map (payload gold orange) messages)).
  { rewrite (sortedPackets_untraced st1 st2 Hun).
    fold (assembled st2). rewrite assembled_ascending.
    - rewrite Hpackets, List.map_map. f_equal. apply List.map_ext.
      intros m. unfold payloadOf, payload.
      fold st2. rewrite Hc2. subst st2. rewrite M2, M3. fold gold orange.
      rewrite Bool.andb_false_r.
      destruct gold; [reflexivity|]. destruct orange; reflexivity.
    - rewrite Hpackets. unfold ascending, Object_keys. rewrite List.map_map.
      cbn [fst]. exact Hsorted. }
  unfold reassemble. cbn [isCompressed log]. rewrite Hc1, Hassembled.
  unfold dispatch.
  destruct (parseResponse _) as [err|data].
  - eexists. split; [reflexivity|].
    cbn [promise closed sent log]. subst st1. rewrite A4, A5, A6.
    repeat split; assumption.
  - unfold socket_close, resolve. cbn [promise closed log].
    subst st1. rewrite A4, Hpending. cbn [closed with_promise log]. rewrite A5, Hopen.
    eexists. split; [reflexivity|].
    cbn [promise closed sent with_closed with_promise log]. rewrite A6.
    repeat split.
Qed.

(** X26. The packet that completes a compressed response arrives at an open
    call whose promise is pending.  When the assembled bytes decompress, the
    CRC-32 of the decompressed bytes is the checksum the call has kept, and
    the decompressed bytes decode, the handler resolves the promise with the
    result and closes the socket; it sends nothing. *)
Theorem compressed_response (fuel : nat) (message : Buffer) (st : state)
  (f : fragment) (decompressed : Buffer) (data : response) :
  classify (goldSource st) (orangeBox st) message = Fragment f ->
  Z.of_nat (length (Object_keys (packets (buffered f message st))))
    = totalPackets f ->
  compressed f = true ->
  Bunzip_decode (assembled (buffered f message st)) = Some decompressed ->
  crc32_buf decompressed = crc32CheckSum (buffered f message st) ->
  parseResponse decompressed = inr data ->
  closed st = false -> promise st = Pending ->
  exists st',
    onMessage (S fuel) message st = Returns st'
    /\ promise st' = Resolved data /\ closed st' = true
    /\ sent st' = sent st.
Proof.
  intros Hclass Hcount Hcompressed Hdecode Hcrc Hparse Hopen Hpending.
  destruct (buffered_fields f message st)
    as (B1 & B2 & B3 & B4 & B5 & B6 & B7 & B8 & B9).
  rewrite (onMessage_fragment fuel message st f Hclass).
  rewrite Hcount, Z.eqb_refl.
  unfold reassemble. cbn [isCompressed log orangeBox crc32CheckSum].
  rewrite B2, Hcompressed. fold (assembled (buffered f message st)).
  rewrite Hdecode, Hcrc, Z.eqb_refl. cbn [negb].
  unfold dispatch. rewrite Hparse.
  unfold socket_close, resolve. cbn [promise closed log].
  rewrite B5, Hpending. cbn [closed with_promise log]. rewrite B6, Hopen.
  eexists. split; [reflexivity|].
  cbn [promise closed sent with_closed with_promise log]. rewrite B7.
  repeat split.
Qed.






(* ================================================================= *)
(** ** The timer and the errors of the socket *)

Lemma run_closed (fuel : nat) (events : list event) (st : state) :
  closed st = true -> run fuel events st = Returns st.
Proof.
  intros Hclosed. induction events as [|ev rest IH]; [reflexivity|].
  cbn [run]. unfold handle. rewrite Hclosed. exact IH.
Qed.

(** X29. The timer fires, or the socket reports an error, while the call is
    open and its promise pending: the promise is rejected, with "Request
    timed out" or with the error of the socket, and the socket is closed,
    whatever has been buffered or retried before.  Nothing that comes after
    changes the call: the promise keeps this rejection. *)
Theorem timer_and_socket_error (fuel : nat) (st : state) (later : list event) :
  closed st = false -> promise st = Pending ->
  run fuel (TimerFired :: later) st
  = Returns (with_closed true (with_promise (Rejected RequestTimedOut) st))
  /\ forall err,
       run fuel (SocketFailed err :: later) st
       = Returns (with_closed true (with_promise (Rejected err) st)).
Proof.
  intros Hopen Hpending.
  assert (Hreject : forall err,
            socket_close (reject err st)
            = Returns (with_closed true (with_promise (Rejected err) st))).
  { intros err. unfold socket_close, reject. rewrite Hpending.
    cbn [closed with_promise]. rewrite Hopen. reflexivity. }
  split; [|intros err]; cbn [run]; unfold handle; rewrite Hopen;
    unfold onTimeout, onError; rewrite Hreject; apply run_closed; reflexivity.
Qed.
End Get.

(* ================================================================= *)
(** ** Closed examples

    The decompressor is [Sample.Bunzip_decode] and the checksum [crc32]. *)

(** C2, at a failing input.  A [getInfo] call receives a single packet whose
    discriminator no decoder takes: [parseResponse] raises inside the
    handler, which neither settles the promise nor closes the socket. *)
Theorem unknown_response_leaves_socket_open :
  get 0x54 = Returns (Sample.started Sample.info_request)
  /\ exists st,
       handle Sample.Bunzip_decode crc32 0x54 3 (Datagram Sample.unknown)
         (Sample.started Sample.info_request)
       = Throws UnknownResponseType st
       /\ closed st = false
       /\ promise st = Pending.
Proof.
  split; [reflexivity|]. eexists. split; [vm_compute; reflexivity|].
  split; reflexivity.
Qed.

(** C5, at a failing input.  A packet of a multi-packet response (marker
    0xFFFFFFFE) whose identifier is 0x00000041 has 0x41 as its fifth octet:
    the handler takes it for a challenge, retransmits the request with the
    octets 5 to 8 as token and buffers nothing. *)
Theorem multi_packet_handled_as_challenge :
  option_map fst (readInt32 true (mkReader Sample.response_0x41 0))
  = Some A2S_MULTI_PACKET_HEADER
  /\ exists st,
       onMessage Sample.Bunzip_decode crc32 0x55 3 Sample.response_0x41
         (Sample.started Sample.players_request)
       = Returns st
       /\ retryCount st = 1%nat
       /\ sent st = [Sample.players_request;
                     [xff; xff; xff; xff; x55; x00; x00; x00; x02]]
       /\ packets st = []
       /\ promise st = Pending.
Proof.
  split; [reflexivity|]. eexists. split; [vm_compute; reflexivity|].
  repeat split.
Qed.

(** The reader over the two octets "AB", which hold no terminator. *)
Lemma readString_unterminated_witness :
  Forall nonzero (skipn 0 [x41; x42])
  /\ exists r',
       readString (mkReader [x41; x42] 0) = Some (utf8_decode [x41; x42], r')
       /\ buffer r' = [x41; x42]
       /\ offset r' = 3%nat
       /\ (2 < offset r')%nat.
Proof.
  assert (H : Forall nonzero
                (skipn (offset (mkReader [x41; x42] 0))
                       (buffer (mkReader [x41; x42] 0)))).
  { apply Forall_cons; [discriminate|].
    apply Forall_cons; [discriminate|apply Forall_nil]. }
  split; [exact H|].
  exact (readString_unterminated (mkReader [x41; x42] 0) H).
Defined.

(** The payload of a Counter-Strike server. *)
Lemma parseResponse_test_server_witness :
  exists info,
    parseResponse
      (test_server_payload x11 (list_byte_of_string "cstrike")
         (list_byte_of_string "Counter-Strike") x0a x00 x00 x01
         (list_byte_of_string "1.0.0.0"))
    = inr (Info info)
    /\ ServerInfo.name info = js "Test Server"
    /\ ServerInfo.players info = 5
    /\ ServerInfo.maxPlayers info = 10.
Proof.
  destruct (parseResponse_test_server x11 (list_byte_of_string "cstrike")
              (list_byte_of_string "Counter-Strike") x0a x00 x00 x01
              (list_byte_of_string "1.0.0.0"))
    as (info & H & Hname & Hplayers & Hmax & _);
    try (vm_compute; repeat (apply Forall_cons; [discriminate|]); apply Forall_nil).
  exists info. repeat split; assumption.
Defined.

(** The three challenges of a [getPlayers] call: the first is answered by a
    retransmission, and so is the second; the third finds two retransmissions
    made. *)
Lemma challenge_retransmission_witness :
  is_challenge Sample.challenge = true
  /\ (exists st,
        onMessage Sample.Bunzip_decode crc32 0x55 1 Sample.challenge
          (Sample.started Sample.players_request)
        = Returns st
        /\ sent st = [Sample.players_request;
                      [xff; xff; xff; xff; x55; x01; x02; x03; x04]]
        /\ retryCount st = 1%nat
        /\ promise st = Pending)
  /\ (exists st2 st3,
        run Sample.Bunzip_decode crc32 0x55 1
          [Datagram Sample.challenge; Datagram Sample.challenge]
          (Sample.started Sample.players_request)
        = Returns st2
        /\ retryCount st2 = 2%nat
        /\ promise st2 = Pending
        /\ closed st2 = false
        /\ onMessage Sample.Bunzip_decode crc32 0x55 1 Sample.challenge st2
           = Returns st3
        /\ sent st3 = sent st2
        /\ promise st3 = Rejected MaxRetriesReached
        /\ closed st3 = true).
Proof.
  split; [reflexivity|]. split.
  - destruct (proj1 (challenge_retransmission Sample.Bunzip_decode crc32 0x55 0)
                Sample.challenge (Sample.started Sample.players_request)
                eq_refl eq_refl eq_refl)
      as (_ & H & _).
    destruct H as (st & E & Hs & Hr & Hp & _).
    + unfold maxRetries. cbn. lia.
    + exists st. split; [exact E|]. split; [exact Hs|]. split; [exact Hr|exact Hp].
  - eexists.
    match goal with
    | |- exists st3, ?r = Returns ?s /\ _ =>
        assert (Hrun : r = Returns s) by (vm_compute; reflexivity);
        destruct (proj1 (challenge_retransmission Sample.Bunzip_decode crc32 0x55 0)
                    Sample.challenge s eq_refl eq_refl eq_refl)
          as (_ & _ & H)
    end.
    destruct H as (st3 & E & Hs & _ & Hp & Hc).
    + unfold maxRetries. cbn. lia.
    + exists st3. split; [exact Hrun|]. split; [reflexivity|].
      split; [reflexivity|]. split; [reflexivity|]. split; [exact E|].
      split; [exact Hs|]. split; [exact Hp|exact Hc].
Defined.

(** C1, at a failing input.  A [getRules] call receives the rule list as a
    compressed response in one packet, whose checksum field holds the CRC-32
    of the compressed octets.  The handler decompresses the octets, compares
    the CRC-32 of the decompressed rule list with the field and raises the
    checksum-mismatch error.  The error leaves the handler and that is all:
    the promise stays pending and the socket open.  What the caller is told
    comes later and is not the checksum mismatch: the time-out error when the
    timer fires, or the result of the next datagram. *)
Theorem checksum_mismatch_leaves_call_pending :
  get 0x56 = Returns (Sample.started Sample.rules_request)
  /\ Sample.Bunzip_decode Sample.rules_bz2 = Some Sample.rules
  /\ crc32 Sample.rules_bz2 = 1286440399
  /\ crc32 Sample.rules = 901897999
  /\ exists st,
       handle Sample.Bunzip_decode crc32 0x56 3 (Datagram Sample.wrong_checksum)
         (Sample.started Sample.rules_request)
       = Throws (ChecksumMismatch 1286440399 901897999) st
       /\ promise st = Pending
       /\ closed st = false
       /\ (exists st',
             handle Sample.Bunzip_decode crc32 0x56 3 TimerFired st = Returns st'
             /\ promise st' = Rejected RequestTimedOut
             /\ closed st' = true)
       /\ (exists st',
             handle Sample.Bunzip_decode crc32 0x56 3 (Datagram Sample.rules) st
             = Returns st'
             /\ promise st' = Resolved Sample.rules_decoded
             /\ closed st' = true).
Proof.
  split; [reflexivity|]. split; [vm_compute; reflexivity|].
  split; [vm_compute; reflexivity|]. split; [vm_compute; reflexivity|].
  eexists. split; [vm_compute; reflexivity|].
  split; [reflexivity|]. split; [reflexivity|]. split.
  - eexists. split; [vm_compute; reflexivity|]. split; reflexivity.
  - eexists. split; [vm_compute; reflexivity|]. split; reflexivity.
Qed.

(** C4, at a failing input.  A [getRules] call receives the rule list as a
    GoldSource response in three packets.  In the order of their numbers, the
    first packet sets [goldSource] and the call resolves with the rule list.
    With the first packet last, the other two are read under the framing of
    Source servers, which takes the first octet of their payloads for the
    packet number: both are stored under 0x5F, the third replacing the
    second.  When the first packet sets [goldSource], only two datagrams are
    left to read again, the count never reaches three, and the call stays
    pending. *)
Theorem goldsource_response_out_of_order :
  Permutation [Sample.gold0; Sample.gold1; Sample.gold2]
              [Sample.gold1; Sample.gold2; Sample.gold0]
  /\ Buf.concat (map (payload true true)
                   [Sample.gold0; Sample.gold1; Sample.gold2]) = Sample.rules
  /\ (exists st,
        run Sample.Bunzip_decode crc32 0x56 3
          (map Datagram [Sample.gold0; Sample.gold1; Sample.gold2])
          (Sample.started Sample.rules_request)
        = Returns st
        /\ promise st = Resolved Sample.rules_decoded
        /\ closed st = true)
  /\ (exists st,
        run Sample.Bunzip_decode crc32 0x56 3
          (map Datagram [Sample.gold1; Sample.gold2])
          (Sample.started Sample.rules_request)
        = Returns st
        /\ packets st = [(0x5F, Sample.gold2)])
  /\ (exists st,
        run Sample.Bunzip_decode crc32 0x56 3
          (map Datagram [Sample.gold1; Sample.gold2; Sample.gold0])
          (Sample.started Sample.rules_request)
        = Returns st
        /\ goldSource st = true
        /\ packets st = [(0, Sample.gold0); (2, Sample.gold2)]
        /\ reassemblies (trace st) = 0%nat
        /\ promise st = Pending
        /\ closed st = false).
Proof.
  split.
  { apply (Permutation_cons_app [Sample.gold1; Sample.gold2] []).
    apply Permutation_refl. }
  split; [reflexivity|]. split; [|split].
  - eexists. split; [vm_compute; reflexivity|]. split; reflexivity.
  - eexists. split; [vm_compute; reflexivity|]. reflexivity.
  - eexists. split; [vm_compute; reflexivity|]. repeat split.
Qed.

(** C6, at a failing input.  A [getRules] call has buffered two datagrams
    under the framing of Source servers when the first packet of a
    GoldSource response arrives.  The handler sets [goldSource] and [reload]
    empties the buffer to read the three datagrams again.  The first of
    them, read under the GoldSource framing, is packet 1 of 1: it is
    reassembled at once and [parseResponse] raises.  The error ends the loop
    of [reload]: the second buffered datagram and the one that set the flag
    are not read again and are no longer buffered, while the flag stays
    set. *)
Theorem reload_stops_at_raising_datagram :
  exists st st',
    run Sample.Bunzip_decode crc32 0x56 3
      [Datagram Sample.stray1; Datagram Sample.stray2]
      (Sample.started Sample.rules_request)
    = Returns st
    /\ goldSource st = false
    /\ packets st = [(1, Sample.stray1); (2, Sample.stray2)]
    /\ handle Sample.Bunzip_decode crc32 0x56 3 (Datagram Sample.gold_first) st
       = Throws UnknownResponseType st'
    /\ goldSource st' = true
    /\ trace st'
       = trace st ++ [Recv Sample.gold_first; ObsoleteGoldSourceDetected;
                      PacketReload; Recv Sample.stray1;
                      Payload (skipn 9 Sample.stray1)]
    /\ packets st' = [(1, Sample.stray1)]
    /\ promise st' = Pending
    /\ closed st' = false.
Proof.
  eexists. eexists. split; [vm_compute; reflexivity|].
  split; [reflexivity|]. split; [reflexivity|].
  split; [vm_compute; reflexivity|]. repeat split.
Qed.

(** C8, at a failing input.  A [getRules] call receives a packet that says it
    is compressed and whose payload is the rule list as it is.  The handler
    fails to decompress it, clears [orangeBox] and reads the packet again
    without the maximum-size field; the decompressor fails again and the
    handler raises its error.  The error settles nothing: the promise stays
    pending and the socket open, and so it is when the same packet comes
    again, [orangeBox] being cleared from the start.  What the caller is
    told is the time-out error, when the timer fires. *)
Theorem decompression_failure_leaves_call_pending :
  get 0x56 = Returns (Sample.started Sample.rules_request)
  /\ exists st,
       handle Sample.Bunzip_decode crc32 0x56 3 (Datagram Sample.not_bzip2)
         (Sample.started Sample.rules_request)
       = Throws BunzipError st
       /\ orangeBox st = false
       /\ reassemblies (trace st) = 2%nat
       /\ sent st = [Sample.rules_request]
       /\ promise st = Pending
       /\ closed st = false
       /\ (exists st',
             handle Sample.Bunzip_decode crc32 0x56 3 (Datagram Sample.not_bzip2) st
             = Throws BunzipError st'
             /\ promise st' = Pending
             /\ closed st' = false)
       /\ (exists st',
             handle Sample.Bunzip_decode crc32 0x56 3 TimerFired st = Returns st'
             /\ promise st' = Rejected RequestTimedOut
             /\ closed st' = true).
Proof.
  split; [reflexivity|].
  eexists. split; [vm_compute; reflexivity|].
  split; [reflexivity|]. split; [reflexivity|]. split; [reflexivity|].
  split; [reflexivity|]. split; [reflexivity|]. split.
  - eexists. split; [vm_compute; reflexivity|]. split; reflexivity.
  - eexists. split; [vm_compute; reflexivity|]. split; reflexivity.
Qed.

(** The rule list in three packets, in order and with the last one first. *)
Lemma reassembly_order_independent_example :
  Permutation [Sample.third0; Sample.third1; Sample.third2]
              [Sample.third2; Sample.third0; Sample.third1]
  /\ same_outcome
       (run Sample.Bunzip_decode crc32 0x56 1
          (map Datagram [Sample.third0; Sample.third1; Sample.third2])
          (Sample.started Sample.rules_request))
       (run Sample.Bunzip_decode crc32 0x56 1
          (map Datagram [Sample.third2; Sample.third0; Sample.third1])
          (Sample.started Sample.rules_request))
  /\ exists st,
       run Sample.Bunzip_decode crc32 0x56 1
         (map Datagram [Sample.third2; Sample.third0; Sample.third1])
         (Sample.started Sample.rules_request)
       = Returns st
       /\ promise st = Resolved Sample.rules_decoded
       /\ closed st = true.
Proof.
  assert (Hperm : Permutation [Sample.third0; Sample.third1; Sample.third2]
                              [Sample.third2; Sample.third0; Sample.third1]).
  { apply Permutation_sym.
    apply (Permutation_cons_app [Sample.third0; Sample.third1] []).
    apply Permutation_refl. }
  split; [exact Hperm|].
  destruct (reassembly_order_independent Sample.Bunzip_decode crc32 0x56 0
              (Sample.started Sample.rules_request) 3 false
              [Sample.third0; Sample.third1; Sample.third2]
              [Sample.third2; Sample.third0; Sample.third1])
    as (st1 & st1' & _ & _ & _ & _ & _ & _ & _ & Hsame);
    try reflexivity; try exact Hperm.
  - repeat (apply Forall_cons;
            [eexists; split; [vm_compute; reflexivity|split; reflexivity]|]).
    apply Forall_nil.
  - vm_compute.
    repeat (apply NoDup_cons; [cbn; intuition discriminate|]). apply NoDup_nil.
  - split; [exact Hsame|].
    eexists. split; [vm_compute; reflexivity|]. split; reflexivity.
Defined.

(** A GoldSource response whose second packet comes first: it is buffered
    under the framing of Source servers, and handed to [onMessage] again
    when the first packet demotes the assumption. *)
Lemma dialect_demotion_example :
  exists st st',
    onMessage Sample.Bunzip_decode crc32 0x56 3 Sample.gold_second
      (Sample.started Sample.rules_request)
    = Returns st
    /\ onMessage Sample.Bunzip_decode crc32 0x56 3 Sample.gold_first st = Returns st'
    /\ demoted st st'
    /\ In (116, Sample.gold_second) (packets st)
    /\ logged PacketReload st st'
    /\ logged (Recv Sample.gold_second) st st'
    /\ promise st' = Resolved Sample.rules_decoded.
Proof.
  eexists. eexists.
  split; [vm_compute; reflexivity|].
  split; [vm_compute; reflexivity|].
  match goal with
  | |- demoted ?a ?b /\ _ =>
      assert (Hdem : demoted a b) by (left; split; reflexivity);
      assert (Hin : In (116, Sample.gold_second) (packets a))
        by (left; reflexivity);
      destruct (proj1 (proj2 (dialect_demotion Sample.Bunzip_decode crc32 0x56))
                  3%nat Sample.gold_first a b
                  ltac:(vm_compute; reflexivity) Hdem) as [Hreload Hall]
  end.
  split; [exact Hdem|]. split; [exact Hin|]. split; [exact Hreload|].
  split; [|reflexivity].
  apply (Hall 116 Sample.gold_second Hin).
  intros f Hf. vm_compute in Hf. discriminate Hf.
Defined.

(** The call does not keep the buffered packet numbers within the total
    that the last datagram declares: after a packet 0 of 2 and a packet 1 of
    1, two numbers are buffered against a declared total of 1, and nothing
    is reassembled.  And one datagram may be followed by two reassemblies:
    when the second packet of a compressed response sent without the
    maximum-size field arrives, the packets are reassembled with the field,
    which fails to decompress, and again without it, which gives the rule
    list. *)
Lemma buffered_exceeds_declared_total :
  (exists st,
     run Sample.Bunzip_decode crc32 0x56 3
       [Datagram Sample.of_two; Datagram Sample.of_one]
       (Sample.started Sample.rules_request)
     = Returns st
     /\ classify (goldSource st) (orangeBox st) Sample.of_one
        = Fragment (mkFragment false 1 1 None)
     /\ Z.of_nat (length (Object_keys (packets st))) = 2
     /\ 1 < Z.of_nat (length (Object_keys (packets st)))
     /\ reassemblies (trace st) = 0%nat
     /\ promise st = Pending)
  /\ (exists st st',
        onMessage Sample.Bunzip_decode crc32 0x56 3 Sample.old_first
          (Sample.started Sample.rules_request)
        = Returns st
        /\ reassemblies (trace st) = 0%nat
        /\ onMessage Sample.Bunzip_decode crc32 0x56 3 Sample.old_second st
           = Returns st'
        /\ reassemblies (trace st') = 2%nat
        /\ promise st' = Resolved Sample.rules_decoded).
Proof.
  split.
  - eexists. split; [vm_compute; reflexivity|].
    repeat split.
  - eexists. eexists. split; [vm_compute; reflexivity|].
    split; [reflexivity|]. split; [vm_compute; reflexivity|].
    split; reflexivity.
Qed.

(** Two of the three packets of the rule list; and a packet 1 of 5 followed
    by the first packet of a compressed response of two packets sent without
    the maximum-size field: the two are reassembled once, which fails to
    decompress, and then stored again, two packets against a total of
    five. *)
Lemma buffered_count_witness :
  0 <= 3
  /\ (exists st,
        run Sample.Bunzip_decode crc32 0x56 3
          [Datagram Sample.third2; Datagram Sample.third0]
          (Sample.started Sample.rules_request)
        = Returns st
        /\ Z.of_nat (length (Object_keys (packets st))) <= 3)
  /\ (exists st f,
        onMessage Sample.Bunzip_decode crc32 0x56 3 Sample.one_of_five
          (Sample.started Sample.rules_request)
        = Returns st
        /\ classify (goldSource st) (orangeBox st) Sample.old_first = Fragment f
        /\ Z.of_nat (length (Object_keys (packets (buffered f Sample.old_first st))))
           = totalPackets f
        /\ compressed f = true
        /\ orangeBox st = true
        /\ Sample.Bunzip_decode (assembled (buffered f Sample.old_first st)) = None
        /\ (exists st1 lines,
              onMessage Sample.Bunzip_decode crc32 0x56 3 Sample.old_first st
              = forEach (onMessage Sample.Bunzip_decode crc32 0x56 2)
                  (Object_values (packets (buffered f Sample.old_first st))) st1
              /\ packets st1 = []
              /\ orangeBox st1 = false
              /\ goldSource st1 = goldSource st
              /\ trace st1 = trace st ++ lines
              /\ reassemblies lines = 1%nat)
        /\ (exists st',
              onMessage Sample.Bunzip_decode crc32 0x56 3 Sample.old_first st
              = Returns st'
              /\ packets st' = [(0, Sample.old_first); (1, Sample.one_of_five)]
              /\ reassemblies (trace st') = 1%nat
              /\ promise st' = Pending)).
Proof.
  assert (H3 : 0 <= 3) by discriminate.
  split; [exact H3|]. split.
  - eexists. split; [vm_compute; reflexivity|].
    match goal with
    | |- Z.of_nat (length (Object_keys (packets ?s))) <= 3 =>
        apply (proj1 (buffered_count Sample.Bunzip_decode crc32 0x56 3 3 H3)
                 [Datagram Sample.third2; Datagram Sample.third0]
                 (Sample.started Sample.rules_request) s)
    end.
    + reflexivity.
    + intros m [Hm|[Hm|[]]]; injection Hm as <-; intros gold orange f Hf;
        destruct gold, orange; vm_compute in Hf;
        try discriminate Hf; injection Hf as <-; reflexivity.
    + left. vm_compute. reflexivity.
  - eexists. exists (mkFragment true 2 0 (Some 1514288577)).
    match goal with
    | |- ?r = Returns ?s /\ _ =>
        assert (Hfirst : r = Returns s) by (vm_compute; reflexivity);
        assert (Hclass : classify (goldSource s) (orangeBox s) Sample.old_first
                         = Fragment (mkFragment true 2 0 (Some 1514288577)))
          by (vm_compute; reflexivity);
        assert (Hcount : Z.of_nat (length (Object_keys
                           (packets (buffered (mkFragment true 2 0 (Some 1514288577))
                                       Sample.old_first s))))
                         = totalPackets (mkFragment true 2 0 (Some 1514288577)))
          by (vm_compute; reflexivity);
        assert (Hnone : Sample.Bunzip_decode
                          (assembled (buffered (mkFragment true 2 0 (Some 1514288577))
                                        Sample.old_first s)) = None)
          by (vm_compute; reflexivity);
        pose proof (proj2 (proj2 (proj2 (buffered_count Sample.Bunzip_decode crc32
                                           0x56 3 2 H3)
                                    Sample.old_first s
                                    (mkFragment true 2 0 (Some 1514288577)) Hclass))
                      Hcount eq_refl eq_refl Hnone) as Hagain
    end.
    split; [exact Hfirst|]. split; [exact Hclass|]. split; [exact Hcount|].
    split; [reflexivity|]. split; [reflexivity|]. split; [exact Hnone|].
    split; [exact Hagain|].
    eexists. split; [vm_compute; reflexivity|]. repeat split.
Defined.

(** A compressed rule list in two packets without the maximum-size field:
    read with the field the bytes do not decompress, read without it they
    do. *)
Lemma decompression_fallback_example :
  exists st st',
    onMessage Sample.Bunzip_decode crc32 0x56 3 Sample.old_first
      (Sample.started Sample.rules_request)
    = Returns st
    /\ orangeBox st = true
    /\ Sample.Bunzip_decode (assembled (buffered (mkFragment true 2 1 None)
                               Sample.old_second st)) = None
    /\ onMessage Sample.Bunzip_decode crc32 0x56 2 Sample.old_second st = Returns st'
    /\ promise st' = Resolved Sample.rules_decoded
    /\ closed st' = true
    /\ sent st' = [Sample.rules_request]
    /\ orangeBox st' = false.
Proof.
  eexists.
  match goal with
  | |- exists st', ?run = Returns ?s /\ _ =>
      assert (Hfirst : run = Returns s) by (vm_compute; reflexivity)
  end.
  match type of Hfirst with
  | _ = Returns ?s =>
      assert (Hclass : classify (goldSource s) (orangeBox s) Sample.old_second
                       = Fragment (mkFragment true 2 1 None))
        by (vm_compute; reflexivity);
      assert (Hcount : Z.of_nat (length (Object_keys
                         (packets (buffered (mkFragment true 2 1 None)
                                     Sample.old_second s)))) = 2)
        by (vm_compute; reflexivity);
      assert (Hnone : Sample.Bunzip_decode (assembled (buffered (mkFragment true 2 1 None)
                                              Sample.old_second s)) = None)
        by (vm_compute; reflexivity);
      assert (Hbuf : forall e, In e (Object_values (packets s)) ->
                               is_challenge e = false)
        by (intros e [He|[]]; subst e; vm_compute; reflexivity);
      assert (Hpk : packets (buffered (mkFragment true 2 1 None)
                               Sample.old_second s)
                    = [(0, Sample.old_first); (1, Sample.old_second)])
        by (vm_compute; reflexivity);
      destruct (decompression_fallback Sample.Bunzip_decode crc32 0x56 0 Sample.old_second
                  s (mkFragment true 2 1 None) Hclass Hcount eq_refl Hnone Hbuf)
        as [Hset _]
  end.
  destruct (Hset eq_refl) as (_ & _ & Hresolves).
  rewrite Hpk in Hresolves.
  assert (Hasc : ascending [(0, Sample.old_first); (1, Sample.old_second)]).
  { unfold ascending. cbn [Object_keys map fst].
    repeat constructor. }
  assert (Hfr : forall k e,
             In (k, e) [(0, Sample.old_first); (1, Sample.old_second)] ->
             exists f',
               classify false false e = Fragment f' /\ packetNumber f' = k
               /\ totalPackets f' = 2 /\ compressed f' = true).
  { intros k e [H|[H|[]]]; injection H as <- <-.
    - exists (mkFragment true 2 0 (Some (crc32 Sample.rules))).
      split; [vm_compute; reflexivity|repeat split].
    - exists (mkFragment true 2 1 None).
      split; [vm_compute; reflexivity|repeat split]. }
  destruct (Hresolves eq_refl eq_refl eq_refl Hasc Hfr
              Sample.old_first (mkFragment true 2 0 (Some (crc32 Sample.rules)))
              (crc32 Sample.rules) Sample.rules Sample.rules_decoded)
    as (st' & E & Hp & Hc & Hs & Ho).
  - left. reflexivity.
  - vm_compute. reflexivity.
  - reflexivity.
  - vm_compute. reflexivity.
  - reflexivity.
  - vm_compute. reflexivity.
  - exists st'. split; [exact Hfirst|]. split; [reflexivity|].
    split; [exact Hnone|]. split; [exact E|].
    split; [exact Hp|]. split; [exact Hc|]. split; [exact Hs|exact Ho].
Defined.

(* ================================================================= *)
(** ** The public methods *)

(** [getInfo], [getPlayers] and [getRules]: each is
    [new Promise((resolve, reject) => this.get(header, resolve, reject))]
    with its own header. *)
Definition getInfo : completion := get 0x54.
Definition getPlayers : completion := get 0x55.
Definition getRules : completion := get 0x56.

(** The first request of each. *)
Lemma public_methods :
  getInfo = Returns (Sample.started Sample.info_request)
  /\ getPlayers = Returns (Sample.started Sample.players_request)
  /\ getRules = Returns (Sample.started Sample.rules_request).
Proof. repeat split. Qed.

(* ================================================================= *)
(** ** More closed examples *)

(** The string "AB" with its terminator, followed by one more octet. *)
Lemma readString_terminated_witness :
  readString (mkReader [x41; x42; x00; x43] 0)
  = Some (js "AB", mkReader [x41; x42; x00; x43] 3)
  /\ skipn 3 [x41; x42; x00; x43] = [x43].
Proof.
  apply (readString_terminated (mkReader [x41; x42; x00; x43] 0)
           [x41; x42] [x43] eq_refl).
  repeat (apply Forall_cons; [discriminate|]). apply Forall_nil.
Defined.

(** The same string, character for character. *)
Lemma readString_ascii_witness :
  exists r',
    readString (mkReader [x41; x42; x00; x43] 0) = Some ([65; 66], r')
    /\ offset r' = 3%nat.
Proof.
  apply (readString_ascii (mkReader [x41; x42; x00; x43] 0)
           [x41; x42] [x43] eq_refl).
  repeat (apply Forall_cons; [vm_compute; split; reflexivity|]).
  apply Forall_nil.
Defined.

(** The rule list of the examples behind four zero octets. *)
Lemma parseResponse_ignores_marker_witness :
  parseResponse ([xff; xff; xff; xff] ++ skipn 4 Sample.rules)
  = parseResponse ([x00; x00; x00; x00] ++ skipn 4 Sample.rules)
  /\ parseResponse ([x00; x00; x00; x00] ++ skipn 4 Sample.rules)
     = inr Sample.rules_decoded.
Proof.
  split.
  - exact (parseResponse_ignores_marker [xff; xff; xff; xff]
             [x00; x00; x00; x00] (skipn 4 Sample.rules) eq_refl eq_refl).
  - vm_compute. reflexivity.
Defined.

(** Two rules, and one rule that comes twice. *)
Lemma parseRulesResponse_wire_witness :
  (exists o,
     parseRulesResponse
       (cursor [xff; xff; xff; xff; x45]
          ([x02; x00]
             ++ rules_octets
                  [(list_byte_of_string "sv_gravity", list_byte_of_string "800");
                   (list_byte_of_string "mp_timelimit", list_byte_of_string "30")]
             ++ []))
     = Some (o, cursor Sample.rules [])
     /\ Permutation o
          [(js "sv_gravity", js "800"); (js "mp_timelimit", js "30")])
  /\ (exists o r',
        parseRulesResponse
          (cursor []
             ([x02; x00]
                ++ rules_octets
                     [(list_byte_of_string "a", list_byte_of_string "1");
                      (list_byte_of_string "a", list_byte_of_string "2")]
                ++ []))
        = Some (o, r')
        /\ own_property (js "a") o = Some (js "2")).
Proof.
  split.
  - destruct (parseRulesResponse_wire [xff; xff; xff; xff; x45] [] x02 x00
                [(list_byte_of_string "sv_gravity", list_byte_of_string "800");
                 (list_byte_of_string "mp_timelimit", list_byte_of_string "30")])
      as (o & Hread & _ & Hdistinct).
    + repeat (apply Forall_cons;
              [split; vm_compute;
               repeat (apply Forall_cons; [discriminate|]); apply Forall_nil|]).
      apply Forall_nil.
    + reflexivity.
    + exists o. split; [exact Hread|]. apply Hdistinct.
      * vm_compute.
        repeat (apply NoDup_cons; [cbn; intuition discriminate|]).
        apply NoDup_nil.
      * vm_compute. intuition discriminate.
  - destruct (parseRulesResponse_wire [] [] x02 x00
                [(list_byte_of_string "a", list_byte_of_string "1");
                 (list_byte_of_string "a", list_byte_of_string "2")])
      as (o & Hread & Hlast & _).
    + repeat (apply Forall_cons;
              [split; vm_compute;
               repeat (apply Forall_cons; [discriminate|]); apply Forall_nil|]).
      apply Forall_nil.
    + reflexivity.
    + exists o. eexists. split; [exact Hread|].
      rewrite Hlast. vm_compute. reflexivity.
Defined.

(** A rule list that announces three rules and carries one. *)
Lemma parseRulesResponse_truncated_witness :
  exists r',
    parseRulesResponse
      (cursor [xff; xff; xff; xff; x45]
         ([x03; x00]
            ++ rules_octets
                 [(list_byte_of_string "sv_gravity", list_byte_of_string "800")]))
    = Some ([(js "sv_gravity", js "800"); (js "", js "")], r').
Proof.
  destruct (parseRulesResponse_truncated [xff; xff; xff; xff; x45] x03 x00
              [(list_byte_of_string "sv_gravity", list_byte_of_string "800")])
    as (r' & Hread & _).
  - repeat (apply Forall_cons;
            [split; vm_compute;
             repeat (apply Forall_cons; [discriminate|]); apply Forall_nil|]).
    apply Forall_nil.
  - vm_compute. reflexivity.
  - exists r'. exact Hread.
Defined.

(** One player of The Ship: "Bob", 10 points, 1 death, 2 units of money. *)
Lemma parsePlayerResponse_wire_witness :
  exists r',
    parsePlayerResponse
      (cursor [xff; xff; xff; xff; x44]
         ([x01]
            ++ players_octets
                 [mkWirePlayer x00 (list_byte_of_string "Bob")
                    [x0a; x00; x00; x00] [x00; x00; x80; x3f]]
            ++ ships_octets [([x01; x00; x00; x00], [x02; x00; x00; x00])]
            ++ []))
    = Some ([PlayerInfo.mk 0 (js "Bob") 10 0x3F800000 (Some 1) (Some 2)], r').
Proof.
  eexists.
  rewrite (parsePlayerResponse_wire [xff; xff; xff; xff; x44] [] x01
             [mkWirePlayer x00 (list_byte_of_string "Bob")
                [x0a; x00; x00; x00] [x00; x00; x80; x3f]]
             [([x01; x00; x00; x00], [x02; x00; x00; x00])]).
  - reflexivity.
  - reflexivity.
  - apply Forall_cons; [|apply Forall_nil].
    split; [|split; reflexivity].
    vm_compute. repeat (apply Forall_cons; [discriminate|]). apply Forall_nil.
  - right. split; [reflexivity|].
    apply Forall_cons; [split; reflexivity|apply Forall_nil].
Defined.

(** One player, with nothing after the basic fields. *)
Lemma parsePlayerResponse_result_witness :
  option_map fst
    (readUint8
       (mkReader
          ([xff; xff; xff; xff; x44; x01; x00]
             ++ cstring (list_byte_of_string "Bob")
             ++ [x0a; x00; x00; x00; x00; x00; x80; x3f]) 5))
  = Some 1
  /\ parsePlayerResponse
       (mkReader
          ([xff; xff; xff; xff; x44; x01; x00]
             ++ cstring (list_byte_of_string "Bob")
             ++ [x0a; x00; x00; x00; x00; x00; x80; x3f]) 5)
     = Some ([PlayerInfo.mk 0 (js "Bob") 10 0x3F800000 None None],
             mkReader
               ([xff; xff; xff; xff; x44; x01; x00]
                  ++ cstring (list_byte_of_string "Bob")
                  ++ [x0a; x00; x00; x00; x00; x00; x80; x3f]) 19).
Proof.
  assert (H : parsePlayerResponse
                (mkReader
                   ([xff; xff; xff; xff; x44; x01; x00]
                      ++ cstring (list_byte_of_string "Bob")
                      ++ [x0a; x00; x00; x00; x00; x00; x80; x3f]) 5)
              = Some ([PlayerInfo.mk 0 (js "Bob") 10 0x3F800000 None None],
                      mkReader
                        ([xff; xff; xff; xff; x44; x01; x00]
                           ++ cstring (list_byte_of_string "Bob")
                           ++ [x0a; x00; x00; x00; x00; x00; x80; x3f]) 19))
    by (vm_compute; reflexivity).
  split; [|exact H].
  exact (proj1 (parsePlayerResponse_result _ _ _ H)).
Defined.

(** The port 27015, a SteamID, the keywords "tag" and a GameID, under the
    flag 0xB1. *)
Lemma parseExtraData_wire_witness :
  parseExtraData
    (cursor []
       (extra_octets xb1
          (mkWireExtra (Some [x87; x69])
             (Some [x01; x00; x00; x00; x00; x00; x00; x00]) None
             (Some (list_byte_of_string "tag"))
             (Some [x0a; x00; x00; x00; x00; x00; x00; x00]))
          ++ []))
  = Some (ExtraData.mk (Some 27015) (Some 1) None None (Some (js "tag"))
            (Some 10),
          mkReader
            (extra_octets xb1
               (mkWireExtra (Some [x87; x69])
                  (Some [x01; x00; x00; x00; x00; x00; x00; x00]) None
                  (Some (list_byte_of_string "tag"))
                  (Some [x0a; x00; x00; x00; x00; x00; x00; x00])))
            23).
Proof.
  rewrite (parseExtraData_wire [] [] xb1
             (mkWireExtra (Some [x87; x69])
                (Some [x01; x00; x00; x00; x00; x00; x00; x00]) None
                (Some (list_byte_of_string "tag"))
                (Some [x0a; x00; x00; x00; x00; x00; x00; x00])) 0).
  - vm_compute. reflexivity.
  - repeat split; cbn [holds wire_port wire_steamID wire_tv wire_keywords
                       wire_gameID]; try reflexivity; try exact I.
    vm_compute. repeat (apply Forall_cons; [discriminate|]). apply Forall_nil.
  - left. reflexivity.
  - vm_compute. reflexivity.
Defined.

(** The info response of a Counter-Strike server, with nothing after the
    version. *)
Lemma parseInfoResponse_wire_witness :
  option_map fst
    (parseInfoResponse
       (cursor [xff; xff; xff; xff; x49]
          (info_octets
             (mkWireInfo x11 (list_byte_of_string "Test Server")
                (list_byte_of_string "de_dust2") (list_byte_of_string "cstrike")
                (list_byte_of_string "Counter-Strike") [x0a; x00]
                x05 x0a x00 x64 x6c x00 x01 (list_byte_of_string "1.0.0.0"))
             ++ [])))
  = Some (ServerInfo.mk 17 (js "Test Server") (js "de_dust2") (js "cstrike")
            (js "Counter-Strike") 5 10 0 (js "d") (js "l") 0 1
            (Some 10) (Some (js "1.0.0.0")) None None None).
Proof.
  rewrite (parseInfoResponse_wire [xff; xff; xff; xff; x49] []
             (mkWireInfo x11 (list_byte_of_string "Test Server")
                (list_byte_of_string "de_dust2") (list_byte_of_string "cstrike")
                (list_byte_of_string "Counter-Strike") [x0a; x00]
                x05 x0a x00 x64 x6c x00 x01 (list_byte_of_string "1.0.0.0"))).
  - vm_compute. reflexivity.
  - repeat split; try reflexivity;
      vm_compute; repeat (apply Forall_cons; [discriminate|]); apply Forall_nil.
Defined.

(** The obsolete info response of a Half-Life server without a mod. *)
Lemma parseInfoObsoleteResponse_wire_witness :
  option_map fst
    (parseInfoObsoleteResponse
       (cursor [xff; xff; xff; xff; x6d]
          (obsolete_octets
             (mkWireObsolete (list_byte_of_string "127.0.0.1:27015")
                (list_byte_of_string "Test Server")
                (list_byte_of_string "crossfire") (list_byte_of_string "valve")
                (list_byte_of_string "Half-Life")
                x05 x0a x2f x64 x6c x00 x00 None x01 x02)
             ++ [])))
  = Some (ServerInfo.mk 47 (js "Test Server") (js "crossfire") (js "valve")
            (js "Half-Life") 5 10 2 (js "d") (js "l") 0 1
            None None None (Some (js "127.0.0.1:27015")) None).
Proof.
  rewrite (parseInfoObsoleteResponse_wire [xff; xff; xff; xff; x6d] []
             (mkWireObsolete (list_byte_of_string "127.0.0.1:27015")
                (list_byte_of_string "Test Server")
                (list_byte_of_string "crossfire") (list_byte_of_string "valve")
                (list_byte_of_string "Half-Life")
                x05 x0a x2f x64 x6c x00 x00 None x01 x02)).
  - vm_compute. reflexivity.
  - repeat split; try reflexivity; try exact I;
      vm_compute; repeat (apply Forall_cons; [discriminate|]); apply Forall_nil.
Defined.

(** The empty datagram. *)
Lemma short_datagram_witness :
  onMessage Sample.Bunzip_decode crc32 0x56 1 [] (Sample.started Sample.rules_request)
  = Throws RangeError (log (Recv []) (Sample.started Sample.rules_request)).
Proof.
  apply (short_datagram Sample.Bunzip_decode crc32 0x56 0 []
           (Sample.started Sample.rules_request)).
  cbn. lia.
Defined.

(** The rule list in a single packet. *)
Lemma single_packet_response_witness :
  exists st,
    onMessage Sample.Bunzip_decode crc32 0x56 1 Sample.rules
      (Sample.started Sample.rules_request)
    = Returns st
    /\ promise st = Resolved Sample.rules_decoded /\ closed st = true
    /\ sent st = [Sample.rules_request] /\ packets st = [].
Proof.
  pose proof (single_packet_response Sample.Bunzip_decode crc32 0x56 0 Sample.rules
                (Sample.started Sample.rules_request)
                eq_refl eq_refl eq_refl eq_refl) as H.
  assert (Hdecoded : parseResponse Sample.rules = inr Sample.rules_decoded)
    by (vm_compute; reflexivity).
  rewrite Hdecoded in H. exact H.
Defined.

(** Five zero octets. *)
Lemma invalid_response_header_witness :
  exists st,
    onMessage Sample.Bunzip_decode crc32 0x56 1 [x00; x00; x00; x00; x00]
      (Sample.started Sample.rules_request)
    = Returns st
    /\ promise st = Rejected InvalidResponseHeader /\ closed st = true
    /\ sent st = [Sample.rules_request] /\ packets st = [].
Proof.
  apply (invalid_response_header Sample.Bunzip_decode crc32 0x56 0
           [x00; x00; x00; x00; x00] (Sample.started Sample.rules_request));
    try reflexivity; try discriminate.
  cbn. lia.
Defined.

(** Three challenges in a row to [getPlayers]. *)
Lemma at_most_three_requests_witness :
  exists st later,
    getPlayers = Returns (Sample.started Sample.players_request)
    /\ run Sample.Bunzip_decode crc32 0x55 1
         [Datagram Sample.challenge; Datagram Sample.challenge;
          Datagram Sample.challenge]
         (Sample.started Sample.players_request)
       = Returns st
    /\ sent st = Sample.players_request :: later
    /\ (length (sent st) <= 3)%nat.
Proof.
  remember (run Sample.Bunzip_decode crc32 0x55 1
              [Datagram Sample.challenge; Datagram Sample.challenge;
               Datagram Sample.challenge]
              (Sample.started Sample.players_request)) as c eqn:Hrun.
  vm_compute in Hrun.
  match type of Hrun with
  | c = Returns ?s =>
      exists s;
      destruct (at_most_three_requests Sample.Bunzip_decode crc32 0x55 1
                  [Datagram Sample.challenge; Datagram Sample.challenge;
                   Datagram Sample.challenge]
                  (Sample.started Sample.players_request) s eq_refl)
        as (later & Hsent & _ & Hlength & _);
      [left; vm_compute; reflexivity|]
  end.
  exists later. split; [reflexivity|]. split; [exact Hrun|].
  split; [exact Hsent|exact Hlength].
Defined.

(** The rule list in a single packet, then the timer. *)
Lemma socket_closed_when_settled_witness :
  exists st,
    run Sample.Bunzip_decode crc32 0x56 1 [Datagram Sample.rules; TimerFired]
      (Sample.started Sample.rules_request)
    = Returns st
    /\ (closed st = true <-> promise st <> Pending)
    /\ promise st = Resolved Sample.rules_decoded.
Proof.
  eexists. split; [vm_compute; reflexivity|]. split; [|reflexivity].
  apply (socket_closed_when_settled Sample.Bunzip_decode crc32 0x56 1
           [Datagram Sample.rules; TimerFired]
           (Sample.started Sample.rules_request) _ eq_refl).
  left. vm_compute. reflexivity.
Defined.

(** The first of three packets, twice. *)
Lemma later_datagram_replaces_witness :
  exists st1 st2,
    onMessage Sample.Bunzip_decode crc32 0x56 1 Sample.third0
      (Sample.started Sample.rules_request)
    = Returns st1
    /\ onMessage Sample.Bunzip_decode crc32 0x56 1 Sample.third0 st1 = Returns st2
    /\ packets st2 = [(0, Sample.third0)]
    /\ untraced st2 = untraced st1.
Proof.
  destruct (later_datagram_replaces Sample.Bunzip_decode crc32 0x56 0
              Sample.third0 Sample.third0
              (Sample.started Sample.rules_request)
              (mkFragment false 3 0 None) (mkFragment false 3 0 None))
    as (st1 & st2 & H1 & H2 & Hpackets & _ & Hsame);
    try (lazymatch goal with
         | |- _ = _ => vm_compute; reflexivity
         | |- _ <> _ => vm_compute; discriminate
         end).
  exists st1, st2. split; [exact H1|]. split; [exact H2|].
  split; [exact Hpackets|]. apply Hsame. reflexivity.
Defined.




(** The rule list in three packets, the last one first. *)
Lemma multi_packet_response_witness :
  exists st,
    run Sample.Bunzip_decode crc32 0x56 1
      (map Datagram [Sample.third2; Sample.third0; Sample.third1])
      (Sample.started Sample.rules_request)
    = Returns st
    /\ promise st = Resolved Sample.rules_decoded /\ closed st = true
    /\ sent st = [Sample.rules_request].
Proof.
  pose proof (multi_packet_response Sample.Bunzip_decode crc32 0x56 0
                (Sample.started Sample.rules_request) 3
                [Sample.third0; Sample.third1; Sample.third2]
                [Sample.third2; Sample.third0; Sample.third1]
                eq_refl eq_refl eq_refl) as H.
  assert (Hdecoded :
    parseResponse
      (Buf.concat
         (map (payload (goldSource (Sample.started Sample.rules_request))
                 (orangeBox (Sample.started Sample.rules_request)))
              [Sample.third0; Sample.third1; Sample.third2]))
    = inr Sample.rules_decoded) by (vm_compute; reflexivity).
  rewrite Hdecoded in H. apply H.
  - repeat (apply Forall_cons;
            [eexists; split; [vm_compute; reflexivity|split; reflexivity]|]).
    apply Forall_nil.
  - vm_compute.
    repeat (apply SSorted_cons; [|repeat (apply Forall_cons; [reflexivity|]);
                                  apply Forall_nil]).
    apply SSorted_nil.
  - reflexivity.
  - reflexivity.
  - apply Permutation_sym.
    apply (Permutation_cons_app [Sample.third0; Sample.third1] []).
    apply Permutation_refl.
Defined.

(** The rule list as a compressed response in one packet, with its
    checksum. *)
Lemma compressed_response_witness :
  exists st,
    onMessage Sample.Bunzip_decode crc32 0x56 1
      (Sample.compressed_packet (crc32 Sample.rules))
      (Sample.started Sample.rules_request)
    = Returns st
    /\ promise st = Resolved Sample.rules_decoded /\ closed st = true
    /\ sent st = [Sample.rules_request].
Proof.
  apply (compressed_response Sample.Bunzip_decode crc32 0x56 0
           (Sample.compressed_packet (crc32 Sample.rules))
           (Sample.started Sample.rules_request)
           (mkFragment true 1 0 (Some (crc32 Sample.rules)))
           Sample.rules Sample.rules_decoded);
    vm_compute; reflexivity.
Defined.



(** A call of [getRules] that receives nothing before its timer fires. *)
Lemma timer_and_socket_error_witness :
  exists st,
    getRules = Returns (Sample.started Sample.rules_request)
    /\ run Sample.Bunzip_decode crc32 0x56 1 [TimerFired; Datagram Sample.rules]
         (Sample.started Sample.rules_request)
       = Returns st
    /\ promise st = Rejected RequestTimedOut /\ closed st = true
    /\ sent st = [Sample.rules_request].
Proof.
  eexists. split; [reflexivity|]. split.
  - exact (proj1 (timer_and_socket_error Sample.Bunzip_decode crc32 0x56 1
                    (Sample.started Sample.rules_request)
                    [Datagram Sample.rules] eq_refl eq_refl)).
  - repeat split.
Defined.
